(** * db-migration-tool: schema and data conversion, analysed in Rocq

    A shallow embedding of the SQL Server to PostgreSQL migration tool:
    - [src/converters/schema_converter.py]  (module [SchemaConverter]),
    - [src/converters/data_converter.py]    (module [DataConverter]),
    - [src/analyzers/performance_analyzer.py] (module [PerformanceAnalyzer]),
    - the orchestrator's batch loop in [main.py] (module [MigrationOrchestrator]).

    Conventions of the embedding.
    - A Python [dict] keyed by strings is a [gmap string _]; a loop over
      [d.items()] is a [map_fold], or a loop over [map_to_list d].  The
      insertion order of a Python dict is therefore abstracted: every property
      below is about membership and lookups.
    - A metadata dictionary with a fixed set of keys is a record; a value that
      may be [None] is an [option].
    - Text is a [string] of bytes; [lower] folds the letters A-Z only, which is
      what [str.lower] does on ASCII text.
    - [logging] calls are recorded: code that logs returns the records it
      emitted next to its result.
    - Code that can raise returns a [result]. *)

From Stdlib Require Import Ascii.
From stdpp Require Import base decidable option list strings pretty gmap fin_maps.

Open Scope string_scope.
Open Scope Z_scope.

(** ** Python primitives *)

Module Py.

(** [c.lower()] for one ASCII character. *)
Definition lower_ascii (c : ascii) : ascii :=
  let n := nat_of_ascii c in
  if ((65 <=? n) && (n <=? 90))%nat then ascii_of_nat (n + 32) else c.

(** [s.lower()] *)
Fixpoint lower (s : string) : string :=
  match s with
  | EmptyString => EmptyString
  | String c s' => String (lower_ascii c) (lower s')
  end.

(** [c in chars], a character in a string used as a set. *)
Fixpoint char_in (c : ascii) (chars : string) : bool :=
  match chars with
  | EmptyString => false
  | String d chars' => if Ascii.eqb c d then true else char_in c chars'
  end.

(** [s.lstrip(chars)] *)
Fixpoint lstrip (chars s : string) : string :=
  match s with
  | EmptyString => EmptyString
  | String c s' => if char_in c chars then lstrip chars s' else s
  end.

(** [s.rstrip(chars)] *)
Fixpoint rstrip (chars s : string) : string :=
  match s with
  | EmptyString => EmptyString
  | String c s' =>
      match rstrip chars s' with
      | EmptyString => if char_in c chars then EmptyString else String c EmptyString
      | r => String c r
      end
  end.

(** [s.strip(chars)]: every leading and every trailing character that is in
    [chars] is removed. *)
Definition strip (chars s : string) : string := rstrip chars (lstrip chars s).

(** [sub in s] for strings. *)
Fixpoint contains (sub s : string) : bool :=
  String.prefix sub s ||
  match s with
  | EmptyString => false
  | String _ s' => contains sub s'
  end.

(** Truth value of an optional integer: [None] and [0] are false. *)
Definition truthy_int (x : option Z) : bool :=
  match x with
  | Some n => negb (n =? 0)
  | None => false
  end.

(** Truth value of an optional string: [None] and [''] are false. *)
Definition truthy_str (x : option string) : bool :=
  match x with
  | Some EmptyString => false
  | Some _ => true
  | None => false
  end.

(** [f"{x}"] for an optional integer. *)
Definition format_int (x : option Z) : string :=
  match x with
  | Some n => pretty n
  | None => "None"
  end.

(** [x in xs] for a list of strings. *)
Definition in_list (x : string) (xs : list string) : bool := bool_decide (x ∈ xs).

(** The double-quote character, as a one-character string. *)
Definition dquote : string := String (ascii_of_nat 34) EmptyString.

(** Exceptions raised by the modelled code and its collaborators. *)
Inductive Exn :=
| TypeError
| AttributeError
| KeyError (key : string)
| ExtractionError (msg : string)
| LoadError (msg : string).

Inductive result (A : Type) : Type :=
| Ok (a : A)
| Raise (e : Exn).
Arguments Ok {A} a.
Arguments Raise {A} e.

#[export] Instance result_ret : MRet result := λ A a, Ok a.
#[export] Instance result_bind : MBind result := λ A B f m,
  match m with
  | Ok a => f a
  | Raise e => Raise e
  end.

(** [x > n], where [x] may be [None]: Python 3 refuses to order [None]
    against an [int]. *)
Definition gt (x : option Z) (n : Z) : result bool :=
  match x with
  | Some v => Ok (n <? v)
  | None => Raise TypeError
  end.

End Py.

(** ** The [logging] module, as far as the tool uses it *)

Module Logging.

Inductive Level := DEBUG | INFO | WARNING | ERROR.

Record LogRecord := mkLogRecord { levelname : Level; message : string }.

(** A computation that may emit log records. *)
Definition Logged (A : Type) : Type := A * list LogRecord.

#[export] Instance Logged_ret : MRet Logged := λ A a, (a, []).
#[export] Instance Logged_bind : MBind Logged := λ A B f m,
  let '(a, l1) := m in
  let '(b, l2) := f a in
  (b, (l1 ++ l2)%list).

Definition warning (msg : string) : Logged unit := (tt, [mkLogRecord WARNING msg]).

End Logging.

(** ** The metadata model (the dictionaries built by the extractor) *)

Module Metadata.

(** One entry of [table_info['columns']].  [col_is_primary_key] is the
    optional key [is_primary_key], [None] when the key is absent. *)
Record ColumnDefinition := mkColumn {
  col_name : string;
  col_data_type : string;
  col_max_length : option Z;
  col_precision : option Z;
  col_scale : option Z;
  col_is_nullable : bool;
  col_default_value : option string;
  col_ordinal_position : Z;
  col_is_primary_key : option bool
}.

Record TableDefinition := mkTable {
  tbl_schema : string;
  tbl_name : string;
  tbl_columns : list ColumnDefinition
}.

Record ViewDefinition := mkView {
  view_schema : string;
  view_name : string;
  view_definition : string
}.

Record IndexColumn := mkIndexColumn {
  ic_name : string;
  ic_ordinal : Z;
  ic_descending : bool
}.

Record IndexDefinition := mkIndex {
  idx_name : string;
  idx_table : string;
  idx_type : string;
  idx_is_unique : bool;
  idx_is_primary_key : bool;
  idx_columns : list IndexColumn
}.

(** [metadata], the dictionary returned by [extract_metadata]; [Any] is the
    type of a constraint entry, about which the code assumes nothing. *)
Record SchemaSnapshot (Any : Type) := mkSnapshot {
  md_tables : gmap string TableDefinition;
  md_views : gmap string ViewDefinition;
  md_indexes : gmap string IndexDefinition;
  md_constraints : gmap string Any
}.
Arguments mkSnapshot {Any}.
Arguments md_tables {Any}.
Arguments md_views {Any}.
Arguments md_indexes {Any}.
Arguments md_constraints {Any}.

Record ConvertedColumn := mkConvertedColumn {
  cc_name : string;
  cc_data_type : string;
  cc_is_nullable : bool;
  cc_default_value : option string;
  cc_ordinal_position : Z
}.

Record ConvertedTable := mkConvertedTable {
  ct_schema : string;
  ct_name : string;
  ct_columns : list ConvertedColumn
}.

Record ConvertedView := mkConvertedView {
  cv_schema : string;
  cv_name : string;
  cv_definition : string
}.

Record ConvertedIndex := mkConvertedIndex {
  ci_name : string;
  ci_table : string;
  ci_is_unique : bool;
  ci_columns : list IndexColumn
}.

Record ConvertedSchema (Any : Type) := mkConverted {
  cs_tables : gmap string ConvertedTable;
  cs_views : gmap string ConvertedView;
  cs_indexes : gmap string ConvertedIndex;
  cs_constraints : gmap string Any
}.
Arguments mkConverted {Any}.
Arguments cs_tables {Any}.
Arguments cs_views {Any}.
Arguments cs_indexes {Any}.
Arguments cs_constraints {Any}.

End Metadata.

(** ** [class SchemaConverter] *)

Module SchemaConverter.
Import Py Logging Metadata.

(** [_load_data_type_mapping] *)
Definition _load_data_type_mapping : gmap string string :=
  list_to_map [
    ("int", "INTEGER");
    ("bigint", "BIGINT");
    ("smallint", "SMALLINT");
    ("tinyint", "SMALLINT");
    ("bit", "BOOLEAN");
    ("decimal", "DECIMAL");
    ("numeric", "NUMERIC");
    ("money", "DECIMAL(15,2)");
    ("smallmoney", "DECIMAL(10,4)");
    ("float", "DOUBLE PRECISION");
    ("real", "REAL");
    ("datetime", "TIMESTAMP");
    ("datetime2", "TIMESTAMP");
    ("smalldatetime", "TIMESTAMP");
    ("date", "DATE");
    ("time", "TIME");
    ("datetimeoffset", "TIMESTAMP WITH TIME ZONE");
    ("char", "CHAR");
    ("varchar", "VARCHAR");
    ("nchar", "CHAR");
    ("nvarchar", "VARCHAR");
    ("text", "TEXT");
    ("ntext", "TEXT");
    ("binary", "BYTEA");
    ("varbinary", "BYTEA");
    ("image", "BYTEA");
    ("uniqueidentifier", "UUID");
    ("xml", "XML")
  ].

(** [self.data_type_mapping], set once in [__init__]. *)
Definition data_type_mapping : gmap string string := _load_data_type_mapping.

(** The [conversions] dictionary of [_convert_default_value], in the order
    it is written and iterated. *)
Definition default_conversions : list (string * string) := [
  ("getdate()", "CURRENT_TIMESTAMP");
  ("getutcdate()", "CURRENT_TIMESTAMP");
  ("newid()", "gen_random_uuid()");
  ("user_name()", "CURRENT_USER");
  ("system_user", "CURRENT_USER")
].

(** The loop [for sql_func, pg_func in conversions.items()] with its early
    [return pg_func]; [None] when the loop falls through. *)
Fixpoint first_conversion (default_value : string)
    (conversions : list (string * string)) : option string :=
  match conversions with
  | [] => None
  | (sql_func, pg_func) :: rest =>
      if String.eqb (lower default_value) sql_func then Some pg_func
      else first_conversion default_value rest
  end.

(** [_convert_default_value] *)
Definition _convert_default_value (default_value : option string) : option string :=
  if negb (truthy_str default_value) then None
  else
    let default_value := strip "()" (default "" default_value) in
    match first_conversion default_value default_conversions with
    | Some pg_func => Some pg_func
    | None => Some default_value
    end.

(** [_convert_column] *)
Definition _convert_column (column : ColumnDefinition) : Logged ConvertedColumn :=
  let sql_server_type := lower (col_data_type column) in
  pg_type ←
    match data_type_mapping !! sql_server_type with
    | Some mapped => mret mapped
    | None =>
        warning ("Unknown data type: " +:+ sql_server_type +:+ ", using TEXT");;
        mret "TEXT"
    end;
  let pg_type :=
    if truthy_int (col_max_length column)
       && in_list sql_server_type ["varchar"; "nvarchar"; "char"; "nchar"]
    then
      if bool_decide (col_max_length column = Some (-1)) then "TEXT"
      else pg_type +:+ "(" +:+ format_int (col_max_length column) +:+ ")"
    else pg_type in
  let pg_type :=
    if truthy_int (col_precision column)
       && in_list sql_server_type ["decimal"; "numeric"]
    then
      if truthy_int (col_scale column)
      then pg_type +:+ "(" +:+ format_int (col_precision column) +:+ ","
                   +:+ format_int (col_scale column) +:+ ")"
      else pg_type +:+ "(" +:+ format_int (col_precision column) +:+ ")"
    else pg_type in
  let default_value := _convert_default_value (col_default_value column) in
  mret {|
    cc_name := col_name column;
    cc_data_type := pg_type;
    cc_is_nullable := col_is_nullable column;
    cc_default_value := default_value;
    cc_ordinal_position := col_ordinal_position column
  |}.

(** The inner loop of [_convert_tables]: convert the columns in order and
    append each result. *)
Fixpoint convert_columns (columns : list ColumnDefinition) : Logged (list ConvertedColumn) :=
  match columns with
  | [] => mret []
  | column :: rest =>
      converted_column ← _convert_column column;
      converted_rest ← convert_columns rest;
      mret (converted_column :: converted_rest)
  end.

(** [_convert_tables] *)
Definition _convert_tables (tables : gmap string TableDefinition)
    : Logged (gmap string ConvertedTable) :=
  map_fold (λ table_key table_info (acc : Logged (gmap string ConvertedTable)),
              converted_tables ← acc;
              columns ← convert_columns (tbl_columns table_info);
              let converted_table := {|
                ct_schema := tbl_schema table_info;
                ct_name := tbl_name table_info;
                ct_columns := columns
              |} in
              mret (<[table_key := converted_table]> converted_tables))
           (mret ∅) tables.

(** The ordered rewrite rules of [_convert_tsql_to_pgsql]: regular
    expression and replacement template, as written in the source. *)
Definition tsql_conversions : list (string * string) := [
  ("\[(\w+)\]", dquote +:+ "\1" +:+ dquote);
  ("ISNULL\(([^,]+),([^)]+)\)", "COALESCE(\1,\2)");
  ("LEN\(", "LENGTH(");
  ("DATEPART\(", "EXTRACT(");
  ("GETDATE\(\)", "CURRENT_TIMESTAMP")
].

Section WithRegex.

(** [re.sub(pattern, replacement, text, flags=re.IGNORECASE)] of the
    standard library. *)
Variable re_sub_ignorecase : string → string → string → string.

(** [_convert_tsql_to_pgsql] *)
Definition _convert_tsql_to_pgsql (tsql : string) : string :=
  foldl (λ result '(pattern, replacement),
           re_sub_ignorecase pattern replacement result)
        tsql tsql_conversions.

(** [_convert_views] *)
Definition _convert_views (views : gmap string ViewDefinition)
    : gmap string ConvertedView :=
  map_fold (λ view_key view_info converted_views,
              let pg_definition := _convert_tsql_to_pgsql (view_definition view_info) in
              <[view_key := {|
                  cv_schema := view_schema view_info;
                  cv_name := view_name view_info;
                  cv_definition := pg_definition
                |}]> converted_views)
           ∅ views.

(** [_convert_indexes]; the first branch is the [continue]. *)
Definition _convert_indexes (indexes : gmap string IndexDefinition)
    : gmap string ConvertedIndex :=
  map_fold (λ index_key index_info converted_indexes,
              if idx_is_primary_key index_info then converted_indexes
              else
                <[index_key := {|
                    ci_name := idx_name index_info;
                    ci_table := idx_table index_info;
                    ci_is_unique := idx_is_unique index_info;
                    ci_columns := idx_columns index_info
                  |}]> converted_indexes)
           ∅ indexes.

(** [_convert_constraints]: the argument is ignored. *)
Definition _convert_constraints {Any : Type} (constraints : gmap string Any)
    : gmap string Any := ∅.

(** [convert] *)
Definition convert {Any : Type} (metadata : SchemaSnapshot Any)
    : Logged (ConvertedSchema Any) :=
  tables ← _convert_tables (md_tables metadata);
  let views := _convert_views (md_views metadata) in
  let indexes := _convert_indexes (md_indexes metadata) in
  let constraints := _convert_constraints (md_constraints metadata) in
  mret {|
    cs_tables := tables;
    cs_views := views;
    cs_indexes := indexes;
    cs_constraints := constraints
  |}.

End WithRegex.

End SchemaConverter.

(** ** The part of pandas that the data converter uses

    The behaviour is that of pandas 1.x and 2.x, where [astype(str)] on an
    object column gives an object column of Python strings. *)

Module Pandas.
Import Py.

(** The column types that [read_sql_query] produces. *)
Inductive Dtype :=
| DObject
| DBool
| DInt64
| DFloat64
| DDatetime64 (tz : option string)
| DTimedelta64.

(** [str(dtype)] *)
Definition dtype_str (d : Dtype) : string :=
  match d with
  | DObject => "object"
  | DBool => "bool"
  | DInt64 => "int64"
  | DFloat64 => "float64"
  | DDatetime64 None => "datetime64[ns]"
  | DDatetime64 (Some tz) => "datetime64[ns, " +:+ tz +:+ "]"
  | DTimedelta64 => "timedelta64[ns]"
  end.

(** [dtype == name] *)
Definition dtype_is (d : Dtype) (name : string) : bool := String.eqb (dtype_str d) name.

(** A cell.  [PyObject text] is an object of any other class (a [Decimal], a
    [float], [bytes], a [Timestamp], ...), of which the model keeps the text
    that [str()] returns. *)
Inductive PyValue :=
| PyNone
| PyBool (b : bool)
| PyInt (n : Z)
| PyStr (s : string)
| PyObject (text : string).

(** [str(v)] *)
Definition str (v : PyValue) : string :=
  match v with
  | PyNone => "None"
  | PyBool true => "True"
  | PyBool false => "False"
  | PyInt n => pretty n
  | PyStr s => s
  | PyObject text => text
  end.

(** [bool(v)] *)
Definition truth (v : PyValue) : bool :=
  match v with
  | PyNone => false
  | PyBool b => b
  | PyInt n => negb (n =? 0)
  | PyStr s => negb (String.eqb s "")
  | PyObject _ => true
  end.

Record Series := mkSeries { dtype : Dtype; values : list PyValue }.

(** [series.astype(str)]: every cell becomes its [str()], missing values
    included; the result holds Python strings, dtype [object]. *)
Definition astype_str (series : Series) : Series :=
  {| dtype := DObject; values := (λ v, PyStr (str v)) <$> values series |}.

(** [series.astype(bool)] *)
Definition astype_bool (series : Series) : Series :=
  {| dtype := DBool; values := (λ v, PyBool (truth v)) <$> values series |}.

(** [pd.to_datetime(series)] on a series that already has a datetime dtype
    (the only use in the converter): the series is returned as it is. *)
Definition to_datetime (series : Series) : Series := series.

(** A frame: its row index (a [RangeIndex], kept as its length) and its
    labelled columns in order.  Labels may repeat, as in pandas. *)
Record DataFrame := mkDataFrame {
  index : nat;
  labelled : list (string * Series)
}.

(** [df.columns] *)
Definition columns (df : DataFrame) : list string := (labelled df).*1.

(** [len(df)] *)
Definition len (df : DataFrame) : nat := index df.

(** [df.copy()]; frames are values here, so the copy is the frame. *)
Definition copy (df : DataFrame) : DataFrame := df.

(** What [df[column]] evaluates to: a [Series] when the label occurs once, a
    [DataFrame] of the matching columns when it occurs more than once. *)
Inductive Selection :=
| SelSeries (series : Series)
| SelFrame (frame : DataFrame).

(** [df[column]] *)
Definition getitem (df : DataFrame) (column : string) : result Selection :=
  match filter (λ c, c.1 = column) (labelled df) with
  | [] => Raise (KeyError column)
  | [(_, series)] => Ok (SelSeries series)
  | several => Ok (SelFrame {| index := index df; labelled := several |})
  end.

(** [df[column] = series], for a series that has the frame's own index (as
    every series derived from a column of the frame has): every column with
    that label is replaced, and a new label is appended. *)
Definition setitem (df : DataFrame) (column : string) (series : Series) : DataFrame :=
  if bool_decide (column ∈ columns df) then
    {| index := index df;
       labelled := (λ c, if bool_decide (c.1 = column) then (c.1, series) else c)
                     <$> labelled df |}
  else
    {| index := index df; labelled := (labelled df ++ [(column, series)])%list |}.

(** A frame is rectangular when every column has one cell per row. *)
Definition rectangular (df : DataFrame) : Prop :=
  Forall (λ c, length (values c.2) = index df) (labelled df).

End Pandas.

(** ** [class DataConverter] *)

Module DataConverter.
Import Py Pandas.

(** [_convert_column_data].  Reading [.dtype] fails on a [DataFrame]. *)
Definition _convert_column_data (series : Selection) (table_name column_name : string)
    : result Series :=
  match series with
  | SelFrame _ => Raise AttributeError
  | SelSeries series =>
      if dtype_is (dtype series) "object" then Ok (astype_str series)
      else if contains "datetime" (dtype_str (dtype series)) then Ok (to_datetime series)
      else if dtype_is (dtype series) "bool" then Ok (astype_bool series)
      else Ok series
  end.

(** One turn of the loop of [convert_batch]. *)
Definition convert_step (table_name : string) (converted_batch : DataFrame)
    (column : string) : result DataFrame :=
  selected ← getitem converted_batch column;
  series ← _convert_column_data selected table_name column;
  mret (setitem converted_batch column series).

(** [for x in xs: state = body(state, x)], where the body may raise. *)
Fixpoint for_each {S A : Type} (body : S → A → result S) (state : S) (xs : list A)
    : result S :=
  match xs with
  | [] => Ok state
  | x :: rest => state' ← body state x; for_each body state' rest
  end.

(** [convert_batch] *)
Definition convert_batch (data_batch : DataFrame) (table_name : string)
    : result DataFrame :=
  let converted_batch := copy data_batch in
  for_each (convert_step table_name) converted_batch (columns converted_batch).

End DataConverter.

(** ** [class PerformanceAnalyzer] *)

Module PerformanceAnalyzer.
Import Py Metadata.

(** One recommendation dictionary; [rec_column] is the key [column], which
    only some kinds of recommendation carry. *)
Record Recommendation := mkRecommendation {
  rec_type : string;
  rec_table : string;
  rec_column : option string;
  rec_severity : string;
  rec_description : string;
  rec_recommendation : string
}.

Record Report := mkReport {
  indexing : list Recommendation;
  partitioning : list Recommendation;
  data_types : list Recommendation;
  constraints : list Recommendation
}.

(** [_analyze_indexing] *)
Definition _analyze_indexing {Any} (metadata : SchemaSnapshot Any) : list Recommendation :=
  foldl (λ recommendations '(table_key, table_info),
           let has_pk :=
             existsb (λ col, default false (col_is_primary_key col))
                     (tbl_columns table_info) in
           if negb has_pk then
             (recommendations ++ [{|
                rec_type := "missing_primary_key";
                rec_table := table_key;
                rec_column := None;
                rec_severity := "high";
                rec_description := "Table " +:+ table_key +:+ " lacks a primary key";
                rec_recommendation := "Add a primary key or unique identifier column"
              |}])%list
           else recommendations)
        [] (map_to_list (md_tables metadata)).

(** [_analyze_partitioning] *)
Definition _analyze_partitioning {Any} (metadata : SchemaSnapshot Any)
    : list Recommendation :=
  foldl (λ recommendations '(table_key, table_info),
           let date_columns :=
             filter (λ col, lower (col_data_type col) ∈ ["datetime"; "datetime2"; "date"])
                    (tbl_columns table_info) in
           match date_columns with
           | first :: _ =>
               (recommendations ++ [{|
                  rec_type := "partitioning_opportunity";
                  rec_table := table_key;
                  rec_column := None;
                  rec_severity := "medium";
                  rec_description :=
                    "Table " +:+ table_key +:+ " has date columns suitable for partitioning";
                  rec_recommendation := "Consider partitioning by " +:+ col_name first
                |}])%list
           | [] => recommendations
           end)
        [] (map_to_list (md_tables metadata)).

(** The test of [_analyze_data_types]; [and] evaluates the comparison only
    for a [varchar] or [nvarchar] column. *)
Definition is_oversized_varchar (column : ColumnDefinition) : result bool :=
  if in_list (lower (col_data_type column)) ["varchar"; "nvarchar"]
  then gt (col_max_length column) 1000
  else Ok false.

(** The inner loop of [_analyze_data_types], over the columns of a table. *)
Fixpoint analyze_columns (table_key : string) (columns : list ColumnDefinition)
    (recommendations : list Recommendation) : result (list Recommendation) :=
  match columns with
  | [] => Ok recommendations
  | column :: rest =>
      oversized ← is_oversized_varchar column;
      let recommendations :=
        if (oversized : bool) then
          (recommendations ++ [{|
             rec_type := "oversized_varchar";
             rec_table := table_key;
             rec_column := Some (col_name column);
             rec_severity := "low";
             rec_description := "Column " +:+ col_name column +:+ " has large varchar size";
             rec_recommendation := "Consider using TEXT type or reducing size"
           |}])%list
        else recommendations in
      analyze_columns table_key rest recommendations
  end.

(** The outer loop of [_analyze_data_types], over the tables. *)
Fixpoint analyze_tables (tables : list (string * TableDefinition))
    (recommendations : list Recommendation) : result (list Recommendation) :=
  match tables with
  | [] => Ok recommendations
  | (table_key, table_info) :: rest =>
      recommendations ← analyze_columns table_key (tbl_columns table_info) recommendations;
      analyze_tables rest recommendations
  end.

(** [_analyze_data_types] *)
Definition _analyze_data_types {Any} (metadata : SchemaSnapshot Any)
    : result (list Recommendation) :=
  analyze_tables (map_to_list (md_tables metadata)) [].

(** [_analyze_constraints] *)
Definition _analyze_constraints {Any} (metadata : SchemaSnapshot Any)
    : list Recommendation := [].

(** [analyze_schema] *)
Definition analyze_schema {Any} (metadata : SchemaSnapshot Any) : result Report :=
  let indexing := _analyze_indexing metadata in
  let partitioning := _analyze_partitioning metadata in
  data_types ← _analyze_data_types metadata;
  let constraints := _analyze_constraints metadata in
  mret {|
    indexing := indexing;
    partitioning := partitioning;
    data_types := data_types;
    constraints := constraints
  |}.

End PerformanceAnalyzer.

(** ** [class MigrationOrchestrator]: the data phase *)

Module MigrationOrchestrator.
Import Py Logging Metadata Pandas.

(** What a run does that can be observed from outside: the calls that reach
    the extractor, the data converter and the loader, and the log. *)
Inductive Event :=
| CallExtractData (table_name : string) (batch_size : Z)
| CallConvertBatch (data_batch : DataFrame) (table_name : string)
| CallLoadData (table_name : string) (data : DataFrame)
| Log (record : LogRecord).

(** A generator as the loop sees it: it ends, yields a batch and goes on, or
    raises. *)
Inductive Generator :=
| GenStop
| GenYield (data_batch : DataFrame) (rest : Generator)
| GenRaise (e : Exn).

(** The batches a generator yields before it ends or raises. *)
Fixpoint yielded (g : Generator) : list DataFrame :=
  match g with
  | GenYield data_batch rest => data_batch :: yielded rest
  | _ => []
  end.

(** The generator runs to its end without raising. *)
Fixpoint completes (g : Generator) : Prop :=
  match g with
  | GenStop => True
  | GenYield _ rest => completes rest
  | GenRaise _ => False
  end.

(** A step of a run: the events so far and the value or the exception. *)
Definition Run (A : Type) : Type := list Event * result A.

#[export] Instance Run_ret : MRet Run := λ A a, ([], Ok a).
#[export] Instance Run_bind : MBind Run := λ A B f m,
  match m with
  | (events, Ok a) => let '(events', r) := f a in ((events ++ events')%list, r)
  | (events, Raise e) => (events, Raise e)
  end.

Definition emit (e : Event) : Run unit := ([e], Ok tt).
Definition raise {A} (e : Exn) : Run A := ([], Raise e).
Definition info (msg : string) : Run unit := emit (Log (mkLogRecord INFO msg)).
Definition debug (msg : string) : Run unit := emit (Log (mkLogRecord DEBUG msg)).

Section Orchestrator.

(** [self.config.get('batch_size')], [None] when the key is absent. *)
Variable config_batch_size : option Z.
(** [self.dry_run] *)
Variable dry_run : bool.
(** The source connector: what [extract_data(table_name, batch_size)]
    yields. *)
Variable extract_data : string → Z → Generator.
(** The target connector: whether [load_data(table_name, data)] raises. *)
Variable load_data : string → DataFrame → result unit.

(** [self.extractor.extract_data(table_name, batch_size)] *)
Definition call_extract_data (table_name : string) (batch_size : Z) : Run Generator :=
  emit (CallExtractData table_name batch_size);;
  mret (extract_data table_name batch_size).

(** [self.data_converter.convert_batch(data_batch, table_name)] *)
Definition call_convert_batch (data_batch : DataFrame) (table_name : string)
    : Run DataFrame :=
  ([CallConvertBatch data_batch table_name],
   DataConverter.convert_batch data_batch table_name).

(** [self.loader.load_data(table_name, converted_data)] *)
Definition call_load_data (table_name : string) (data : DataFrame) : Run unit :=
  ([CallLoadData table_name data], load_data table_name data).

(** The body of the inner loop, for one batch. *)
Definition process_batch (table_name : string) (batch_num : Z) (data_batch : DataFrame)
    : Run unit :=
  converted_data ← call_convert_batch data_batch table_name;
  (if negb dry_run then call_load_data table_name converted_data else mret tt);;
  debug ("Processed batch " +:+ pretty (batch_num + 1) +:+ " for " +:+ table_name).

(** [for batch_num, data_batch in enumerate(data_generator)] *)
Fixpoint for_batches (table_name : string) (batch_num : Z) (data_generator : Generator)
    : Run unit :=
  match data_generator with
  | GenStop => mret tt
  | GenRaise e => raise e
  | GenYield data_batch rest =>
      process_batch table_name batch_num data_batch;;
      for_batches table_name (batch_num + 1) rest
  end.

(** The body of the outer loop, for one table. *)
Definition migrate_table (batch_size : Z) (table_name : string) : Run unit :=
  info ("Migrating data for table: " +:+ table_name);;
  data_generator ← call_extract_data table_name batch_size;
  for_batches table_name 0 data_generator.

(** [for table_name in source_metadata['tables']] *)
Fixpoint for_tables (batch_size : Z) (table_names : list string) : Run unit :=
  match table_names with
  | [] => mret tt
  | table_name :: rest =>
      migrate_table batch_size table_name;;
      for_tables batch_size rest
  end.

(** [_migrate_data] *)
Definition _migrate_data {Any} (source_metadata : SchemaSnapshot Any)
    (target_schema : ConvertedSchema Any) : Run unit :=
  let batch_size := default 10000 config_batch_size in
  for_tables batch_size (map_to_list (md_tables source_metadata)).*1.

End Orchestrator.

End MigrationOrchestrator.

(** * Vocabulary of the statements

    Closed forms of what the code computes, the readings of the specification
    that the statements compare it with, and sample inputs. *)

Import Py Logging Metadata SchemaConverter Pandas DataConverter PerformanceAnalyzer
       MigrationOrchestrator.

(** ** Schema converter *)

(** The warning that [_convert_column] logs for a type name [t]. *)
Definition unknown_type_warning (t : string) : LogRecord :=
  mkLogRecord WARNING ("Unknown data type: " +:+ t +:+ ", using TEXT").

(** An [nvarchar(max)] column. *)
Definition column_nvarchar_max : ColumnDefinition :=
  mkColumn "Notes" "NVarChar" (Some (-1)) None None true None 4 None.

(** The type string that the specification gives a decimal column: the
    scale segment is there as soon as the scale is not null. *)
Definition spec_decimal_type (mapped : string) (precision : Z) (scale : option Z) : string :=
  match scale with
  | Some s => mapped +:+ "(" +:+ pretty precision +:+ "," +:+ pretty s +:+ ")"
  | None => mapped +:+ "(" +:+ pretty precision +:+ ")"
  end.

(** The type string that the code gives it: the scale segment is there when
    the scale is neither null nor zero. *)
Definition code_decimal_type (mapped : string) (precision : Z) (scale : option Z) : string :=
  match scale with
  | Some s =>
      if s =? 0 then mapped +:+ "(" +:+ pretty precision +:+ ")"
      else mapped +:+ "(" +:+ pretty precision +:+ "," +:+ pretty s +:+ ")"
  | None => mapped +:+ "(" +:+ pretty precision +:+ ")"
  end.

(** A [decimal(10,0)] column. *)
Definition column_decimal_10_0 : ColumnDefinition :=
  mkColumn "Quantity" "decimal" None (Some 10) (Some 0) false None 2 None.

(** A [numeric(18,4)] column. *)
Definition column_numeric_18_4 : ColumnDefinition :=
  mkColumn "Price" "NUMERIC" None (Some 18) (Some 4) false None 5 None.

(** The last character of a string. *)
Fixpoint last_char (s : string) : option ascii :=
  match s with
  | EmptyString => None
  | String c EmptyString => Some c
  | String _ s' => last_char s'
  end.

(** The entry that [_convert_indexes] writes for an index. *)
Definition converted_index (index_info : IndexDefinition) : ConvertedIndex :=
  {| ci_name := idx_name index_info;
     ci_table := idx_table index_info;
     ci_is_unique := idx_is_unique index_info;
     ci_columns := idx_columns index_info |}.

(** The indexes of a table [Customer]: its primary key and one more. *)
Definition index_pk_customer : IndexDefinition :=
  mkIndex "PK_Customer" "Customer" "CLUSTERED" true true [mkIndexColumn "Id" 1 false].

Definition index_ix_customer_name : IndexDefinition :=
  mkIndex "IX_Customer_Name" "Customer" "NONCLUSTERED" false false
          [mkIndexColumn "Name" 1 false].

Definition indexes_customer : gmap string IndexDefinition :=
  <["Customer.PK_Customer" := index_pk_customer]>
    (<["Customer.IX_Customer_Name" := index_ix_customer_name]> ∅).

(** A snapshot that holds these indexes and nothing else. *)
Definition snapshot_indexed : SchemaSnapshot Empty_set :=
  {| md_tables := ∅;
     md_views := ∅;
     md_indexes := indexes_customer;
     md_constraints := ∅ |}.

(** ** Data converter *)

(** What the converter does to one cell of a column of type [d]. *)
Definition converted_value (d : Dtype) (v : PyValue) : PyValue :=
  if dtype_is d "object" then PyStr (str v)
  else if contains "datetime" (dtype_str d) then v
  else if dtype_is d "bool" then PyBool (truth v)
  else v.

(** What it does to a column: the cells are converted one by one, in place;
    the dtype stays. *)
Definition converted_series (series : Series) : Series :=
  {| dtype := dtype series;
     values := converted_value (dtype series) <$> values series |}.

(** What it does to a frame with distinct labels. *)
Definition converted_frame (df : DataFrame) : DataFrame :=
  {| index := index df;
     labelled := (λ c, (c.1, converted_series c.2)) <$> labelled df |}.

(** The cell in row [row] of the [i]-th column. *)
Definition cell (df : DataFrame) (i row : nat) : option PyValue :=
  c ← labelled df !! i; values c.2 !! row.

(** The dtype of the [i]-th column. *)
Definition column_dtype (df : DataFrame) (i : nat) : option Dtype :=
  (λ c, dtype c.2) <$> labelled df !! i.

(** A batch of two rows of a table [Customer]. *)
Definition batch_customer : DataFrame :=
  {| index := 2;
     labelled := [
       ("Id", mkSeries DInt64 [PyInt 1; PyInt 2]);
       ("Name", mkSeries DObject [PyStr "Ada"; PyNone]);
       ("Balance", mkSeries DObject [PyObject "10.50"; PyInt 0]);
       ("Created", mkSeries (DDatetime64 None)
                            [PyObject "2024-01-01 00:00:00"; PyObject "NaT"]);
       ("Active", mkSeries DBool [PyBool true; PyBool false])
     ] |}.

(** ** Performance analyzer *)

(** The recommendation that [_analyze_data_types] appends for a column. *)
Definition oversized_varchar_recommendation (table_key : string)
    (column : ColumnDefinition) : Recommendation :=
  {| rec_type := "oversized_varchar";
     rec_table := table_key;
     rec_column := Some (col_name column);
     rec_severity := "low";
     rec_description := "Column " +:+ col_name column +:+ " has large varchar size";
     rec_recommendation := "Consider using TEXT type or reducing size" |}.

(** The columns that the test singles out: varchar or nvarchar, in any
    letter case, with a max length above 1000. *)
Definition oversized (column : ColumnDefinition) : bool :=
  in_list (lower (col_data_type column)) ["varchar"; "nvarchar"]
  && match col_max_length column with
     | Some n => 1000 <? n
     | None => false
     end.

(** The columns on which the test can be evaluated: a varchar or nvarchar
    column has a max length that is not null. *)
Definition comparable (column : ColumnDefinition) : Prop :=
  lower (col_data_type column) ∈ ["varchar"; "nvarchar"] →
  is_Some (col_max_length column).

(** Every varchar and nvarchar column of the snapshot has a max length. *)
Definition snapshot_comparable {Any : Type} (metadata : SchemaSnapshot Any) : Prop :=
  ∀ table_key table_info,
    md_tables metadata !! table_key = Some table_info →
    Forall comparable (tbl_columns table_info).

(** Columns [Notes varchar(4000)], [Code char(5000)] and [Id int]. *)
Definition column_notes_varchar_4000 : ColumnDefinition :=
  mkColumn "Notes" "VARCHAR" (Some 4000) None None true None 2 None.

Definition column_code_char_5000 : ColumnDefinition :=
  mkColumn "Code" "char" (Some 5000) None None true None 2 None.

Definition column_id_int : ColumnDefinition :=
  mkColumn "Id" "int" None (Some 10) (Some 0) false None 1 None.

(** A snapshot that holds one table and nothing else. *)
Definition snapshot_of_table (table_key : string) (table_info : TableDefinition)
    : SchemaSnapshot Empty_set :=
  {| md_tables := {[table_key := table_info]};
     md_views := ∅;
     md_indexes := ∅;
     md_constraints := ∅ |}.

Definition snapshot_varchar : SchemaSnapshot Empty_set :=
  snapshot_of_table "dbo.Customer"
    (mkTable "dbo" "Customer" [column_id_int; column_notes_varchar_4000]).

Definition snapshot_char : SchemaSnapshot Empty_set :=
  snapshot_of_table "dbo.Customer"
    (mkTable "dbo" "Customer" [column_id_int; column_code_char_5000]).

(** ** Orchestrator *)

(** A call that reaches the loader. *)
Definition is_load (e : Event) : Prop :=
  match e with
  | CallLoadData _ _ => True
  | _ => False
  end.

(** The events of one batch of a dry run: the call to the converter, and the
    debug line that counts the batch. *)
Definition dry_batch_events (table_name : string) (batch_num : Z)
    (data_batch : DataFrame) : list Event :=
  [CallConvertBatch data_batch table_name;
   Log (mkLogRecord DEBUG
          ("Processed batch " +:+ pretty (batch_num + 1) +:+ " for " +:+ table_name))].

(** The events of the batches of one table, numbered from [batch_num]. *)
Fixpoint dry_batches_events (table_name : string) (batch_num : Z)
    (batches : list DataFrame) : list Event :=
  match batches with
  | [] => []
  | data_batch :: rest =>
      (dry_batch_events table_name batch_num data_batch
       ++ dry_batches_events table_name (batch_num + 1) rest)%list
  end.

(** The events of one table of a dry run. *)
Definition dry_table_events (extract_data : string → Z → Generator)
    (batch_size : Z) (table_name : string) : list Event :=
  Log (mkLogRecord INFO ("Migrating data for table: " +:+ table_name))
  :: CallExtractData table_name batch_size
  :: dry_batches_events table_name 0 (yielded (extract_data table_name batch_size)).

(** The extractor's generator for a table runs to its end, and what it
    yields are batches (frames with distinct labels). *)
Definition well_behaved (extract_data : string → Z → Generator)
    (batch_size : Z) (table_name : string) : Prop :=
  completes (extract_data table_name batch_size) ∧
  Forall (λ data_batch, NoDup (columns data_batch))
         (yielded (extract_data table_name batch_size)).

(** An extractor that yields one batch for [dbo.Customer]. *)
Definition extract_customer (table_name : string) (batch_size : Z) : Generator :=
  if String.eqb table_name "dbo.Customer" then GenYield batch_customer GenStop
  else GenStop.

(** An extractor whose connection fails on the first read. *)
Definition extract_failing (table_name : string) (batch_size : Z) : Generator :=
  GenRaise (ExtractionError "connection lost").

(** A loader that accepts every batch. *)
Definition load_accepting (table_name : string) (data : DataFrame) : result unit := Ok tt.

(** A converted schema with nothing in it. *)
Definition converted_empty : ConvertedSchema Empty_set :=
  {| cs_tables := ∅; cs_views := ∅; cs_indexes := ∅; cs_constraints := ∅ |}.

(** * More of the program *)

(** ** More Python primitives *)

Module PyText.

(** [c.upper()] for one ASCII character. *)
Definition upper_ascii (c : ascii) : ascii :=
  let n := nat_of_ascii c in
  if ((97 <=? n) && (n <=? 122))%nat then ascii_of_nat (n - 32) else c.

(** [s.upper()] *)
Fixpoint upper (s : string) : string :=
  match s with
  | EmptyString => EmptyString
  | String c s' => String (upper_ascii c) (upper s')
  end.

(** [sep.join(items)] *)
Fixpoint join (sep : string) (items : list string) : string :=
  match items with
  | [] => ""
  | [item] => item
  | item :: rest => item +:+ sep +:+ join sep rest
  end.

End PyText.

(** ** [class CompatibilityAnalyzer] *)

Module CompatibilityAnalyzer.
Import PyText.

(** An entry of [metadata['procedures']]; [rt_definition] is the optional key
    [definition]. *)
Record RoutineDefinition := mkRoutine {
  rt_definition : option string
}.

(** The metadata dictionary with the keys that the converter does not read. *)
Record ExtractedMetadata (Any : Type) := mkExtracted {
  em_schema : SchemaSnapshot Any;
  em_triggers : gmap string RoutineDefinition;
  em_procedures : gmap string RoutineDefinition;
  em_functions : gmap string RoutineDefinition
}.
Arguments mkExtracted {Any}.
Arguments em_schema {Any}.
Arguments em_triggers {Any}.
Arguments em_procedures {Any}.
Arguments em_functions {Any}.

(** An issue about a column. *)
Record DataTypeIssue := mkDataTypeIssue {
  dti_type : string;
  dti_severity : string;
  dti_table : string;
  dti_column : string;
  dti_issue : string;
  dti_action_required : string
}.

(** An issue about a stored procedure. *)
Record FeatureIssue := mkFeatureIssue {
  fi_type : string;
  fi_severity : string;
  fi_object : string;
  fi_feature : string;
  fi_issue : string;
  fi_solution : string
}.

(** An issue about a view; [si_function] is the key [function], which the
    bracket issue does not have. *)
Record SyntaxIssue := mkSyntaxIssue {
  si_type : string;
  si_severity : string;
  si_object : string;
  si_function : option string;
  si_issue : string;
  si_solution : string
}.

Record IssueReport := mkIssueReport {
  issues_data_types : list DataTypeIssue;
  issues_features : list FeatureIssue;
  issues_syntax : list SyntaxIssue;
  issues_functions : list FeatureIssue
}.

(** [_load_incompatible_features], in the order it is written and iterated. *)
Definition _load_incompatible_features : list (string * string) := [
  ("IDENTITY", "Use SERIAL or GENERATED columns instead");
  ("ROWVERSION", "No direct equivalent, consider using timestamps");
  ("CURSOR", "Limited cursor support, consider alternatives");
  ("TRY...CATCH", "Use EXCEPTION blocks instead");
  ("MERGE", "Use INSERT...ON CONFLICT or separate statements");
  ("PIVOT", "Use crosstab() function or manual pivoting");
  ("UNPIVOT", "Use custom functions or restructure data")
].

(** [self.incompatible_features] *)
Definition incompatible_features : list (string * string) := _load_incompatible_features.

(** The body of the inner loop of [_analyze_data_types], for one column. *)
Definition analyze_column (table_key : string) (issues : list DataTypeIssue)
    (column : ColumnDefinition) : list DataTypeIssue :=
  let data_type := lower (col_data_type column) in
  if String.eqb data_type "uniqueidentifier" then
    (issues ++ [{|
       dti_type := "data_type_conversion";
       dti_severity := "medium";
       dti_table := table_key;
       dti_column := col_name column;
       dti_issue := "UNIQUEIDENTIFIER will be converted to UUID";
       dti_action_required := "Verify UUID extension is enabled"
     |}])%list
  else if in_list data_type ["text"; "ntext"] then
    (issues ++ [{|
       dti_type := "deprecated_type";
       dti_severity := "low";
       dti_table := table_key;
       dti_column := col_name column;
       dti_issue := upper data_type +:+ " is deprecated in SQL Server";
       dti_action_required := "Will be converted to TEXT"
     |}])%list
  else issues.

(** [_analyze_data_types] *)
Definition _analyze_data_types {Any} (metadata : ExtractedMetadata Any)
    : list DataTypeIssue :=
  foldl (λ issues '(table_key, table_info),
           foldl (analyze_column table_key) issues (tbl_columns table_info))
        [] (map_to_list (md_tables (em_schema metadata))).

(** The body of the inner loop of [_analyze_features], for one feature. *)
Definition analyze_feature (proc_key definition : string) (issues : list FeatureIssue)
    (entry : string * string) : list FeatureIssue :=
  let '(feature, solution) := entry in
  if contains (lower feature) (lower definition) then
    (issues ++ [{|
       fi_type := "incompatible_feature";
       fi_severity := "high";
       fi_object := proc_key;
       fi_feature := feature;
       fi_issue := "Uses incompatible feature: " +:+ feature;
       fi_solution := solution
     |}])%list
  else issues.

(** [_analyze_features] *)
Definition _analyze_features {Any} (metadata : ExtractedMetadata Any)
    : list FeatureIssue :=
  foldl (λ issues '(proc_key, proc_info),
           let definition := default "" (rt_definition proc_info) in
           foldl (analyze_feature proc_key definition) issues incompatible_features)
        [] (map_to_list (em_procedures metadata)).

(** The list [sql_server_functions] of [_analyze_syntax]. *)
Definition sql_server_functions : list string := ["ISNULL"; "LEN"; "DATEPART"; "DATEDIFF"].

Section WithRegex.

(** [re.search(pattern, text, re.IGNORECASE)] of the standard library, as the
    truth value of its result. *)
Variable re_search_ignorecase : string → string → bool.

(** The body of the inner loop of [_analyze_syntax], for one function name. *)
Definition analyze_function (view_key definition : string) (issues : list SyntaxIssue)
    (func : string) : list SyntaxIssue :=
  if re_search_ignorecase ("\b" +:+ func +:+ "\b") definition then
    (issues ++ [{|
       si_type := "function_conversion";
       si_severity := "medium";
       si_object := view_key;
       si_function := Some func;
       si_issue := "Uses SQL Server specific function: " +:+ func;
       si_solution := "Will be converted to PostgreSQL equivalent"
     |}])%list
  else issues.

(** The body of the outer loop of [_analyze_syntax], for one view. *)
Definition analyze_view (issues : list SyntaxIssue) (entry : string * ViewDefinition)
    : list SyntaxIssue :=
  let '(view_key, view_info) := entry in
  let definition := view_definition view_info in
  let issues :=
    if contains "[" definition && contains "]" definition then
      (issues ++ [{|
         si_type := "syntax_difference";
         si_severity := "low";
         si_object := view_key;
         si_function := None;
         si_issue := "Uses bracket identifiers";
         si_solution := "Will be converted to quoted identifiers"
       |}])%list
    else issues in
  foldl (analyze_function view_key definition) issues sql_server_functions.

(** [_analyze_syntax] *)
Definition _analyze_syntax {Any} (metadata : ExtractedMetadata Any) : list SyntaxIssue :=
  foldl analyze_view [] (map_to_list (md_views (em_schema metadata))).

(** [_analyze_functions] *)
Definition _analyze_functions {Any} (metadata : ExtractedMetadata Any)
    : list FeatureIssue := [].

(** [analyze] *)
Definition analyze {Any} (metadata : ExtractedMetadata Any) : IssueReport :=
  {| issues_data_types := _analyze_data_types metadata;
     issues_features := _analyze_features metadata;
     issues_syntax := _analyze_syntax metadata;
     issues_functions := _analyze_functions metadata |}.

End WithRegex.

End CompatibilityAnalyzer.

(** ** [PerformanceAnalyzer.generate_recommendations] *)

Module PerformanceAdvice.

(** The dictionary returned by [generate_recommendations]. *)
Record TuningAdvice := mkTuningAdvice {
  vacuum_analyze : string;
  statistics : string;
  configuration : list string
}.

(** [_get_config_recommendations] *)
Definition _get_config_recommendations : list string := [
  "Consider increasing shared_buffers to 25% of RAM";
  "Set effective_cache_size to 50-75% of RAM";
  "Tune checkpoint_segments for write-heavy workloads";
  "Consider enabling synchronous_commit = off for better performance (with trade-offs)"
].

(** [generate_recommendations]: the converted schema is not looked at. *)
Definition generate_recommendations {Any} (converted_schema : ConvertedSchema Any)
    : TuningAdvice :=
  {| vacuum_analyze := "Run VACUUM ANALYZE on all tables after migration";
     statistics := "Update table statistics for optimal query planning";
     configuration := _get_config_recommendations |}.

End PerformanceAdvice.

(** ** [class MigrationLogger] *)

Module MigrationLogger.
Import PerformanceAdvice.

(** The value under [data_summary]. *)
Inductive DataSummary :=
| SummaryCounts (table_count view_count index_count : nat)
| SummaryType (type_name : string).

(** The [data] argument of [log_phase]: the metadata, the converted schema, or
    an object of another kind, of which the model keeps the name of its type,
    whether it is a dictionary, and its truth value. *)
Inductive PhaseData (Any : Type) :=
| DataMetadata (metadata : SchemaSnapshot Any)
| DataConverted (converted_schema : ConvertedSchema Any)
| DataOther (type_name : string) (truthy : bool).
Arguments DataMetadata {Any}.
Arguments DataConverted {Any}.
Arguments DataOther {Any}.

(** An entry of [self.audit_data]. *)
Inductive AuditEntry :=
| PhaseEntry (timestamp phase status : string) (data_summary : option DataSummary)
| ErrorEntry (timestamp phase status error : string)
| RecommendationsEntry (timestamp type_ : string) (data : TuningAdvice).

(** The logger: the entries in memory, what the audit file holds ([None]
    before the first write), and the lines sent to [logging]. *)
Record LoggerState := mkLoggerState {
  audit_data : list AuditEntry;
  audit_file : option (list AuditEntry);
  log_lines : list LogRecord
}.

(** [__init__] *)
Definition init : LoggerState :=
  {| audit_data := []; audit_file := None; log_lines := [] |}.

(** Truth value of [data]: a dictionary with keys is true. *)
Definition data_truthy {Any} (data : option (PhaseData Any)) : bool :=
  match data with
  | None => false
  | Some (DataOther _ truthy) => truthy
  | Some _ => true
  end.

(** [_summarize_data] *)
Definition _summarize_data {Any} (data : PhaseData Any) : DataSummary :=
  match data with
  | DataMetadata metadata =>
      SummaryCounts (size (md_tables metadata)) (size (md_views metadata))
                    (size (md_indexes metadata))
  | DataConverted converted_schema =>
      SummaryCounts (size (cs_tables converted_schema)) (size (cs_views converted_schema))
                    (size (cs_indexes converted_schema))
  | DataOther type_name _ => SummaryType type_name
  end.

Section WithFileSystem.

(** Whether opening the audit file for writing and dumping the entries
    succeeds. *)
Variable write_file : list AuditEntry → result unit.

(** [_write_audit_log]: the file is rewritten with all the entries. *)
Definition _write_audit_log (st : LoggerState) : LoggerState * result unit :=
  match write_file (audit_data st) with
  | Ok _ =>
      ({| audit_data := audit_data st;
          audit_file := Some (audit_data st);
          log_lines := log_lines st |}, Ok tt)
  | Raise e => (st, Raise e)
  end.

(** [self.audit_data.append(entry)] *)
Definition append_entry (entry : AuditEntry) (st : LoggerState) : LoggerState :=
  {| audit_data := (audit_data st ++ [entry])%list;
     audit_file := audit_file st;
     log_lines := log_lines st |}.

(** [self.logger.info(msg)], [self.logger.error(msg)] *)
Definition log_line (level : Level) (msg : string) (st : LoggerState) : LoggerState :=
  {| audit_data := audit_data st;
     audit_file := audit_file st;
     log_lines := (log_lines st ++ [mkLogRecord level msg])%list |}.

(** [log_phase]; [now] is the reading [datetime.now().isoformat()]. *)
Definition log_phase {Any} (now phase status : string) (data : option (PhaseData Any))
    (st : LoggerState) : LoggerState * result unit :=
  let entry :=
    PhaseEntry now phase status
               (if data_truthy data then _summarize_data <$> data else None) in
  match _write_audit_log (append_entry entry st) with
  | (st, Ok _) => (log_line INFO ("Phase " +:+ phase +:+ ": " +:+ status) st, Ok tt)
  | (st, Raise e) => (st, Raise e)
  end.

(** [log_error] *)
Definition log_error (now phase error : string) (st : LoggerState)
    : LoggerState * result unit :=
  let entry := ErrorEntry now phase "error" error in
  match _write_audit_log (append_entry entry st) with
  | (st, Ok _) => (log_line ERROR ("Phase " +:+ phase +:+ " failed: " +:+ error) st, Ok tt)
  | (st, Raise e) => (st, Raise e)
  end.

(** [log_recommendations] *)
Definition log_recommendations (now : string) (recommendations : TuningAdvice)
    (st : LoggerState) : LoggerState * result unit :=
  let entry := RecommendationsEntry now "recommendations" recommendations in
  _write_audit_log (append_entry entry st).

(** A call to one of the three public methods. *)
Inductive LoggerCall (Any : Type) :=
| CallPhase (now phase status : string) (data : option (PhaseData Any))
| CallError (now phase error : string)
| CallRecommendations (now : string) (recommendations : TuningAdvice).
Arguments CallPhase {Any}.
Arguments CallError {Any}.
Arguments CallRecommendations {Any}.

Definition perform {Any} (call : LoggerCall Any) (st : LoggerState)
    : LoggerState * result unit :=
  match call with
  | CallPhase now phase status data => log_phase now phase status data st
  | CallError now phase error => log_error now phase error st
  | CallRecommendations now recommendations => log_recommendations now recommendations st
  end.

(** A sequence of calls, each on the state left by the one before, up to the
    first that raises. *)
Fixpoint perform_all {Any} (calls : list (LoggerCall Any)) (st : LoggerState)
    : LoggerState * result unit :=
  match calls with
  | [] => (st, Ok tt)
  | call :: rest =>
      match perform call st with
      | (st, Ok _) => perform_all rest st
      | (st, Raise e) => (st, Raise e)
      end
  end.

End WithFileSystem.

End MigrationLogger.

(** ** [class PostgreSQLLoader] *)

Module PostgreSQLLoader.
Import PyText.

(** The newline character, as a one-character string. *)
Definition nl : string := String (ascii_of_nat 10) EmptyString.

(** The column definition that the loop of [_generate_table_ddl] builds. *)
Definition column_definition (column : ConvertedColumn) : string :=
  let col_def := dquote +:+ cc_name column +:+ dquote +:+ " " +:+ cc_data_type column in
  let col_def := if negb (cc_is_nullable column) then col_def +:+ " NOT NULL" else col_def in
  let col_def :=
    if truthy_str (cc_default_value column)
    then col_def +:+ " DEFAULT " +:+ default "" (cc_default_value column)
    else col_def in
  col_def.

(** [_generate_table_ddl] *)
Definition _generate_table_ddl (table_info : ConvertedTable) : string :=
  let schema := ct_schema table_info in
  let table_name := ct_name table_info in
  let columns := ct_columns table_info in
  let ddl_parts := ["CREATE SCHEMA IF NOT EXISTS " +:+ schema +:+ ";"] in
  let column_definitions := column_definition <$> columns in
  let table_ddl :=
    nl +:+ "        CREATE TABLE " +:+ schema +:+ "." +:+ table_name +:+ " (" +:+ nl
       +:+ "            " +:+ join "," column_definitions +:+ nl
       +:+ "        );" +:+ nl
       +:+ "        " in
  join nl (ddl_parts ++ [table_ddl])%list.

(** [_generate_view_ddl] *)
Definition _generate_view_ddl (view_info : ConvertedView) : string :=
  let schema := cv_schema view_info in
  let view_name := cv_name view_info in
  let definition := cv_definition view_info in
  "CREATE VIEW " +:+ schema +:+ "." +:+ view_name +:+ " AS " +:+ definition +:+ ";".

(** [_generate_index_ddl] *)
Definition _generate_index_ddl (index_info : ConvertedIndex) : string :=
  let unique_clause := if ci_is_unique index_info then "UNIQUE " else "" in
  let column_list := join ", " (ic_name <$> ci_columns index_info) in
  nl +:+ "        CREATE " +:+ unique_clause +:+ "INDEX " +:+ ci_name index_info +:+ " " +:+ nl
     +:+ "        ON " +:+ ci_table index_info +:+ " (" +:+ column_list +:+ ");" +:+ nl
     +:+ "        ".

(** What the loader does that can be observed: the calls on the connection
    and the engine, and the log. *)
Inductive DbEvent :=
| DbConnect
| DbExecute (ddl : string)
| DbCommit
| DbRollback
| DbToSql (table_name : string) (data : DataFrame)
| DbLog (record : LogRecord).

(** The target database: whether each call raises. *)
Record Database := mkDatabase {
  db_connect : result unit;
  db_execute : string → result unit;
  db_commit : result unit;
  db_rollback : result unit;
  db_to_sql : string → DataFrame → result unit
}.

(** The loader's fields: [self.connection] and [self.engine] are set. *)
Record LoaderState := mkLoaderState {
  connection : bool;
  engine : bool
}.

(** [__init__] *)
Definition init : LoaderState := {| connection := false; engine := false |}.

(** A method of the loader: from the fields, the events, the fields
    afterwards, and the value or the exception. *)
Definition Db (A : Type) : Type := LoaderState → list DbEvent * LoaderState * result A.

#[export] Instance Db_ret : MRet Db := λ A a st, ([], st, Ok a).
#[export] Instance Db_bind : MBind Db := λ A B f m st,
  match m st with
  | (events, st, Ok a) =>
      let '(events', st, r) := f a st in ((events ++ events')%list, st, r)
  | (events, st, Raise e) => (events, st, Raise e)
  end.

(** [try: body  except Exception as e: handler(e)] *)
Definition try_except {A} (body : Db A) (handler : Exn → Db A) : Db A := λ st,
  match body st with
  | (events, st, Ok a) => (events, st, Ok a)
  | (events, st, Raise e) =>
      let '(events', st, r) := handler e st in ((events ++ events')%list, st, r)
  end.

Definition call (event : DbEvent) (outcome : result unit) : Db unit :=
  λ st, ([event], st, outcome).
Definition raise {A} (e : Exn) : Db A := λ st, ([], st, Raise e).
Definition info (msg : string) : Db unit :=
  λ st, ([DbLog (mkLogRecord INFO msg)], st, Ok tt).

(** [for key, item in items: body(key, item)] *)
Fixpoint for_items {A} (body : string → A → Db unit) (items : list (string * A)) : Db unit :=
  match items with
  | [] => mret tt
  | (key, item) :: rest => body key item;; for_items body rest
  end.

Section WithDatabase.

Variable db : Database.

(** [connect]: connects, and creates the engine, when there is no connection
    yet. *)
Definition connect : Db unit := λ st,
  if connection st then ([], st, Ok tt)
  else
    match db_connect db with
    | Ok _ => ([DbConnect], {| connection := true; engine := true |}, Ok tt)
    | Raise e => ([DbConnect], st, Raise e)
    end.

(** [create_schema] *)
Definition create_schema {Any} (schema_metadata : ConvertedSchema Any) : Db unit :=
  connect;;
  try_except
    (for_items (λ table_key table_info,
                  let ddl := _generate_table_ddl table_info in
                  info ("Creating table: " +:+ table_key);;
                  call (DbExecute ddl) (db_execute db ddl))
               (map_to_list (cs_tables schema_metadata));;
     for_items (λ view_key view_info,
                  let ddl := _generate_view_ddl view_info in
                  info ("Creating view: " +:+ view_key);;
                  call (DbExecute ddl) (db_execute db ddl))
               (map_to_list (cs_views schema_metadata));;
     call DbCommit (db_commit db))
    (λ e, call DbRollback (db_rollback db);; raise e).

(** [create_indexes_constraints] *)
Definition create_indexes_constraints {Any} (schema_metadata : ConvertedSchema Any)
    : Db unit :=
  connect;;
  try_except
    (for_items (λ index_key index_info,
                  let ddl := _generate_index_ddl index_info in
                  info ("Creating index: " +:+ index_key);;
                  call (DbExecute ddl) (db_execute db ddl))
               (map_to_list (cs_indexes schema_metadata));;
     call DbCommit (db_commit db))
    (λ e, call DbRollback (db_rollback db);; raise e).

(** [load_data] *)
Definition load_data (table_name : string) (data : DataFrame) : Db unit :=
  (λ st, if engine st then ([], st, Ok tt) else connect st);;
  call (DbToSql table_name data) (db_to_sql db table_name data).

End WithDatabase.

End PostgreSQLLoader.

(** ** [class MigrationOrchestrator]: the six phases *)

Module MigrationPhases.
Import PerformanceAdvice MigrationLogger.

(** What a migration does that can be observed: its own log, the calls on the
    extractor, the loader and the audit trail, and the events of the data
    phase.  [EvAuditError] carries the exception of which [log_error] is given
    the text. *)
Inductive PhaseEvent (Any : Type) :=
| EvLog (record : LogRecord)
| EvExtractMetadata
| EvAuditPhase (phase status : string) (data : option (PhaseData Any))
| EvAuditError (phase : string) (e : Exn)
| EvAuditRecommendations (recommendations : TuningAdvice)
| EvCreateSchema (converted_schema : ConvertedSchema Any)
| EvCreateIndexesConstraints (converted_schema : ConvertedSchema Any)
| EvData (event : MigrationOrchestrator.Event).
Arguments EvLog {Any}.
Arguments EvExtractMetadata {Any}.
Arguments EvAuditPhase {Any}.
Arguments EvAuditError {Any}.
Arguments EvAuditRecommendations {Any}.
Arguments EvCreateSchema {Any}.
Arguments EvCreateIndexesConstraints {Any}.
Arguments EvData {Any}.

(** The components that the orchestrator drives: whether each of their calls
    raises, and what the extractor returns. *)
Record Components (Any : Type) := mkComponents {
  extract_metadata : result (SchemaSnapshot Any);
  extract_data : string → Z → Generator;
  create_schema : ConvertedSchema Any → result unit;
  load_data : string → DataFrame → result unit;
  create_indexes_constraints : ConvertedSchema Any → result unit;
  log_phase : string → string → option (PhaseData Any) → result unit;
  log_error : string → Exn → result unit;
  log_recommendations : TuningAdvice → result unit;
  re_sub_ignorecase : string → string → string → string
}.
Arguments extract_metadata {Any}.
Arguments extract_data {Any}.
Arguments create_schema {Any}.
Arguments load_data {Any}.
Arguments create_indexes_constraints {Any}.
Arguments log_phase {Any}.
Arguments log_error {Any}.
Arguments log_recommendations {Any}.
Arguments re_sub_ignorecase {Any}.

Section Phases.

Context {Any : Type}.

(** A step of a migration: the events so far and the value or the
    exception. *)
Definition Steps (A : Type) : Type := list (PhaseEvent Any) * result A.

#[export] Instance Steps_ret : MRet Steps := λ A a, ([], Ok a).
#[export] Instance Steps_bind : MBind Steps := λ A B f m,
  match m with
  | (events, Ok a) => let '(events', r) := f a in ((events ++ events')%list, r)
  | (events, Raise e) => (events, Raise e)
  end.

(** [try: body  except Exception as e: handler(e)] *)
Definition try_except {A} (body : Steps A) (handler : Exn → Steps A) : Steps A :=
  match body with
  | (events, Ok a) => (events, Ok a)
  | (events, Raise e) => let '(events', r) := handler e in ((events ++ events')%list, r)
  end.

Definition call {A} (event : PhaseEvent Any) (outcome : result A) : Steps A :=
  ([event], outcome).
Definition raise {A} (e : Exn) : Steps A := ([], Raise e).
Definition info (msg : string) : Steps unit := ([EvLog (mkLogRecord INFO msg)], Ok tt).

(** [self.schema_converter.convert(metadata)], with what it logs. *)
Definition call_convert (re_sub : string → string → string → string)
    (metadata : SchemaSnapshot Any) : Steps (ConvertedSchema Any) :=
  let '(converted_schema, log) := convert re_sub metadata in
  (EvLog <$> log, Ok converted_schema).

(** [self._migrate_data(metadata, converted_schema)] *)
Definition call_migrate_data (run : Run unit) : Steps unit :=
  (EvData <$> run.1, run.2).

Variable config_batch_size : option Z.
Variable dry_run : bool.
Variable components : Components Any.

(** The body of the [try] block of [migrate]. *)
Definition phases : Steps unit :=
  info "Phase 1: Extracting metadata from SQL Server";;
  metadata ← call EvExtractMetadata (extract_metadata components);
  call (EvAuditPhase "metadata_extraction" "completed" (Some (DataMetadata metadata)))
       (log_phase components "metadata_extraction" "completed"
                  (Some (DataMetadata metadata)));;
  info "Phase 2: Converting schema";;
  converted_schema ← call_convert (re_sub_ignorecase components) metadata;
  call (EvAuditPhase "schema_conversion" "completed"
                     (Some (DataConverted converted_schema)))
       (log_phase components "schema_conversion" "completed"
                  (Some (DataConverted converted_schema)));;
  (if negb dry_run then
     info "Phase 3: Creating target schema";;
     call (EvCreateSchema converted_schema) (create_schema components converted_schema);;
     call (EvAuditPhase "schema_creation" "completed" None)
          (log_phase components "schema_creation" "completed" None)
   else mret tt);;
  info "Phase 4: Migrating data";;
  call_migrate_data
    (_migrate_data config_batch_size dry_run (extract_data components)
                   (load_data components) metadata converted_schema);;
  info "Phase 5: Creating indexes and constraints";;
  (if negb dry_run then
     call (EvCreateIndexesConstraints converted_schema)
          (create_indexes_constraints components converted_schema);;
     call (EvAuditPhase "indexes_constraints" "completed" None)
          (log_phase components "indexes_constraints" "completed" None)
   else mret tt);;
  info "Phase 6: Generating performance recommendations";;
  let perf_recommendations := generate_recommendations converted_schema in
  call (EvAuditRecommendations perf_recommendations)
       (log_recommendations components perf_recommendations).

(** [migrate] *)
Definition migrate : Steps unit :=
  info "Starting migration process";;
  try_except phases
    (λ e, call (EvAuditError "migration_failed" e)
               (log_error components "migration_failed" e);;
          raise e).

End Phases.

End MigrationPhases.

(** ** [class SqlServerExtractor] *)

Module SqlServerExtractor.
Import CompatibilityAnalyzer.

(** A row of the query of [_extract_tables]. *)
Record TableRow := mkTableRow {
  TABLE_SCHEMA : string;
  TABLE_NAME : string;
  COLUMN_NAME : string;
  DATA_TYPE : string;
  CHARACTER_MAXIMUM_LENGTH : option Z;
  NUMERIC_PRECISION : option Z;
  NUMERIC_SCALE : option Z;
  IS_NULLABLE : string;
  COLUMN_DEFAULT : option string;
  ORDINAL_POSITION : Z
}.

(** A row of the query of [_extract_views]. *)
Record ViewRow := mkViewRow {
  VIEW_TABLE_SCHEMA : string;
  VIEW_TABLE_NAME : string;
  VIEW_DEFINITION : string
}.

(** A row of the query of [_extract_indexes]. *)
Record IndexRow := mkIndexRow {
  index_name : string;
  table_name : string;
  type_desc : string;
  is_unique : bool;
  is_primary_key : bool;
  column_name : string;
  key_ordinal : Z;
  is_descending_key : bool
}.

(** [f"{row.TABLE_SCHEMA}.{row.TABLE_NAME}"] *)
Definition schema_table (row : TableRow) : string :=
  TABLE_SCHEMA row +:+ "." +:+ TABLE_NAME row.

(** The dictionary [column_info] of a row; it has no key [is_primary_key]. *)
Definition column_info (row : TableRow) : ColumnDefinition :=
  {| col_name := COLUMN_NAME row;
     col_data_type := DATA_TYPE row;
     col_max_length := CHARACTER_MAXIMUM_LENGTH row;
     col_precision := NUMERIC_PRECISION row;
     col_scale := NUMERIC_SCALE row;
     col_is_nullable := String.eqb (IS_NULLABLE row) "YES";
     col_default_value := COLUMN_DEFAULT row;
     col_ordinal_position := ORDINAL_POSITION row;
     col_is_primary_key := None |}.

(** [tables[key]['columns'].append(column)] *)
Definition append_column (column : ColumnDefinition) (table_info : TableDefinition)
    : TableDefinition :=
  {| tbl_schema := tbl_schema table_info;
     tbl_name := tbl_name table_info;
     tbl_columns := (tbl_columns table_info ++ [column])%list |}.

(** The body of the loop of [_extract_tables]. *)
Definition extract_table_row (tables : gmap string TableDefinition) (row : TableRow)
    : gmap string TableDefinition :=
  let tables :=
    match tables !! schema_table row with
    | None => <[schema_table row := mkTable (TABLE_SCHEMA row) (TABLE_NAME row) []]> tables
    | Some _ => tables
    end in
  alter (append_column (column_info row)) (schema_table row) tables.

(** [_extract_tables], from the rows that [cursor.fetchall()] returned. *)
Definition _extract_tables (rows : list TableRow) : gmap string TableDefinition :=
  foldl extract_table_row ∅ rows.

(** [_extract_views], from the fetched rows. *)
Definition _extract_views (rows : list ViewRow) : gmap string ViewDefinition :=
  foldl (λ views row,
           <[VIEW_TABLE_SCHEMA row +:+ "." +:+ VIEW_TABLE_NAME row :=
               mkView (VIEW_TABLE_SCHEMA row) (VIEW_TABLE_NAME row) (VIEW_DEFINITION row)]>
             views)
        ∅ rows.

(** [f"{row.table_name}.{row.index_name}"] *)
Definition index_key (row : IndexRow) : string :=
  table_name row +:+ "." +:+ index_name row.

Definition index_column (row : IndexRow) : IndexColumn :=
  {| ic_name := column_name row;
     ic_ordinal := key_ordinal row;
     ic_descending := is_descending_key row |}.

(** [indexes[key]['columns'].append(column)] *)
Definition append_index_column (column : IndexColumn) (index_info : IndexDefinition)
    : IndexDefinition :=
  {| idx_name := idx_name index_info;
     idx_table := idx_table index_info;
     idx_type := idx_type index_info;
     idx_is_unique := idx_is_unique index_info;
     idx_is_primary_key := idx_is_primary_key index_info;
     idx_columns := (idx_columns index_info ++ [column])%list |}.

(** The body of the loop of [_extract_indexes]. *)
Definition extract_index_row (indexes : gmap string IndexDefinition) (row : IndexRow)
    : gmap string IndexDefinition :=
  let indexes :=
    match indexes !! index_key row with
    | None =>
        <[index_key row := mkIndex (index_name row) (table_name row) (type_desc row)
                                   (is_unique row) (is_primary_key row) []]> indexes
    | Some _ => indexes
    end in
  alter (append_index_column (index_column row)) (index_key row) indexes.

(** [_extract_indexes], from the fetched rows. *)
Definition _extract_indexes (rows : list IndexRow) : gmap string IndexDefinition :=
  foldl extract_index_row ∅ rows.

(** [_extract_constraints] *)
Definition _extract_constraints {Any} : gmap string Any := ∅.

(** [_extract_triggers], [_extract_procedures] and [_extract_functions] *)
Definition _extract_triggers : gmap string RoutineDefinition := ∅.
Definition _extract_procedures : gmap string RoutineDefinition := ∅.
Definition _extract_functions : gmap string RoutineDefinition := ∅.

(** A cursor, as far as the extractor uses it: what [execute] and [fetchall]
    give for each of the three queries. *)
Record Cursor := mkCursor {
  fetch_tables : result (list TableRow);
  fetch_views : result (list ViewRow);
  fetch_indexes : result (list IndexRow)
}.

(** A connection: its cursor, and what [pd.read_sql_query] gives on it for the
    count of a table and for a batch. *)
Record Connection := mkConnection {
  cursor : result Cursor;
  read_count : string → result Z;
  read_sql_query : string → result DataFrame
}.

(** [connect], on the attribute [self.connection]; [pyodbc_connect] is the
    outcome of [pyodbc.connect]. *)
Definition connect (pyodbc_connect : result Connection)
    (self_connection : option Connection) : option Connection * result Connection :=
  match self_connection with
  | None =>
      match pyodbc_connect with
      | Ok conn => (Some conn, Ok conn)
      | Raise e => (None, Raise e)
      end
  | Some conn => (Some conn, Ok conn)
  end.

(** [extract_metadata] *)
Definition extract_metadata {Any} (pyodbc_connect : result Connection)
    (self_connection : option Connection)
    : option Connection * result (ExtractedMetadata Any) :=
  let '(self_connection, conn) := connect pyodbc_connect self_connection in
  (self_connection,
   conn ← conn;
   cursor ← cursor conn;
   table_rows ← fetch_tables cursor;
   view_rows ← fetch_views cursor;
   index_rows ← fetch_indexes cursor;
   mret {| em_schema :=
             {| md_tables := _extract_tables table_rows;
                md_views := _extract_views view_rows;
                md_indexes := _extract_indexes index_rows;
                md_constraints := _extract_constraints |};
           em_triggers := _extract_triggers;
           em_procedures := _extract_procedures;
           em_functions := _extract_functions |}).

(** The text of the count query of [extract_data]. *)
Definition count_query (table_name : string) : string :=
  "SELECT COUNT(" +:+ "*" +:+ ") FROM " +:+ table_name.

(** Twelve spaces, the indentation of the batch query. *)
Definition indent : string := "            ".

(** The text of the batch query of [extract_data]. *)
Definition batch_query (table_name : string) (offset batch_size : Z) : string :=
  PostgreSQLLoader.nl +:+ indent +:+ "SELECT * FROM " +:+ table_name +:+
  PostgreSQLLoader.nl +:+ indent +:+ "ORDER BY (SELECT NULL)" +:+
  PostgreSQLLoader.nl +:+ indent +:+ "OFFSET " +:+ pretty offset +:+ " ROWS" +:+
  PostgreSQLLoader.nl +:+ indent +:+ "FETCH NEXT " +:+ pretty batch_size +:+ " ROWS ONLY" +:+
  PostgreSQLLoader.nl +:+ indent.

(** What the generator of [extract_data] does when it is run to its end: it
    yields a batch and, when resumed, logs and goes on; it stops; or it
    raises. *)
Inductive Batches :=
| BatchesStop
| BatchesYield (batch_df : DataFrame) (debug : LogRecord) (rest : Batches)
| BatchesRaise (e : Exn).

(** The generator as its consumer sees it. *)
Fixpoint generator (batches : Batches) : Generator :=
  match batches with
  | BatchesStop => GenStop
  | BatchesYield batch_df _ rest => GenYield batch_df (generator rest)
  | BatchesRaise e => GenRaise e
  end.

(** The message logged after a batch; [offset] is the offset after the
    increment. *)
Definition extracted_message (table_name : string) (offset total_rows : Z) : LogRecord :=
  mkLogRecord DEBUG
    ("Extracted " +:+ pretty (Z.min offset total_rows) +:+ "/" +:+ pretty total_rows
     +:+ " rows from " +:+ table_name).

(** The [while] loop of [extract_data]; [None] when [fuel] iterations were
    not enough to leave it. *)
Fixpoint extract_batches (fuel : nat) (conn : Connection) (table_name : string)
    (batch_size total_rows offset : Z) : option Batches :=
  if offset <? total_rows then
    match fuel with
    | O => None
    | S fuel =>
        match read_sql_query conn (batch_query table_name offset batch_size) with
        | Ok batch_df =>
            let offset := offset + batch_size in
            rest ← extract_batches fuel conn table_name batch_size total_rows offset;
            Some (BatchesYield batch_df (extracted_message table_name offset total_rows) rest)
        | Raise e => Some (BatchesRaise e)
        end
    end
  else Some BatchesStop.

(** [extract_data], run to its end. *)
Definition extract_data (fuel : nat) (pyodbc_connect : result Connection)
    (self_connection : option Connection) (table_name : string) (batch_size : Z)
    : option Connection * option Batches :=
  let '(self_connection, conn) := connect pyodbc_connect self_connection in
  (self_connection,
   match conn with
   | Ok conn =>
       match read_count conn (count_query table_name) with
       | Ok total_rows => extract_batches fuel conn table_name batch_size total_rows 0
       | Raise e => Some (BatchesRaise e)
       end
   | Raise e => Some (BatchesRaise e)
   end).

End SqlServerExtractor.

(** ** [class ConfigLoader] *)

Module ConfigLoader.

(** A key of a mapping of the configuration file. *)
Inductive YamlKey :=
| KeyStr (s : string)
| KeyInt (n : Z)
| KeyBool (b : bool)
| KeyNull.

(** What [yaml.safe_load] returns: a scalar, a list, or a dictionary, given
    by its items in the order of the file.  [YamlOther] stands for the
    scalars that are neither of these nor iterable: floats and timestamps. *)
Unset Elimination Schemes.
Inductive Yaml :=
| YamlNull
| YamlBool (b : bool)
| YamlInt (n : Z)
| YamlOther
| YamlStr (s : string)
| YamlSeq (items : list Yaml)
| YamlMap (items : list (YamlKey * Yaml)).
Set Elimination Schemes.

Inductive ConfigError :=
| ValueError (msg : string)
| ConfigTypeError
| ConfigKeyError (key : string).

Inductive checked (A : Type) : Type :=
| Passed (a : A)
| Failed (e : ConfigError).
Arguments Passed {A} a.
Arguments Failed {A} e.

#[export] Instance checked_ret : MRet checked := λ A a, Passed a.
#[export] Instance checked_bind : MBind checked := λ A B f m,
  match m with
  | Passed a => f a
  | Failed e => Failed e
  end.

(** [key == name] for a string [name]. *)
Definition key_is (name : string) (key : YamlKey) : bool :=
  match key with
  | KeyStr s => String.eqb s name
  | _ => false
  end.

(** [item == name] for a string [name]. *)
Definition item_is (name : string) (item : Yaml) : bool :=
  match item with
  | YamlStr s => String.eqb s name
  | _ => false
  end.

(** [name in container]: a key of a dictionary, a part of a string, an item
    of a list; the other values are not iterable. *)
Definition py_in (name : string) (container : Yaml) : checked bool :=
  match container with
  | YamlMap items => Passed (existsb (λ item, key_is name item.1) items)
  | YamlStr s => Passed (contains name s)
  | YamlSeq items => Passed (existsb (item_is name) items)
  | YamlNull | YamlBool _ | YamlInt _ | YamlOther => Failed ConfigTypeError
  end.

(** [container[name]] for a string [name]. *)
Definition getitem (container : Yaml) (name : string) : checked Yaml :=
  match container with
  | YamlMap items =>
      match find (λ item, key_is name item.1) items with
      | Some item => Passed item.2
      | None => Failed (ConfigKeyError name)
      end
  | _ => Failed ConfigTypeError
  end.

(** [for name in names: if name not in container(): raise ValueError(...)],
    where the container is looked up anew for each name. *)
Fixpoint require (message : string) (container : checked Yaml) (names : list string)
    : checked unit :=
  match names with
  | [] => Passed tt
  | name :: rest =>
      container' ← container;
      present ← py_in name container';
      if negb present then Failed (ValueError (message +:+ name))
      else require message container rest
  end.

Definition required_sections : list string := ["source"; "target"].
Definition source_required : list string := ["server"; "database"; "username"; "password"].
Definition target_required : list string := ["host"; "database"; "username"; "password"].

(** [_validate_config] *)
Definition _validate_config (config : Yaml) : checked unit :=
  require "Required configuration section missing: " (Passed config) required_sections;;
  require "Required source field missing: " (getitem config "source") source_required;;
  require "Required target field missing: " (getitem config "target") target_required.

(** [load], given whether the file exists and what [yaml.safe_load] makes of
    it. *)
Inductive LoadError :=
| FileNotFoundError (msg : string)
| YamlError
| Invalid (e : ConfigError).

Definition load (exists_ : bool) (safe_load : option Yaml) (config_path : string)
    : LoadError + Yaml :=
  if negb exists_ then inl (FileNotFoundError ("Configuration file not found: " +:+ config_path))
  else
    match safe_load with
    | None => inl YamlError
    | Some config =>
        match _validate_config config with
        | Passed _ => inr config
        | Failed e => inl (Invalid e)
        end
    end.

End ConfigLoader.

(** * Further vocabulary *)

(** ** Schema converter *)

(** The character types and the decimal types of [_convert_column]. *)
Definition character_types : list string := ["varchar"; "nvarchar"; "char"; "nchar"].
Definition decimal_types : list string := ["decimal"; "numeric"].

(** An [nvarchar(50)] column and a [varbinary(max)] column. *)
Definition column_nvarchar_50 : ColumnDefinition :=
  mkColumn "Name" "nvarchar" (Some 50) None None true None 2 None.

Definition column_varbinary_max : ColumnDefinition :=
  mkColumn "Photo" "VarBinary" (Some (-1)) None None true None 6 None.

(** The first character of a string. *)
Definition first_char (s : string) : option ascii :=
  match s with
  | EmptyString => None
  | String c _ => Some c
  end.

(** The table [dbo.Customer] of the specification's example, with a column of
    a type that the mapping does not know. *)
Definition table_customer : TableDefinition :=
  mkTable "dbo" "Customer" [
    mkColumn "Id" "int" None (Some 10) (Some 0) false None 1 (Some true);
    mkColumn "Name" "nvarchar" (Some 50) None None true None 2 None;
    mkColumn "Created" "datetime" None None None true (Some "(getdate())") 3 None;
    mkColumn "Location" "Geography" (Some (-1)) None None true None 4 None
  ].

(** A view over it. *)
Definition view_customer_names : ViewDefinition :=
  mkView "dbo" "CustomerNames" "SELECT [Name] FROM [Customer]".

(** A snapshot with this table, this view and the indexes of [Customer]. *)
Definition snapshot_customer : SchemaSnapshot Empty_set :=
  {| md_tables := {["dbo.Customer" := table_customer]};
     md_views := {["dbo.CustomerNames" := view_customer_names]};
     md_indexes := indexes_customer;
     md_constraints := ∅ |}.

(** A stand-in for [re.sub] that rewrites nothing. *)
Definition re_sub_nothing (pattern replacement text : string) : string := text.

(** ** Performance analyzer *)

(** A table has a column whose [is_primary_key] entry is present and true. *)
Definition has_primary_key_column (table_info : TableDefinition) : bool :=
  existsb (λ col, default false (col_is_primary_key col)) (tbl_columns table_info).

(** The recommendation of [_analyze_indexing] for a table. *)
Definition missing_primary_key_recommendation (table_key : string) : Recommendation :=
  {| rec_type := "missing_primary_key";
     rec_table := table_key;
     rec_column := None;
     rec_severity := "high";
     rec_description := "Table " +:+ table_key +:+ " lacks a primary key";
     rec_recommendation := "Add a primary key or unique identifier column" |}.

(** The date columns of a table, in column order. *)
Definition date_columns (table_info : TableDefinition) : list ColumnDefinition :=
  filter (λ col, lower (col_data_type col) ∈ ["datetime"; "datetime2"; "date"])
         (tbl_columns table_info).

(** The recommendation of [_analyze_partitioning] for a table whose first
    date column is [first]. *)
Definition partitioning_recommendation (table_key : string) (first : ColumnDefinition)
    : Recommendation :=
  {| rec_type := "partitioning_opportunity";
     rec_table := table_key;
     rec_column := None;
     rec_severity := "medium";
     rec_description :=
       "Table " +:+ table_key +:+ " has date columns suitable for partitioning";
     rec_recommendation := "Consider partitioning by " +:+ col_name first |}.

(** A table whose primary key is known from the index list only: no column
    carries the [is_primary_key] entry. *)
Definition table_orders : TableDefinition :=
  mkTable "dbo" "Orders" [
    mkColumn "OrderId" "int" None (Some 10) (Some 0) false None 1 None;
    mkColumn "Placed" "smalldatetime" None None None false None 2 None;
    mkColumn "Shipped" "DateTime2" None None None true None 3 None;
    mkColumn "Due" "date" None None None true None 4 None
  ].

Definition snapshot_orders : SchemaSnapshot Empty_set :=
  {| md_tables := {["dbo.Orders" := table_orders]};
     md_views := ∅;
     md_indexes :=
       {["Orders.PK_Orders" :=
           mkIndex "PK_Orders" "Orders" "CLUSTERED" true true
                   [mkIndexColumn "OrderId" 1 false]]};
     md_constraints := ∅ |}.

(** ** Orchestrator *)

(** In a list of events every call to the loader comes right after the call
    to the converter that produced the data it carries. *)
Definition loads_follow_conversions (events : list Event) : Prop :=
  ∀ table_name data,
    CallLoadData table_name data ∈ events →
    ∃ before after data_batch,
      events = (before ++ CallConvertBatch data_batch table_name
                       :: CallLoadData table_name data :: after)%list ∧
      DataConverter.convert_batch data_batch table_name = Ok data.

(** In a run, a call to the loader that raises is the last event, and the run
    ends with that exception. *)
Definition load_failure_is_final {A : Type}
    (load_data : string → DataFrame → result unit) (run : Run A) : Prop :=
  ∀ i table_name data e,
    run.1 !! i = Some (CallLoadData table_name data) →
    load_data table_name data = Raise e →
    run.2 = Raise e ∧ length run.1 = S i.

(** The events of one batch of a run that loads. *)
Definition real_batch_events (table_name : string) (batch_num : Z)
    (data_batch : DataFrame) : list Event :=
  [CallConvertBatch data_batch table_name;
   CallLoadData table_name (converted_frame data_batch);
   Log (mkLogRecord DEBUG
          ("Processed batch " +:+ pretty (batch_num + 1) +:+ " for " +:+ table_name))].

Fixpoint real_batches_events (table_name : string) (batch_num : Z)
    (batches : list DataFrame) : list Event :=
  match batches with
  | [] => []
  | data_batch :: rest =>
      (real_batch_events table_name batch_num data_batch
       ++ real_batches_events table_name (batch_num + 1) rest)%list
  end.

Definition real_table_events (extract_data : string → Z → Generator)
    (batch_size : Z) (table_name : string) : list Event :=
  Log (mkLogRecord INFO ("Migrating data for table: " +:+ table_name))
  :: CallExtractData table_name batch_size
  :: real_batches_events table_name 0 (yielded (extract_data table_name batch_size)).

(** A loader that refuses every batch. *)
Definition load_refusing (table_name : string) (data : DataFrame) : result unit :=
  Raise (LoadError "constraint violated").

(** ** Compatibility analyzer *)

Section CompatibilityVocabulary.
Import PyText CompatibilityAnalyzer.

(** The issue reported for a [uniqueidentifier] column. *)
Definition uuid_issue (table_key : string) (column : ColumnDefinition) : DataTypeIssue :=
  {| dti_type := "data_type_conversion";
     dti_severity := "medium";
     dti_table := table_key;
     dti_column := col_name column;
     dti_issue := "UNIQUEIDENTIFIER will be converted to UUID";
     dti_action_required := "Verify UUID extension is enabled" |}.

(** The issue reported for a [text] or [ntext] column. *)
Definition deprecated_issue (table_key : string) (column : ColumnDefinition)
    : DataTypeIssue :=
  {| dti_type := "deprecated_type";
     dti_severity := "low";
     dti_table := table_key;
     dti_column := col_name column;
     dti_issue := upper (lower (col_data_type column)) +:+ " is deprecated in SQL Server";
     dti_action_required := "Will be converted to TEXT" |}.

(** The issues that one column contributes. *)
Definition column_issues (table_key : string) (column : ColumnDefinition)
    : list DataTypeIssue :=
  if String.eqb (lower (col_data_type column)) "uniqueidentifier"
  then [uuid_issue table_key column]
  else if in_list (lower (col_data_type column)) ["text"; "ntext"]
  then [deprecated_issue table_key column]
  else [].

(** The issue reported for a procedure that uses a feature. *)
Definition feature_issue (proc_key feature solution : string) : FeatureIssue :=
  {| fi_type := "incompatible_feature";
     fi_severity := "high";
     fi_object := proc_key;
     fi_feature := feature;
     fi_issue := "Uses incompatible feature: " +:+ feature;
     fi_solution := solution |}.

(** The text in which the features of a procedure are looked for. *)
Definition routine_text (proc_info : RoutineDefinition) : string :=
  lower (default "" (rt_definition proc_info)).

(** The issues that one feature contributes for a procedure. *)
Definition feature_issues (proc_key definition : string) (entry : string * string)
    : list FeatureIssue :=
  if contains (lower entry.1) (lower definition)
  then [feature_issue proc_key entry.1 entry.2]
  else [].

(** Metadata with one table, and metadata with one procedure. *)
Definition extracted_of_table (table_key : string) (table_info : TableDefinition)
    : ExtractedMetadata Empty_set :=
  {| em_schema := snapshot_of_table table_key table_info;
     em_triggers := ∅;
     em_procedures := ∅;
     em_functions := ∅ |}.

Definition extracted_of_procedure (proc_key definition : string)
    : ExtractedMetadata Empty_set :=
  {| em_schema := {| md_tables := ∅; md_views := ∅; md_indexes := ∅; md_constraints := ∅ |};
     em_triggers := ∅;
     em_procedures := {[proc_key := mkRoutine (Some definition)]};
     em_functions := ∅ |}.

(** A table with a [uniqueidentifier] column and an [ntext] column. *)
Definition table_documents : TableDefinition :=
  mkTable "dbo" "Documents" [
    mkColumn "DocumentId" "UniqueIdentifier" None None None false (Some "(newid())") 1 None;
    mkColumn "Body" "NText" (Some 1073741823) None None true None 2 None;
    mkColumn "Title" "nvarchar" (Some 200) None None false None 3 None
  ].

(** The issue reported for a view that has both kinds of bracket. *)
Definition bracket_issue (view_key : string) : SyntaxIssue :=
  {| si_type := "syntax_difference";
     si_severity := "low";
     si_object := view_key;
     si_function := None;
     si_issue := "Uses bracket identifiers";
     si_solution := "Will be converted to quoted identifiers" |}.

(** The issue reported for a view that uses a function of the list. *)
Definition function_issue (view_key func : string) : SyntaxIssue :=
  {| si_type := "function_conversion";
     si_severity := "medium";
     si_object := view_key;
     si_function := Some func;
     si_issue := "Uses SQL Server specific function: " +:+ func;
     si_solution := "Will be converted to PostgreSQL equivalent" |}.

(** Metadata with one view. *)
Definition extracted_of_view (view_key : string) (view_info : ViewDefinition)
    : ExtractedMetadata Empty_set :=
  {| em_schema :=
       {| md_tables := ∅; md_views := {[view_key := view_info]};
          md_indexes := ∅; md_constraints := ∅ |};
     em_triggers := ∅;
     em_procedures := ∅;
     em_functions := ∅ |}.

End CompatibilityVocabulary.

(** ** Audit trail *)

Section AuditVocabulary.
Import MigrationLogger.

(** The indexes of a snapshot that do not back a primary key. *)
Definition secondary_indexes (indexes : gmap string IndexDefinition)
    : gmap string IndexDefinition :=
  filter (λ entry, idx_is_primary_key entry.2 = false) indexes.

(** What the audit file holds, an empty list before the first write. *)
Definition file_entries (st : LoggerState) : list AuditEntry :=
  default [] (audit_file st).

(** A file system on which the audit file can always be written, and one on
    which it cannot be written once the trail has more than one entry. *)
Definition write_always (entries : list AuditEntry) : result unit := Ok tt.

Definition write_once (entries : list AuditEntry) : result unit :=
  if (length entries <=? 1)%nat then Ok tt else Raise (LoadError "No space left on device").

End AuditVocabulary.

(** ** Loader *)

Section LoaderVocabulary.
Import PostgreSQLLoader.

(** The statements of a phase: for each object the log line and the DDL. *)
Definition statements_of_tables (tables : gmap string ConvertedTable)
    : list (string * string) :=
  (λ entry, ("Creating table: " +:+ entry.1, _generate_table_ddl entry.2))
    <$> map_to_list tables.

Definition statements_of_views (views : gmap string ConvertedView)
    : list (string * string) :=
  (λ entry, ("Creating view: " +:+ entry.1, _generate_view_ddl entry.2))
    <$> map_to_list views.

Definition statements_of_indexes (indexes : gmap string ConvertedIndex)
    : list (string * string) :=
  (λ entry, ("Creating index: " +:+ entry.1, _generate_index_ddl entry.2))
    <$> map_to_list indexes.

(** The events of executing statements one after the other, up to the first
    that the database refuses. *)
Fixpoint run_statements (db : Database) (statements : list (string * string))
    : list DbEvent * result unit :=
  match statements with
  | [] => ([], Ok tt)
  | (message, ddl) :: rest =>
      match db_execute db ddl with
      | Ok _ =>
          let '(events, r) := run_statements db rest in
          (DbLog (mkLogRecord INFO message) :: DbExecute ddl :: events, r)
      | Raise e => ([DbLog (mkLogRecord INFO message); DbExecute ddl], Raise e)
      end
  end.

(** Such a run as a step of a method: the fields are left as they are. *)
Definition statements_step (db : Database) (statements : list (string * string))
    : Db unit :=
  λ st, ((run_statements db statements).1, st, (run_statements db statements).2).

(** The events of statements that are all accepted. *)
Definition statement_events (statements : list (string * string)) : list DbEvent :=
  statements ≫= λ statement,
    [DbLog (mkLogRecord INFO statement.1); DbExecute statement.2].

(** What a transaction of the loader issues when nothing fails. *)
Definition transaction_events (statements : list (string * string)) : list DbEvent :=
  (statement_events statements ++ [DbCommit])%list.

(** The exception that leaves the handler: the one caught, unless the
    rollback raises its own. *)
Definition after_rollback (db : Database) (e : Exn) : Exn :=
  match db_rollback db with
  | Ok _ => e
  | Raise e' => e'
  end.

(** The events of [connect]. *)
Definition connect_events (st : LoaderState) : list DbEvent :=
  if connection st then [] else [DbConnect].

(** A transaction of the loader: connect if need be, run the statements and
    commit; roll back and raise again when something fails. *)
Definition transaction (db : Database) (statements : list (string * string)) : Db unit :=
  connect db;;
  try_except
    (statements_step db statements;; call DbCommit (db_commit db))
    (λ e, call DbRollback (db_rollback db);; raise e).

(** What a transaction guarantees, whatever the database does: when it
    returns, it has issued every statement and then the commit, and the loader
    is connected; when it raises, either the connection could not be made and
    nothing else was tried, or it has issued a first part of that sequence and
    then one rollback. *)
Definition transaction_outcome (db : Database) (statements : list (string * string))
    (st : LoaderState) (outcome : list DbEvent * LoaderState * result unit) : Prop :=
  let '(events, st', r) := outcome in
  match r with
  | Ok _ =>
      events = (connect_events st ++ transaction_events statements)%list ∧
      connection st' = true
  | Raise e =>
      (connection st = false ∧ db_connect db = Raise e ∧ events = [DbConnect] ∧ st' = st) ∨
      (∃ issued,
         events = (connect_events st ++ issued ++ [DbRollback])%list ∧
         issued `prefix_of` transaction_events statements ∧
         DbRollback ∉ issued)
  end.

(** A database that accepts every statement but those that create a view. *)
Definition db_without_views : Database :=
  {| db_connect := Ok tt;
     db_execute := λ ddl,
       if String.prefix "CREATE VIEW" ddl then Raise (LoadError "syntax error") else Ok tt;
     db_commit := Ok tt;
     db_rollback := Ok tt;
     db_to_sql := λ _ _, Ok tt |}.

End LoaderVocabulary.

(** ** The six phases *)

(** Solves a goal [Forall P l] for a list [l] built from events that satisfy
    [P] by computation and from lists known to satisfy it. *)
Ltac solve_forall :=
  repeat first
    [ assumption
    | apply Forall_nil_2
    | apply Forall_cons_2; [by intros []|]
    | apply Forall_app_2 ].

Section PhasesVocabulary.
Import PerformanceAdvice MigrationLogger MigrationPhases.

(** The events that change the target database. *)
Definition touches_target {Any} (event : PhaseEvent Any) : Prop :=
  match event with
  | EvCreateSchema _ | EvCreateIndexesConstraints _ => True
  | EvData e => is_load e
  | _ => False
  end.

(** The events that write an error entry to the audit trail. *)
Definition is_audit_error {Any} (event : PhaseEvent Any) : Prop :=
  match event with
  | EvAuditError _ _ => True
  | _ => False
  end.

(** The calls to [load_data]. *)
Definition is_load_event {Any} (event : PhaseEvent Any) : Prop :=
  match event with
  | EvData e => is_load e
  | _ => False
  end.

(** The events that create indexes and constraints. *)
Definition is_create_indexes {Any} (event : PhaseEvent Any) : Prop :=
  match event with
  | EvCreateIndexesConstraints _ => True
  | _ => False
  end.

(** The exception that leaves [migrate] when [e] was caught: [e] itself,
    unless writing the error entry raises its own. *)
Definition after_log_error {Any} (components : Components Any) (e : Exn) : Exn :=
  match log_error components "migration_failed" e with
  | Ok _ => e
  | Raise e' => e'
  end.

(** Components that never raise, over a given extractor. *)
Definition components_accepting {Any} (metadata : SchemaSnapshot Any)
    (extract : string → Z → Generator) : Components Any :=
  {| extract_metadata := Ok metadata;
     extract_data := extract;
     create_schema := λ _, Ok tt;
     load_data := λ _ _, Ok tt;
     create_indexes_constraints := λ _, Ok tt;
     log_phase := λ _ _ _, Ok tt;
     log_error := λ _ _, Ok tt;
     log_recommendations := λ _, Ok tt;
     re_sub_ignorecase := re_sub_nothing |}.

End PhasesVocabulary.

(** ** Extractor *)

Section ExtractorVocabulary.
Import CompatibilityAnalyzer SqlServerExtractor.

(** The rows of a table, in the order in which they were fetched. *)
Definition rows_of_table (table_key : string) (rows : list TableRow) : list TableRow :=
  filter (λ row, schema_table row = table_key) rows.

(** The entry built from the rows of one key: schema and name of the first
    row, one column for each row. *)
Definition table_of_rows (group : list TableRow) : option TableDefinition :=
  match group with
  | [] => None
  | first :: _ =>
      Some (mkTable (TABLE_SCHEMA first) (TABLE_NAME first) (column_info <$> group))
  end.

(** The rows of an index, in the order in which they were fetched. *)
Definition rows_of_index (key : string) (rows : list IndexRow) : list IndexRow :=
  filter (λ row, index_key row = key) rows.

(** The entry built from the rows of one key. *)
Definition index_of_rows (group : list IndexRow) : option IndexDefinition :=
  match group with
  | [] => None
  | first :: _ =>
      Some (mkIndex (index_name first) (SqlServerExtractor.table_name first)
                    (type_desc first) (is_unique first) (is_primary_key first)
                    (index_column <$> group))
  end.

(** The number of batches of a table of [total_rows] rows. *)
Definition batch_count (total_rows batch_size : Z) : nat :=
  Z.to_nat ((total_rows + batch_size - 1) / batch_size).

(** The offsets of the batches: the multiples of the batch size below the
    number of rows. *)
Definition batch_offsets (total_rows batch_size : Z) : list Z :=
  (λ i, Z.of_nat i * batch_size) <$> seq 0 (batch_count total_rows batch_size).

(** The run of a generator that reads the batches at the given offsets and
    ends at the first read that raises. *)
Definition batches_at (conn : Connection) (table : string) (batch_size total_rows : Z)
    (offsets : list Z) : Batches :=
  foldr (λ offset rest,
           match read_sql_query conn (batch_query table offset batch_size) with
           | Ok batch_df =>
               BatchesYield batch_df
                 (extracted_message table (offset + batch_size) total_rows) rest
           | Raise e => BatchesRaise e
           end)
        BatchesStop offsets.

(** The rows of two columns of a table [Customer] and of one column of a
    table [Order]. *)
Definition rows_customer_order : list TableRow := [
  mkTableRow "dbo" "Customer" "Id" "int" None (Some 10) (Some 0) "NO" None 1;
  mkTableRow "dbo" "Order" "Id" "int" None (Some 10) (Some 0) "NO" None 1;
  mkTableRow "dbo" "Customer" "Name" "nvarchar" (Some 50) None None "YES" None 2
].

(** A connection to a database with these tables, in which [Customer] has
    five rows. *)
Definition connection_customer : Connection :=
  {| cursor := Ok {| fetch_tables := Ok rows_customer_order;
                     fetch_views := Ok [];
                     fetch_indexes :=
                       Ok [mkIndexRow "PK_Customer" "Customer" "CLUSTERED" true true
                                      "Id" 1 false] |};
     read_count := λ _, Ok 5;
     read_sql_query := λ _, Ok batch_customer |}.

(** A connection to a database whose tables are empty. *)
Definition connection_empty : Connection :=
  {| cursor := Ok {| fetch_tables := Ok []; fetch_views := Ok []; fetch_indexes := Ok [] |};
     read_count := λ _, Ok 0;
     read_sql_query := λ _, Ok batch_customer |}.

(** The metadata extracted over that connection. *)
Definition metadata_customer : ExtractedMetadata Empty_set :=
  {| em_schema :=
       {| md_tables := _extract_tables rows_customer_order;
          md_views := _extract_views [];
          md_indexes :=
            _extract_indexes [mkIndexRow "PK_Customer" "Customer" "CLUSTERED" true true
                                         "Id" 1 false];
          md_constraints := ∅ |};
     em_triggers := ∅;
     em_procedures := ∅;
     em_functions := ∅ |}.

End ExtractorVocabulary.

(** ** Configuration *)

Section ConfigVocabulary.
Import ConfigLoader.

(** A dictionary has the key [name]. *)
Definition has_key (name : string) (items : list (YamlKey * Yaml)) : Prop :=
  ∃ value, (KeyStr name, value) ∈ items.

(** Sections with every required field, all of them null. *)
Definition source_null_fields : list (YamlKey * Yaml) :=
  [(KeyStr "server", YamlNull); (KeyStr "database", YamlNull);
   (KeyStr "username", YamlNull); (KeyStr "password", YamlNull)].

Definition target_null_fields : list (YamlKey * Yaml) :=
  [(KeyStr "host", YamlNull); (KeyStr "database", YamlNull);
   (KeyStr "username", YamlNull); (KeyStr "password", YamlNull)].

Definition config_null_fields : Yaml :=
  YamlMap [(KeyStr "source", YamlMap source_null_fields);
           (KeyStr "target", YamlMap target_null_fields)].

(** A configuration whose sections are texts that mention the field
    names. *)
Definition config_text_sections : Yaml :=
  YamlMap [
    (KeyStr "source", YamlStr "server database username password");
    (KeyStr "target", YamlStr "host database username password")
  ].

End ConfigVocabulary.

(** * Properties *)

Example strip_getdate : strip "()" "(getdate())" = "getdate".
Proof. reflexivity. Qed.

(** ** Schema converter *)

Section SchemaConverterProperties.

Example strip_literal : strip "()" "(100)" = "100".
Proof. reflexivity. Qed.

Example strip_nested : strip "()" "((0))" = "0".
Proof. reflexivity. Qed.

(** Membership in a literal list, as a disjunction of equalities. *)
Lemma in_list_true (x : string) (xs : list string) : in_list x xs = true ↔ x ∈ xs.
Proof. unfold in_list. apply bool_decide_eq_true. Qed.

Lemma in_list_false (x : string) (xs : list string) : in_list x xs = false ↔ x ∉ xs.
Proof. unfold in_list. apply bool_decide_eq_false. Qed.

(** A type name outside the mapping is neither a character type nor a
    decimal type: both lists are made of keys of the mapping. *)
Lemma unmapped_not_character (t : string) :
  data_type_mapping !! t = None →
  in_list t ["varchar"; "nvarchar"; "char"; "nchar"] = false.
Proof.
  intros Hnone. apply in_list_false. intros Hin.
  repeat (apply elem_of_cons in Hin as [-> | Hin]; [vm_compute in Hnone; discriminate |]).
  by apply elem_of_nil in Hin.
Qed.

Lemma unmapped_not_decimal (t : string) :
  data_type_mapping !! t = None →
  in_list t ["decimal"; "numeric"] = false.
Proof.
  intros Hnone. apply in_list_false. intros Hin.
  repeat (apply elem_of_cons in Hin as [-> | Hin]; [vm_compute in Hnone; discriminate |]).
  by apply elem_of_nil in Hin.
Qed.

Lemma character_not_decimal (t : string) :
  t ∈ ["varchar"; "nvarchar"; "char"; "nchar"] →
  in_list t ["decimal"; "numeric"] = false.
Proof.
  intros Hin.
  repeat (apply elem_of_cons in Hin as [-> | Hin]; [reflexivity |]).
  by apply elem_of_nil in Hin.
Qed.

Lemma decimal_not_character (t : string) :
  t ∈ ["decimal"; "numeric"] →
  in_list t ["varchar"; "nvarchar"; "char"; "nchar"] = false.
Proof.
  intros Hin.
  repeat (apply elem_of_cons in Hin as [-> | Hin]; [reflexivity |]).
  by apply elem_of_nil in Hin.
Qed.

(** What [_convert_column] logs. *)
Lemma convert_column_log (column : ColumnDefinition) :
  (_convert_column column).2 =
    match data_type_mapping !! lower (col_data_type column) with
    | None => [unknown_type_warning (lower (col_data_type column))]
    | Some _ => []
    end.
Proof.
  unfold _convert_column.
  by destruct (data_type_mapping !! lower (col_data_type column)).
Qed.

(** C1. [_convert_column] returns a converted column for every input column
    (it has no failing path).  When the lower-cased source type is not a key
    of the type mapping, the converted type is [TEXT] and exactly one record
    is logged, a warning; when it is a key, nothing is logged.  The other
    fields are carried over. *)
Theorem convert_column_total_fallback_text (column : ColumnDefinition) :
  ∃ converted log,
    _convert_column column = (converted, log) ∧
    cc_name converted = col_name column ∧
    cc_is_nullable converted = col_is_nullable column ∧
    cc_ordinal_position converted = col_ordinal_position column ∧
    match data_type_mapping !! lower (col_data_type column) with
    | None =>
        cc_data_type converted = "TEXT" ∧
        log = [unknown_type_warning (lower (col_data_type column))]
    | Some _ => log = []
    end.
Proof.
  unfold _convert_column.
  destruct (data_type_mapping !! lower (col_data_type column)) as [mapped|] eqn:Hmap.
  - eexists _, _. repeat split.
  - rewrite (unmapped_not_character _ Hmap), (unmapped_not_decimal _ Hmap).
    rewrite !andb_false_r.
    eexists _, _. repeat split.
Qed.

(** Conversion proceeds after a warning: a table's columns are converted one
    by one, in order, whatever their types. *)
Lemma convert_columns_each (columns : list ColumnDefinition) :
  (convert_columns columns).1 = (λ column, (_convert_column column).1) <$> columns.
Proof.
  induction columns as [|column rest IH]; [done|].
  cbn [convert_columns]. unfold mbind, Logged_bind.
  destruct (_convert_column column) as [converted l1] eqn:Hcolumn.
  destruct (convert_columns rest) as [converted_rest l2].
  cbn in *. by rewrite IH, Hcolumn.
Qed.

(** The converted tables, key by key: each table keeps its schema and name,
    and its columns are the conversions of its columns, in order. *)
Lemma convert_tables_lookup (tables : gmap string TableDefinition) (table_key : string) :
  (_convert_tables tables).1 !! table_key =
    (λ table_info,
       {| ct_schema := tbl_schema table_info;
          ct_name := tbl_name table_info;
          ct_columns := (λ column, (_convert_column column).1) <$> tbl_columns table_info |})
    <$> tables !! table_key.
Proof.
  unfold _convert_tables.
  apply (map_fold_weak_ind
           (λ (acc : Logged (gmap string ConvertedTable)) (m : gmap string TableDefinition),
              acc.1 !! table_key =
                (λ table_info,
                   {| ct_schema := tbl_schema table_info;
                      ct_name := tbl_name table_info;
                      ct_columns := (λ column, (_convert_column column).1)
                                      <$> tbl_columns table_info |})
                <$> m !! table_key)).
  - cbn. by rewrite !lookup_empty.
  - intros k table_info m [converted_tables log] Hfresh IH. cbn [fst] in IH.
    unfold mbind, Logged_bind.
    pose proof (convert_columns_each (tbl_columns table_info)) as Hcolumns.
    destruct (convert_columns (tbl_columns table_info)) as [columns log']. cbn in *.
    destruct (decide (k = table_key)) as [->|Hne].
    + rewrite !lookup_insert_eq. cbn. by rewrite Hcolumns.
    + by rewrite !lookup_insert_ne.
Qed.

(** The warning for an unknown type is in the log of the table conversion
    that went through the column. *)
Lemma convert_columns_logs_unknown_type (columns : list ColumnDefinition)
    (column : ColumnDefinition) :
  column ∈ columns →
  data_type_mapping !! lower (col_data_type column) = None →
  unknown_type_warning (lower (col_data_type column)) ∈ (convert_columns columns).2.
Proof.
  intros Hin Hnone. induction columns as [|c rest IH]; [by apply elem_of_nil in Hin|].
  cbn [convert_columns]. unfold mbind, Logged_bind.
  destruct (_convert_column c) as [converted l1] eqn:Hc.
  destruct (convert_columns rest) as [converted_rest l2]. cbn [snd] in *.
  apply elem_of_app. apply elem_of_cons in Hin as [->|Hin].
  - left. pose proof (convert_column_log c) as Hlog.
    rewrite Hc, Hnone in Hlog. cbn [snd] in Hlog. rewrite Hlog. left.
  - right. apply elem_of_app. left. by apply IH.
Qed.

Lemma convert_tables_logs_unknown_type (tables : gmap string TableDefinition)
    (table_key : string) (table_info : TableDefinition) (column : ColumnDefinition) :
  tables !! table_key = Some table_info →
  column ∈ tbl_columns table_info →
  data_type_mapping !! lower (col_data_type column) = None →
  unknown_type_warning (lower (col_data_type column)) ∈ (_convert_tables tables).2.
Proof.
  intros Hlookup Hin Hnone. revert Hlookup. unfold _convert_tables.
  apply (map_fold_weak_ind
           (λ (acc : Logged (gmap string ConvertedTable)) (m : gmap string TableDefinition),
              m !! table_key = Some table_info →
              unknown_type_warning (lower (col_data_type column)) ∈ acc.2)).
  - by rewrite lookup_empty.
  - intros k info m [converted_tables log] Hfresh IH Hlookup. cbn [snd] in IH.
    unfold mbind, Logged_bind.
    pose proof (convert_columns_logs_unknown_type (tbl_columns info) column) as Hlog.
    destruct (convert_columns (tbl_columns info)) as [columns log']. cbn [snd] in *.
    apply elem_of_app.
    destruct (decide (k = table_key)) as [->|Hne].
    + rewrite lookup_insert_eq in Hlookup. injection Hlookup as ->.
      right. apply elem_of_app. left. by apply Hlog.
    + rewrite lookup_insert_ne in Hlookup by done. left. by apply IH.
Qed.

(** The table of the specification's example: [Id int], [Name nvarchar(50)],
    [Created datetime]. *)
Example convert_tables_customer :
  _convert_tables
    {["dbo.Customer" :=
        mkTable "dbo" "Customer" [
          mkColumn "Id" "int" None (Some 10) (Some 0) false None 1 None;
          mkColumn "Name" "nvarchar" (Some 50) None None true None 2 None;
          mkColumn "Created" "datetime" None None None true (Some "(getdate())") 3 None
        ]]}
  = ({["dbo.Customer" :=
         mkConvertedTable "dbo" "Customer" [
           mkConvertedColumn "Id" "INTEGER" false None 1;
           mkConvertedColumn "Name" "VARCHAR(50)" true None 2;
           mkConvertedColumn "Created" "TIMESTAMP" true (Some "getdate") 3
         ]]},
     []).
Proof. vm_compute. reflexivity. Qed.

(** C3. A column of type char, nchar, varchar or nvarchar (in any letter
    case) whose max length is the sentinel -1 is converted to the type
    [TEXT], with no length suffix. *)
Theorem convert_column_unbounded_is_text (column : ColumnDefinition) :
  lower (col_data_type column) ∈ ["varchar"; "nvarchar"; "char"; "nchar"] →
  col_max_length column = Some (-1) →
  cc_data_type (_convert_column column).1 = "TEXT".
Proof.
  intros Hchar Hlen. unfold _convert_column. rewrite Hlen.
  rewrite (character_not_decimal _ Hchar), andb_false_r.
  apply in_list_true in Hchar. rewrite Hchar.
  by destruct (data_type_mapping !! lower (col_data_type column)).
Qed.

Lemma convert_column_unbounded_is_text_witness :
  cc_data_type (_convert_column column_nvarchar_max).1 = "TEXT".
Proof.
  apply (convert_column_unbounded_is_text column_nvarchar_max).
  - vm_compute. by repeat constructor.
  - reflexivity.
Defined.

(** C4, as stated, fails: a [decimal] column with precision 10 and scale 0
    (present and not null) is converted to [DECIMAL(10)], without the scale
    segment. *)
Lemma convert_column_decimal_scale_zero :
  lower (col_data_type column_decimal_10_0) ∈ ["decimal"; "numeric"] ∧
  col_precision column_decimal_10_0 = Some 10 ∧
  col_scale column_decimal_10_0 = Some 0 ∧
  data_type_mapping !! lower (col_data_type column_decimal_10_0) = Some "DECIMAL" ∧
  cc_data_type (_convert_column column_decimal_10_0).1 = "DECIMAL(10)" ∧
  cc_data_type (_convert_column column_decimal_10_0).1
    ≠ spec_decimal_type "DECIMAL" 10 (Some 0).
Proof. vm_compute. repeat split; [by repeat constructor | discriminate]. Qed.

(** A precision of 0 counts as no precision. *)
Example convert_column_decimal_precision_zero :
  cc_data_type
    (_convert_column (mkColumn "Quantity" "numeric" None (Some 0) (Some 2) false None 2 None)).1
  = "NUMERIC".
Proof. reflexivity. Qed.

(** C4, amended. A column of type decimal or numeric (in any letter case)
    with a precision that is neither null nor zero is converted to
    [<mapped-type>(<precision>,<scale>)] when its scale is neither null nor
    zero, and to [<mapped-type>(<precision>)] when its scale is null or
    zero. *)
Theorem convert_column_decimal_type (column : ColumnDefinition) (precision : Z) :
  lower (col_data_type column) ∈ ["decimal"; "numeric"] →
  col_precision column = Some precision →
  precision ≠ 0 →
  ∃ mapped,
    data_type_mapping !! lower (col_data_type column) = Some mapped ∧
    cc_data_type (_convert_column column).1
      = code_decimal_type mapped precision (col_scale column).
Proof.
  intros Htype Hprec Hnz. unfold _convert_column.
  rewrite (decimal_not_character _ Htype), andb_false_r.
  pose proof Htype as Hin. apply in_list_true in Hin. rewrite Hin, Hprec.
  assert (Htruthy : truthy_int (Some precision) = true).
  { cbn. apply negb_true_iff, Z.eqb_neq, Hnz. }
  rewrite Htruthy. cbn [andb].
  assert (Hmapped : ∃ mapped, data_type_mapping !! lower (col_data_type column) = Some mapped).
  { repeat (apply elem_of_cons in Htype as [-> | Htype]; [by eexists |]).
    by apply elem_of_nil in Htype. }
  destruct Hmapped as [mapped Hmapped]. exists mapped. split; [done|].
  rewrite Hmapped. unfold code_decimal_type.
  destruct (col_scale column) as [s|]; cbn; [|done].
  by destruct (s =? 0).
Qed.

Lemma convert_column_decimal_type_witness :
  ∃ mapped,
    data_type_mapping !! lower (col_data_type column_numeric_18_4) = Some mapped ∧
    cc_data_type (_convert_column column_numeric_18_4).1
      = code_decimal_type mapped 18 (col_scale column_numeric_18_4).
Proof.
  apply (convert_column_decimal_type column_numeric_18_4 18).
  - vm_compute. by repeat constructor.
  - reflexivity.
  - lia.
Defined.

Example convert_column_numeric_18_4 :
  cc_data_type (_convert_column column_numeric_18_4).1 = "NUMERIC(18,4)".
Proof. reflexivity. Qed.

(** *** Default values *)

Lemma rstrip_last_char (chars s : string) (c : ascii) :
  last_char (rstrip chars s) = Some c → char_in c chars = false.
Proof.
  induction s as [|a s IH]; cbn [rstrip]; [discriminate|].
  destruct (rstrip chars s) as [|b r] eqn:Hr.
  - destruct (char_in a chars) eqn:Ha; cbn; [discriminate|].
    intros [= <-]. exact Ha.
  - intros Hlast. apply IH. exact Hlast.
Qed.

Lemma lower_last_char (s : string) :
  last_char (lower s) = lower_ascii <$> last_char s.
Proof.
  induction s as [|a s IH]; [done|].
  destruct s as [|b s]; [done|].
  exact IH.
Qed.

Lemma lower_ascii_rparen (c : ascii) : lower_ascii c = ")"%char → c = ")"%char.
Proof.
  destruct c as [[] [] [] [] [] [] [] []]; vm_compute; intros H; first [exact H | discriminate H].
Qed.

(** After [strip('()')] no string ends with a closing parenthesis, in any
    letter case. *)
Lemma stripped_never_ends_with_rparen (s : string) :
  last_char (lower (strip "()" s)) ≠ Some ")"%char.
Proof.
  rewrite lower_last_char. unfold strip.
  destruct (last_char (rstrip "()" (lstrip "()" s))) as [c|] eqn:Hlast; [|discriminate].
  intros [= Hc]. apply lower_ascii_rparen in Hc as ->.
  apply rstrip_last_char in Hlast. discriminate Hlast.
Qed.

(** So the entries of the table that end with [()] never match: the only
    entry that [_convert_default_value] can apply is [system_user]. *)
Lemma first_conversion_only_system_user (s pg_func : string) :
  first_conversion (strip "()" s) default_conversions = Some pg_func →
  lower (strip "()" s) = "system_user" ∧ pg_func = "CURRENT_USER".
Proof.
  pose proof (stripped_never_ends_with_rparen s) as Hlast.
  unfold default_conversions. cbn [first_conversion].
  repeat
    (destruct (String.eqb (lower (strip "()" s)) _) eqn:Heq;
     [apply String.eqb_eq in Heq;
      first [ by (rewrite Heq in Hlast; exfalso; apply Hlast)
            | by intros [= <-] ]
     | clear Heq ]).
  discriminate.
Qed.

(** C2. The default [(getdate())] loses its own call parentheses to
    [strip('()')], matches no entry of the table, and comes back as
    [getdate]; the same happens to the other function entries.  The literal
    [(100)] comes back as [100], and [system_user] is translated. *)
Theorem convert_default_value_getdate :
  _convert_default_value (Some "(getdate())") = Some "getdate" ∧
  _convert_default_value (Some "(getutcdate())") = Some "getutcdate" ∧
  _convert_default_value (Some "(newid())") = Some "newid" ∧
  _convert_default_value (Some "(user_name())") = Some "user_name" ∧
  _convert_default_value (Some "(100)") = Some "100" ∧
  _convert_default_value (Some "(SYSTEM_USER)") = Some "CURRENT_USER".
Proof. repeat split. Qed.

(** An absent or empty default stays absent. *)
Example convert_default_value_absent :
  _convert_default_value None = None ∧ _convert_default_value (Some "") = None.
Proof. split; reflexivity. Qed.

(** The translation never produces [gen_random_uuid()], and it returns
    [CURRENT_TIMESTAMP] only for a default that already reads so once
    stripped. *)
Lemma convert_default_value_dead_entries (default_value : option string) :
  _convert_default_value default_value ≠ Some "gen_random_uuid()" ∧
  (_convert_default_value default_value = Some "CURRENT_TIMESTAMP" →
   ∃ s, default_value = Some s ∧ strip "()" s = "CURRENT_TIMESTAMP").
Proof.
  unfold _convert_default_value.
  destruct default_value as [s|]; [|by split].
  destruct (negb (truthy_str (Some s))); [by split|].
  change (default "" (Some s)) with s.
  pose proof (stripped_never_ends_with_rparen s) as Hlast.
  destruct (first_conversion (strip "()" s) default_conversions) as [pg_func|] eqn:Hfirst.
  - apply first_conversion_only_system_user in Hfirst as [_ ->].
    split; intros Heq; discriminate Heq.
  - split.
    + intros [= Heq]. rewrite Heq in Hlast. by apply Hlast.
    + intros [= Heq]. by exists s.
Qed.

(** *** Indexes and constraints *)

(** The converted index set, key by key. *)
Lemma convert_indexes_lookup (indexes : gmap string IndexDefinition) (index_key : string) :
  _convert_indexes indexes !! index_key =
    index_info ← indexes !! index_key;
    if idx_is_primary_key index_info then None else Some (converted_index index_info).
Proof.
  unfold _convert_indexes.
  apply (map_fold_weak_ind
           (λ (converted : gmap string ConvertedIndex) (m : gmap string IndexDefinition),
              converted !! index_key =
                index_info ← m !! index_key;
                if idx_is_primary_key index_info then None
                else Some (converted_index index_info))).
  - by rewrite !lookup_empty.
  - intros k index_info m converted Hfresh IH.
    destruct (decide (k = index_key)) as [->|Hne].
    + rewrite lookup_insert_eq. cbn.
      destruct (idx_is_primary_key index_info).
      * rewrite IH, Hfresh. done.
      * by rewrite lookup_insert_eq.
    + rewrite (lookup_insert_ne m) by done.
      destruct (idx_is_primary_key index_info); [done|].
      by rewrite lookup_insert_ne.
Qed.

(** The index part of the schema that [convert] returns is the converted
    index set. *)
Lemma convert_indexes_of_convert {Any : Type}
    (re_sub_ignorecase : string → string → string → string)
    (metadata : SchemaSnapshot Any) :
  cs_indexes (convert re_sub_ignorecase metadata).1
  = _convert_indexes (md_indexes metadata).
Proof.
  unfold convert, mbind, Logged_bind.
  by destruct (_convert_tables (md_tables metadata)).
Qed.

(** C5. An index of the snapshot whose primary-key flag is set has no entry
    in the converted index set, nor therefore in the index part of the schema
    that [convert] returns. *)
Theorem convert_indexes_excludes_primary_keys {Any : Type}
    (re_sub_ignorecase : string → string → string → string)
    (metadata : SchemaSnapshot Any) (index_key : string)
    (index_info : IndexDefinition) :
  md_indexes metadata !! index_key = Some index_info →
  idx_is_primary_key index_info = true →
  _convert_indexes (md_indexes metadata) !! index_key = None ∧
  cs_indexes (convert re_sub_ignorecase metadata).1 !! index_key = None.
Proof.
  intros Hlookup Hpk. rewrite convert_indexes_of_convert.
  rewrite convert_indexes_lookup, Hlookup. cbn. by rewrite Hpk.
Qed.

Lemma convert_indexes_excludes_primary_keys_witness :
  _convert_indexes (md_indexes snapshot_indexed) !! "Customer.PK_Customer" = None ∧
  cs_indexes (convert (λ _ _ text, text) snapshot_indexed).1 !! "Customer.PK_Customer" = None.
Proof.
  apply (convert_indexes_excludes_primary_keys (λ _ _ text, text) snapshot_indexed
           "Customer.PK_Customer" index_pk_customer).
  - reflexivity.
  - reflexivity.
Defined.

(** Every entry of the converted index set comes from an index of the
    snapshot, under the same key, whose primary-key flag is not set; and
    every such index has its entry. *)
Lemma convert_indexes_entries (indexes : gmap string IndexDefinition)
    (index_key : string) (converted : ConvertedIndex) :
  _convert_indexes indexes !! index_key = Some converted ↔
  ∃ index_info,
    indexes !! index_key = Some index_info ∧
    idx_is_primary_key index_info = false ∧
    converted = converted_index index_info.
Proof.
  rewrite convert_indexes_lookup.
  destruct (indexes !! index_key) as [index_info|]; cbn.
  - destruct (idx_is_primary_key index_info) eqn:Hpk; split.
    + discriminate.
    + intros (? & [= <-] & Hpk' & _). congruence.
    + intros [= <-]. by exists index_info.
    + intros (? & [= <-] & _ & ->). done.
  - split; [discriminate|]. by intros (? & ? & _).
Qed.

Example convert_indexes_customer :
  _convert_indexes indexes_customer
  = {["Customer.IX_Customer_Name" := converted_index index_ix_customer_name]}.
Proof.
  vm_compute. reflexivity.
Qed.

(** C10. Whatever the snapshot holds, its constraints included, the schema
    that [convert] returns has an empty constraints map. *)
Theorem convert_constraints_empty {Any : Type}
    (re_sub_ignorecase : string → string → string → string)
    (metadata : SchemaSnapshot Any) :
  cs_constraints (convert re_sub_ignorecase metadata).1 = ∅.
Proof.
  unfold convert, mbind, Logged_bind.
  by destruct (_convert_tables (md_tables metadata)).
Qed.

End SchemaConverterProperties.

(** ** Data converter *)

Section DataConverterProperties.

Lemma convert_column_data_series (series : Series) (table_name column_name : string) :
  _convert_column_data (SelSeries series) table_name column_name
  = Ok (converted_series series).
Proof.
  destruct series as [d vs]. unfold converted_series, converted_value. cbn.
  destruct d as [| | | |[tz|]|]; cbn; try done;
    by rewrite list_fmap_id.
Qed.

Lemma converted_value_idempotent (d : Dtype) (v : PyValue) :
  converted_value d (converted_value d v) = converted_value d v.
Proof.
  unfold converted_value.
  destruct d as [| | | |[tz|]|]; cbn; done.
Qed.

Lemma converted_series_idempotent (series : Series) :
  converted_series (converted_series series) = converted_series series.
Proof.
  unfold converted_series. cbn. f_equal.
  rewrite <- list_fmap_compose. apply list_fmap_ext. intros _ v _.
  apply converted_value_idempotent.
Qed.

Lemma converted_frame_idempotent (df : DataFrame) :
  converted_frame (converted_frame df) = converted_frame df.
Proof.
  unfold converted_frame. cbn. f_equal.
  rewrite <- list_fmap_compose. apply list_fmap_ext. intros _ [label series] _.
  cbn. by rewrite converted_series_idempotent.
Qed.

Lemma converted_frame_columns (df : DataFrame) :
  columns (converted_frame df) = columns df.
Proof.
  unfold columns, converted_frame. cbn.
  rewrite <- list_fmap_compose. by apply list_fmap_ext.
Qed.

(** *** Selecting and replacing a column *)

Lemma filter_label_absent (cols : list (string * Series)) (label : string) :
  label ∉ cols.*1 → filter (λ c, c.1 = label) cols = [].
Proof.
  induction cols as [|[l s] cols IH]; [done|].
  intros Hnot. rewrite fmap_cons in Hnot.
  apply not_elem_of_cons in Hnot as [Hne Hnot].
  rewrite filter_cons_False by (cbn in *; congruence). by apply IH.
Qed.

Lemma filter_label_unique (cols : list (string * Series)) (label : string)
    (series : Series) :
  NoDup cols.*1 → (label, series) ∈ cols →
  filter (λ c, c.1 = label) cols = [(label, series)].
Proof.
  induction cols as [|[l s] cols IH]; intros Hnodup Hin.
  - by apply elem_of_nil in Hin.
  - rewrite fmap_cons in Hnodup. apply NoDup_cons in Hnodup as [Hfresh Hnodup].
    apply elem_of_cons in Hin as [[= <- <-]|Hin].
    + rewrite filter_cons_True by done. by rewrite filter_label_absent.
    + assert (l ≠ label).
      { intros ->. apply Hfresh. apply list_elem_of_fmap. by exists (label, series). }
      rewrite filter_cons_False by (cbn; congruence). by apply IH.
Qed.

(** With distinct labels, [df[label]] is the series stored under the label. *)
Lemma getitem_unique (df : DataFrame) (label : string) (series : Series) :
  NoDup (columns df) → (label, series) ∈ labelled df →
  getitem df label = Ok (SelSeries series).
Proof.
  intros Hnodup Hin. unfold getitem.
  by rewrite (filter_label_unique _ _ _ Hnodup Hin).
Qed.

(** One turn of the loop converts the column it names and leaves the others
    alone. *)
Lemma convert_step_unique (table_name : string) (df : DataFrame) (label : string) :
  NoDup (columns df) → label ∈ columns df →
  convert_step table_name df label =
    Ok {| index := index df;
          labelled := (λ c, if bool_decide (c.1 = label)
                            then (c.1, converted_series c.2) else c)
                        <$> labelled df |}.
Proof.
  intros Hnodup Hin. unfold convert_step.
  pose proof Hin as Hin'. apply list_elem_of_fmap in Hin' as ([l series] & -> & Hmem).
  cbn [fst]. rewrite (getitem_unique df l series Hnodup Hmem).
  cbn [mbind result_bind]. rewrite convert_column_data_series.
  cbn [mbind result_bind mret result_ret]. unfold setitem.
  rewrite bool_decide_eq_true_2 by done. do 2 f_equal.
  apply list_fmap_ext. intros i [l' s'] Hl'. cbn.
  case_bool_decide as Heq; [|done]. subst l'. f_equal. f_equal.
  apply list_elem_of_lookup_2 in Hl'.
  assert (Hsel : (l, s') ∈ filter (λ c, c.1 = l) (labelled df))
    by (by apply list_elem_of_filter).
  rewrite (filter_label_unique _ _ _ Hnodup Hmem) in Hsel.
  apply list_elem_of_singleton in Hsel. by injection Hsel as <-.
Qed.

(** The loop over a set of distinct labels converts exactly these columns. *)
Lemma for_each_convert_step (table_name : string) (labels : list string) (df : DataFrame) :
  NoDup (columns df) → NoDup labels → labels ⊆ columns df →
  for_each (convert_step table_name) df labels =
    Ok {| index := index df;
          labelled := (λ c, if bool_decide (c.1 ∈ labels)
                            then (c.1, converted_series c.2) else c)
                        <$> labelled df |}.
Proof.
  revert df. induction labels as [|label rest IH]; intros df Hnodup Hlabels Hsub.
  - cbn. destruct df as [n cols]. cbn. f_equal. f_equal.
    rewrite <- (list_fmap_id cols) at 1. apply list_fmap_ext. intros _ c _.
    rewrite bool_decide_eq_false_2; [reflexivity|]. apply not_elem_of_nil.
  - apply NoDup_cons in Hlabels as [Hfresh Hrest].
    cbn [for_each]. rewrite convert_step_unique; [|done|apply Hsub; left].
    cbn. rewrite IH; cbn.
    + do 2 f_equal. rewrite <- list_fmap_compose. apply list_fmap_ext.
      intros _ [l s] _. cbn [compose fst snd].
      destruct (decide (l = label)) as [->|Hne].
      * rewrite (bool_decide_eq_true_2 (label = label)) by done. cbn [fst snd].
        rewrite (bool_decide_eq_false_2 (label ∈ rest)) by done.
        by rewrite (bool_decide_eq_true_2 (label ∈ label :: rest)) by left.
      * rewrite (bool_decide_eq_false_2 (l = label)) by done. cbn [fst snd].
        destruct (decide (l ∈ rest)) as [Hin|Hnin].
        -- rewrite (bool_decide_eq_true_2 (l ∈ rest)) by done.
           by rewrite (bool_decide_eq_true_2 (l ∈ label :: rest)) by (by right).
        -- rewrite (bool_decide_eq_false_2 (l ∈ rest)) by done.
           by rewrite (bool_decide_eq_false_2 (l ∈ label :: rest))
             by (by apply not_elem_of_cons).
    + unfold columns in *. cbn. rewrite <- list_fmap_compose.
      erewrite list_fmap_ext; [exact Hnodup|].
      intros _ [l s] _. cbn. by case_bool_decide.
    + done.
    + unfold columns in *. cbn. rewrite <- list_fmap_compose.
      erewrite list_fmap_ext; [intros x Hx; apply Hsub; by right|].
      intros _ [l s] _. cbn. by case_bool_decide.
Qed.

(** On a frame with distinct labels [convert_batch] returns the frame with
    every column converted. *)
Lemma convert_batch_unique (data_batch : DataFrame) (table_name : string) :
  NoDup (columns data_batch) →
  convert_batch data_batch table_name = Ok (converted_frame data_batch).
Proof.
  intros Hnodup. unfold convert_batch, copy.
  rewrite for_each_convert_step by done.
  unfold converted_frame. do 2 f_equal. apply list_fmap_ext.
  intros i c Hc. rewrite bool_decide_eq_true_2; [done|].
  apply list_elem_of_fmap. exists c. split; [done|].
  by apply list_elem_of_lookup_2 in Hc.
Qed.

(** *** Frames on which the loop does not raise *)

Lemma filter_label_fst (cols : list (string * Series)) (label : string) :
  (filter (λ c, c.1 = label) cols).*1 = filter (λ l, l = label) cols.*1.
Proof.
  induction cols as [|[l s] cols IH]; [done|].
  rewrite fmap_cons. cbn [fst].
  destruct (decide (l = label)) as [->|Hne].
  - rewrite !filter_cons_True by done. rewrite fmap_cons. by rewrite IH.
  - rewrite !filter_cons_False by done. exact IH.
Qed.

Lemma getitem_series_inv (df : DataFrame) (label : string) (series : Series) :
  getitem df label = Ok (SelSeries series) →
  filter (λ c, c.1 = label) (labelled df) = [(label, series)].
Proof.
  unfold getitem.
  destruct (filter (λ c, c.1 = label) (labelled df)) as [|[l s] [|c rest]] eqn:Hfilter;
    intros [= <-].
  assert (Hin : (l, s) ∈ filter (λ c, c.1 = label) (labelled df))
    by (rewrite Hfilter; left).
  apply list_elem_of_filter in Hin as [Hl _]. cbn in Hl. by subst l.
Qed.

Lemma setitem_columns (df : DataFrame) (label : string) (series : Series) :
  label ∈ columns df → columns (setitem df label series) = columns df.
Proof.
  intros Hin. unfold setitem. rewrite bool_decide_eq_true_2 by done.
  unfold columns. cbn. rewrite <- list_fmap_compose. apply list_fmap_ext.
  intros _ [l s] _. cbn. by case_bool_decide.
Qed.

(** A turn of the loop that does not raise has found its label exactly
    once, and it leaves the labels as they are. *)
Lemma convert_step_ok_inv (table_name : string) (df df' : DataFrame) (label : string) :
  convert_step table_name df label = Ok df' →
  filter (λ l, l = label) (columns df) = [label] ∧ columns df' = columns df.
Proof.
  unfold convert_step.
  destruct (getitem df label) as [[series|frame]|e] eqn:Hget; [|discriminate..].
  cbn [mbind result_bind]. rewrite convert_column_data_series.
  cbn [mbind result_bind mret result_ret]. intros [= <-].
  apply getitem_series_inv in Hget.
  assert (Hcount : filter (λ l, l = label) (columns df) = [label]).
  { unfold columns. by rewrite <- filter_label_fst, Hget. }
  split; [done|]. apply setitem_columns.
  assert (Hin : label ∈ filter (λ l, l = label) (columns df)) by (rewrite Hcount; left).
  by apply list_elem_of_filter in Hin as [_ ?].
Qed.

Lemma for_each_ok_inv (table_name : string) (labels : list string) (df df' : DataFrame) :
  for_each (convert_step table_name) df labels = Ok df' →
  ∀ label, label ∈ labels → filter (λ l, l = label) (columns df) = [label].
Proof.
  revert df. induction labels as [|l rest IH]; intros df Hok label Hin.
  - by apply elem_of_nil in Hin.
  - cbn [for_each] in Hok.
    destruct (convert_step table_name df l) as [df1|e] eqn:Hstep; [|discriminate].
    cbn [mbind result_bind] in Hok.
    apply convert_step_ok_inv in Hstep as [Hcount Hcols].
    apply elem_of_cons in Hin as [->|Hin]; [done|].
    rewrite <- Hcols. by apply (IH df1).
Qed.

Lemma NoDup_of_single_occurrences (labels : list string) :
  (∀ label, label ∈ labels → filter (λ l, l = label) labels = [label]) →
  NoDup labels.
Proof.
  induction labels as [|l0 rest IH]; intros Hsingle; [constructor|].
  assert (Hfresh : l0 ∉ rest).
  { pose proof (Hsingle l0 ltac:(left)) as H0.
    rewrite filter_cons_True in H0 by done. injection H0 as H0.
    by apply (filter_nil_not_elem_of _ _ l0 H0). }
  apply NoDup_cons. split; [done|]. apply IH. intros label Hin.
  pose proof (Hsingle label ltac:(by right)) as Hl.
  rewrite filter_cons_False in Hl; [done|]. intros ->. done.
Qed.

(** [convert_batch] returns only on frames whose labels are distinct. *)
Lemma convert_batch_ok_unique (data_batch converted_batch : DataFrame)
    (table_name : string) :
  convert_batch data_batch table_name = Ok converted_batch →
  NoDup (columns data_batch).
Proof.
  unfold convert_batch, copy. intros Hok.
  apply NoDup_of_single_occurrences. by apply (for_each_ok_inv _ _ _ _ Hok).
Qed.

(** On a frame with a repeated label it raises: the selection is a frame,
    which has no [dtype]. *)
Example convert_batch_repeated_label :
  convert_batch
    {| index := 1;
       labelled := [("Id", mkSeries DInt64 [PyInt 1]); ("Id", mkSeries DInt64 [PyInt 2])] |}
    "dbo.Customer"
  = Raise AttributeError.
Proof. reflexivity. Qed.

(** *** Shape *)

Lemma converted_frame_lookup (df : DataFrame) (i : nat) :
  labelled (converted_frame df) !! i
  = (λ c, (c.1, converted_series c.2)) <$> labelled df !! i.
Proof. unfold converted_frame. cbn. apply list_lookup_fmap. Qed.

Lemma converted_frame_cell (df : DataFrame) (i row : nat) :
  cell (converted_frame df) i row
  = d ← column_dtype df i; converted_value d <$> cell df i row.
Proof.
  unfold cell, column_dtype. rewrite converted_frame_lookup.
  destruct (labelled df !! i) as [[label series]|]; [|done].
  cbn. apply list_lookup_fmap.
Qed.

Lemma converted_frame_rectangular (df : DataFrame) :
  rectangular df → rectangular (converted_frame df).
Proof.
  unfold rectangular, converted_frame. cbn. intros Hrect.
  apply Forall_fmap. eapply Forall_impl; [exact Hrect|].
  intros [label series]. cbn. by rewrite length_fmap.
Qed.



Example convert_batch_customer :
  convert_batch batch_customer "dbo.Customer" =
    Ok {| index := 2;
          labelled := [
            ("Id", mkSeries DInt64 [PyInt 1; PyInt 2]);
            ("Name", mkSeries DObject [PyStr "Ada"; PyStr "None"]);
            ("Balance", mkSeries DObject [PyStr "10.50"; PyStr "0"]);
            ("Created", mkSeries (DDatetime64 None)
                                 [PyObject "2024-01-01 00:00:00"; PyObject "NaT"]);
            ("Active", mkSeries DBool [PyBool true; PyBool false])
          ] |}.
Proof. reflexivity. Qed.

(** C7. Running [convert_batch] on its own output gives that output again:
    for every frame and table name, converting and then converting the
    result is the same as converting once (on a frame on which the first run
    raises, both sides are that exception). *)
Theorem convert_batch_idempotent (data_batch : DataFrame) (table_name : string) :
  (converted_batch ← convert_batch data_batch table_name;
   convert_batch converted_batch table_name)
  = convert_batch data_batch table_name.
Proof.
  destruct (convert_batch data_batch table_name) as [converted_batch|e] eqn:Hfirst;
    [|done].
  cbn [mbind result_bind].
  pose proof (convert_batch_ok_unique _ _ _ Hfirst) as Hnodup.
  rewrite (convert_batch_unique _ table_name Hnodup) in Hfirst.
  injection Hfirst as <-.
  rewrite convert_batch_unique by (by rewrite converted_frame_columns).
  by rewrite converted_frame_idempotent.
Qed.

(** On a batch the second run returns, and returns the first result. *)
Lemma convert_batch_twice (data_batch : DataFrame) (table_name : string) :
  NoDup (columns data_batch) →
  ∃ converted_batch,
    convert_batch data_batch table_name = Ok converted_batch ∧
    convert_batch converted_batch table_name = Ok converted_batch.
Proof.
  intros Hnodup. exists (converted_frame data_batch).
  split; [by apply convert_batch_unique|].
  rewrite convert_batch_unique by (by rewrite converted_frame_columns).
  by rewrite converted_frame_idempotent.
Qed.

End DataConverterProperties.

(** ** Performance analyzer *)

Section PerformanceAnalyzerProperties.
Context {Any : Type}.

Lemma is_oversized_varchar_comparable (column : ColumnDefinition) :
  comparable column → is_oversized_varchar column = Ok (oversized column).
Proof.
  unfold comparable, is_oversized_varchar, oversized, in_list. intros Hcmp.
  case_bool_decide as Htype; [|done].
  destruct (Hcmp Htype) as [n ->]. done.
Qed.

Lemma analyze_columns_comparable (table_key : string)
    (columns : list ColumnDefinition) (recommendations : list Recommendation) :
  Forall comparable columns →
  analyze_columns table_key columns recommendations =
    Ok (recommendations
        ++ (oversized_varchar_recommendation table_key <$> filter oversized columns))%list.
Proof.
  revert recommendations.
  induction columns as [|column rest IH]; intros recommendations Hcmp.
  - cbn. by rewrite app_nil_r.
  - apply Forall_cons in Hcmp as [Hcolumn Hrest].
    cbn [analyze_columns]. rewrite is_oversized_varchar_comparable by done.
    cbn [mbind result_bind]. rewrite IH by done.
    destruct (oversized column) eqn:Hov.
    + rewrite filter_cons_True by (by apply Is_true_true).
      rewrite fmap_cons. by rewrite <- app_assoc.
    + by rewrite filter_cons_False by (by apply Is_true_false).
Qed.

Lemma analyze_tables_comparable (tables : list (string * TableDefinition))
    (recommendations : list Recommendation) :
  Forall (λ entry, Forall comparable (tbl_columns entry.2)) tables →
  analyze_tables tables recommendations =
    Ok (recommendations
        ++ (tables ≫= λ entry,
              oversized_varchar_recommendation entry.1
                <$> filter oversized (tbl_columns entry.2)))%list.
Proof.
  revert recommendations.
  induction tables as [|[table_key table_info] rest IH]; intros recommendations Hcmp.
  - cbn. by rewrite app_nil_r.
  - apply Forall_cons in Hcmp as [Htable Hrest]. cbn [fst snd] in Htable.
    cbn [analyze_tables]. rewrite analyze_columns_comparable by done.
    cbn [mbind result_bind]. rewrite IH by done.
    rewrite bind_cons. cbn [fst snd]. by rewrite <- app_assoc.
Qed.

Lemma analyze_data_types_comparable (metadata : SchemaSnapshot Any) :
  snapshot_comparable metadata →
  _analyze_data_types metadata =
    Ok (map_to_list (md_tables metadata) ≫= λ entry,
          oversized_varchar_recommendation entry.1
            <$> filter oversized (tbl_columns entry.2)).
Proof.
  intros Hcmp. unfold _analyze_data_types.
  rewrite analyze_tables_comparable; [done|].
  apply Forall_forall. intros [table_key table_info] Hin.
  apply elem_of_map_to_list in Hin. by apply (Hcmp table_key).
Qed.

(** C9, amended. In a snapshot whose varchar and nvarchar columns all have
    a max length, [analyze_schema] returns a report, and for every table
    every column of type varchar or nvarchar (in any letter case) whose max
    length is above 1000 has its low-severity [oversized_varchar]
    recommendation, advising TEXT or a smaller size, among the report's
    data-type recommendations. *)
Theorem analyze_schema_reports_oversized_varchar
    (metadata : SchemaSnapshot Any) (table_key : string)
    (table_info : TableDefinition) (column : ColumnDefinition) (n : Z) :
  snapshot_comparable metadata →
  md_tables metadata !! table_key = Some table_info →
  column ∈ tbl_columns table_info →
  lower (col_data_type column) ∈ ["varchar"; "nvarchar"] →
  col_max_length column = Some n →
  1000 < n →
  ∃ report,
    analyze_schema metadata = Ok report ∧
    oversized_varchar_recommendation table_key column ∈ data_types report ∧
    rec_severity (oversized_varchar_recommendation table_key column) = "low".
Proof.
  intros Hcmp Htable Hcolumn Htype Hlen Hn. unfold analyze_schema.
  rewrite analyze_data_types_comparable by done.
  cbn [mbind result_bind mret result_ret]. eexists. split; [reflexivity|].
  split; [|reflexivity]. cbn [data_types].
  apply list_elem_of_bind. exists (table_key, table_info).
  split; [|by apply elem_of_map_to_list].
  cbn [fst snd]. apply list_elem_of_fmap_2. apply list_elem_of_filter.
  split; [|done]. apply Is_true_true. unfold oversized.
  apply in_list_true in Htype. rewrite Htype, Hlen. cbn.
  by apply Z.ltb_lt.
Qed.

(** Conversely, every data-type recommendation of the report is the one of
    such a column. *)
Lemma analyze_schema_data_types_sound
    (metadata : SchemaSnapshot Any) (report : Report) (r : Recommendation) :
  snapshot_comparable metadata →
  analyze_schema metadata = Ok report →
  r ∈ data_types report →
  ∃ table_key table_info column,
    md_tables metadata !! table_key = Some table_info ∧
    column ∈ tbl_columns table_info ∧
    oversized column = true ∧
    r = oversized_varchar_recommendation table_key column.
Proof.
  intros Hcmp. unfold analyze_schema.
  rewrite analyze_data_types_comparable by done.
  cbn [mbind result_bind mret result_ret]. intros [= <-]. cbn [data_types].
  intros ([table_key table_info] & Hr & Hentry)%list_elem_of_bind.
  cbn [fst snd] in Hr.
  apply list_elem_of_fmap in Hr as (column & -> & Hcol).
  apply list_elem_of_filter in Hcol as [Hov Hcol].
  exists table_key, table_info, column.
  split; [by apply elem_of_map_to_list|].
  split; [done|]. split; [by apply Is_true_true|done].
Qed.

End PerformanceAnalyzerProperties.

Section PerformanceAnalyzerExamples.

Lemma analyze_schema_reports_oversized_varchar_witness :
  ∃ report,
    analyze_schema snapshot_varchar = Ok report ∧
    oversized_varchar_recommendation "dbo.Customer" column_notes_varchar_4000
      ∈ data_types report ∧
    rec_severity (oversized_varchar_recommendation "dbo.Customer" column_notes_varchar_4000)
      = "low".
Proof.
  apply (analyze_schema_reports_oversized_varchar snapshot_varchar "dbo.Customer"
           (mkTable "dbo" "Customer" [column_id_int; column_notes_varchar_4000])
           column_notes_varchar_4000 4000).
  - intros table_key table_info Hlookup.
    unfold snapshot_varchar, snapshot_of_table in Hlookup. cbn [md_tables] in Hlookup.
    apply lookup_singleton_Some in Hlookup as [_ <-].
    repeat constructor; intros Htype; vm_compute; eauto.
    vm_compute in Htype.
    repeat (apply elem_of_cons in Htype as [Htype|Htype]; [discriminate Htype|]).
    by apply elem_of_nil in Htype.
  - reflexivity.
  - by repeat constructor.
  - vm_compute. by repeat constructor.
  - reflexivity.
  - lia.
Defined.

(** C9, as stated, fails: a [char] column of length 5000 is a character
    column whose bounded length is above the threshold, and the report has
    no recommendation for it: its data-type part is empty and no
    recommendation of the report has low severity. *)
Lemma analyze_schema_char_not_reported :
  lower (col_data_type column_code_char_5000) ∈ ["varchar"; "nvarchar"; "char"; "nchar"] ∧
  col_max_length column_code_char_5000 = Some 5000 ∧
  ∃ report,
    analyze_schema snapshot_char = Ok report ∧
    data_types report = [] ∧
    Forall (λ r, rec_severity r ≠ "low")
           (indexing report ++ partitioning report
            ++ data_types report ++ constraints report)%list.
Proof.
  split; [vm_compute; by repeat constructor|]. split; [reflexivity|].
  eexists. split; [vm_compute; reflexivity|]. split; [reflexivity|].
  cbn. repeat constructor. discriminate.
Qed.

(** A varchar column without a max length stops the analysis: ordering
    [None] against 1000 raises. *)
Example analyze_schema_varchar_null_length :
  analyze_schema
    (snapshot_of_table "dbo.Customer"
       (mkTable "dbo" "Customer"
          [mkColumn "Notes" "varchar" None None None true None 1 None]))
  = Raise TypeError.
Proof. vm_compute. reflexivity. Qed.

End PerformanceAnalyzerExamples.

(** ** Orchestrator: the data phase *)

Section MigrationOrchestratorProperties.

Variable config_batch_size : option Z.
Variable extract_data : string → Z → Generator.
Variable load_data : string → DataFrame → result unit.

Lemma run_bind_events {A B} (P : Event → Prop) (m : Run A) (f : A → Run B) :
  Forall P m.1 → (∀ a, Forall P (f a).1) → Forall P (m ≫= f).1.
Proof.
  intros Hm Hf. destruct m as [events [a|e]]; cbn in *; [|done].
  specialize (Hf a). destruct (f a) as [events' r]. cbn in *.
  by apply Forall_app.
Qed.

(** *** No call reaches the loader in a dry run *)

Lemma process_batch_dry_no_load (table_name : string) (batch_num : Z)
    (data_batch : DataFrame) :
  Forall (λ e, ¬ is_load e) (process_batch true load_data table_name batch_num data_batch).1.
Proof.
  unfold process_batch. apply run_bind_events.
  - cbn. repeat constructor. by intros [].
  - intros converted. apply run_bind_events.
    + cbn. constructor.
    + intros _. cbn. repeat constructor. by intros [].
Qed.

Lemma for_batches_dry_no_load (table_name : string) (batch_num : Z)
    (data_generator : Generator) :
  Forall (λ e, ¬ is_load e) (for_batches true load_data table_name batch_num data_generator).1.
Proof.
  revert batch_num. induction data_generator as [|data_batch rest IH|e]; intros batch_num.
  - cbn. constructor.
  - cbn [for_batches]. apply run_bind_events.
    + apply process_batch_dry_no_load.
    + intros _. apply IH.
  - cbn. constructor.
Qed.

Lemma migrate_table_dry_no_load (batch_size : Z) (table_name : string) :
  Forall (λ e, ¬ is_load e)
         (migrate_table true extract_data load_data batch_size table_name).1.
Proof.
  unfold migrate_table. apply run_bind_events.
  - cbn. repeat constructor. by intros [].
  - intros _. apply run_bind_events.
    + cbn. repeat constructor. by intros [].
    + intros data_generator. apply for_batches_dry_no_load.
Qed.

Lemma for_tables_dry_no_load (batch_size : Z) (table_names : list string) :
  Forall (λ e, ¬ is_load e)
         (for_tables true extract_data load_data batch_size table_names).1.
Proof.
  induction table_names as [|table_name rest IH].
  - cbn. constructor.
  - cbn [for_tables]. apply run_bind_events.
    + apply migrate_table_dry_no_load.
    + intros _. apply IH.
Qed.

(** *** The extractor and the converter are still called *)

Lemma process_batch_dry (table_name : string) (batch_num : Z) (data_batch : DataFrame) :
  NoDup (columns data_batch) →
  process_batch true load_data table_name batch_num data_batch
  = (dry_batch_events table_name batch_num data_batch, Ok tt).
Proof.
  intros Hnodup. unfold process_batch, call_convert_batch.
  rewrite convert_batch_unique by done. reflexivity.
Qed.

Lemma for_batches_dry (table_name : string) (batch_num : Z) (data_generator : Generator) :
  completes data_generator →
  Forall (λ data_batch, NoDup (columns data_batch)) (yielded data_generator) →
  for_batches true load_data table_name batch_num data_generator
  = (dry_batches_events table_name batch_num (yielded data_generator), Ok tt).
Proof.
  revert batch_num.
  induction data_generator as [|data_batch rest IH|e]; intros batch_num Hcompletes Hbatches.
  - reflexivity.
  - cbn [yielded] in Hbatches. apply Forall_cons in Hbatches as [Hbatch Hrest].
    cbn [for_batches yielded dry_batches_events].
    rewrite process_batch_dry by done.
    rewrite (IH (batch_num + 1)) by done. reflexivity.
  - destruct Hcompletes.
Qed.

Lemma migrate_table_dry (batch_size : Z) (table_name : string) :
  well_behaved extract_data batch_size table_name →
  migrate_table true extract_data load_data batch_size table_name
  = (dry_table_events extract_data batch_size table_name, Ok tt).
Proof.
  intros [Hcompletes Hbatches]. unfold migrate_table, call_extract_data.
  cbn. rewrite for_batches_dry by done. reflexivity.
Qed.

Lemma for_tables_dry (batch_size : Z) (table_names : list string) :
  Forall (well_behaved extract_data batch_size) table_names →
  for_tables true extract_data load_data batch_size table_names
  = (table_names ≫= dry_table_events extract_data batch_size, Ok tt).
Proof.
  induction table_names as [|table_name rest IH]; intros Hwell.
  - reflexivity.
  - apply Forall_cons in Hwell as [Htable Hrest].
    cbn [for_tables]. rewrite migrate_table_dry by done.
    rewrite IH by done. reflexivity.
Qed.

Lemma dry_batches_events_convert (table_name : string) (batch_num : Z)
    (batches : list DataFrame) (data_batch : DataFrame) :
  data_batch ∈ batches →
  CallConvertBatch data_batch table_name ∈ dry_batches_events table_name batch_num batches.
Proof.
  revert batch_num. induction batches as [|b rest IH]; intros batch_num Hin.
  - by apply elem_of_nil in Hin.
  - cbn [dry_batches_events]. apply elem_of_app.
    apply elem_of_cons in Hin as [->|Hin].
    + left. left.
    + right. by apply IH.
Qed.


End MigrationOrchestratorProperties.

Section MigrationOrchestratorExamples.


(** The same run, event by event. *)
Example migrate_data_dry_run_customer :
  _migrate_data (Some 500) true extract_customer load_accepting
                snapshot_varchar converted_empty
  = ([Log (mkLogRecord INFO "Migrating data for table: dbo.Customer");
      CallExtractData "dbo.Customer" 500;
      CallConvertBatch batch_customer "dbo.Customer";
      Log (mkLogRecord DEBUG "Processed batch 1 for dbo.Customer")],
     Ok tt).
Proof. vm_compute. reflexivity. Qed.

(** Outside dry-run mode the converted batch goes to the loader, and the
    batch size defaults to 10000. *)
Example migrate_data_real_run_customer :
  _migrate_data None false extract_customer load_accepting
                snapshot_varchar converted_empty
  = ([Log (mkLogRecord INFO "Migrating data for table: dbo.Customer");
      CallExtractData "dbo.Customer" 10000;
      CallConvertBatch batch_customer "dbo.Customer";
      CallLoadData "dbo.Customer" (converted_frame batch_customer);
      Log (mkLogRecord DEBUG "Processed batch 1 for dbo.Customer")],
     Ok tt).
Proof. vm_compute. reflexivity. Qed.

(** A failure of the extractor ends the phase: the exception goes up. *)
Example migrate_data_extractor_failure :
  _migrate_data None true extract_failing load_accepting
                snapshot_varchar converted_empty
  = ([Log (mkLogRecord INFO "Migrating data for table: dbo.Customer");
      CallExtractData "dbo.Customer" 10000],
     Raise (ExtractionError "connection lost")).
Proof. vm_compute. reflexivity. Qed.

End MigrationOrchestratorExamples.

(** * Further properties *)

(** ** Schema converter: the remaining type rules *)

Section ConvertColumnRules.

(** X1. A character column with a length that is neither null, nor zero, nor the
    sentinel -1 gets the mapped type followed by the length in parentheses. *)
Theorem convert_column_bounded_length (column : ColumnDefinition) (n : Z) :
  lower (col_data_type column) ∈ character_types →
  col_max_length column = Some n →
  n ≠ 0 → n ≠ -1 →
  ∃ mapped,
    data_type_mapping !! lower (col_data_type column) = Some mapped ∧
    cc_data_type (_convert_column column).1 = mapped +:+ "(" +:+ pretty n +:+ ")".
Proof.
  unfold character_types. intros Htype Hlen Hzero Hmax. unfold _convert_column.
  rewrite (character_not_decimal _ Htype), andb_false_r.
  pose proof Htype as Hin. apply in_list_true in Hin. rewrite Hin, Hlen.
  assert (Htruthy : truthy_int (Some n) = true).
  { cbn. apply negb_true_iff, Z.eqb_neq, Hzero. }
  rewrite Htruthy. cbn [andb].
  rewrite bool_decide_eq_false_2 by congruence.
  assert (Hmapped : ∃ mapped, data_type_mapping !! lower (col_data_type column) = Some mapped).
  { repeat (apply elem_of_cons in Htype as [-> | Htype]; [by eexists |]).
    by apply elem_of_nil in Htype. }
  destruct Hmapped as [mapped Hmapped]. exists mapped. split; [done|].
  by rewrite Hmapped.
Qed.

Lemma convert_column_bounded_length_witness :
  ∃ mapped,
    data_type_mapping !! lower (col_data_type column_nvarchar_50) = Some mapped ∧
    cc_data_type (_convert_column column_nvarchar_50).1 = mapped +:+ "(" +:+ pretty 50 +:+ ")".
Proof.
  apply (convert_column_bounded_length column_nvarchar_50 50).
  - vm_compute. by repeat constructor.
  - reflexivity.
  - lia.
  - lia.
Defined.

(** For every other type the length, the precision and the scale are ignored:
    the converted type is the mapped type as it stands, or [TEXT] for an
    unknown type. *)
Theorem convert_column_other_types (column : ColumnDefinition) :
  lower (col_data_type column) ∉ character_types →
  lower (col_data_type column) ∉ decimal_types →
  cc_data_type (_convert_column column).1
  = default "TEXT" (data_type_mapping !! lower (col_data_type column)).
Proof.
  unfold character_types, decimal_types. intros Hchar Hdec. unfold _convert_column.
  apply in_list_false in Hchar, Hdec. rewrite Hchar, Hdec, !andb_false_r.
  by destruct (data_type_mapping !! lower (col_data_type column)).
Qed.

Lemma convert_column_other_types_witness :
  cc_data_type (_convert_column column_varbinary_max).1
  = default "TEXT" (data_type_mapping !! lower (col_data_type column_varbinary_max)).
Proof.
  apply (convert_column_other_types column_varbinary_max).
  - apply (bool_decide_unpack (lower (col_data_type column_varbinary_max) ∉ character_types)).
    vm_compute. exact I.
  - apply (bool_decide_unpack (lower (col_data_type column_varbinary_max) ∉ decimal_types)).
    vm_compute. exact I.
Defined.

Example convert_column_varbinary_max :
  cc_data_type (_convert_column column_varbinary_max).1 = "BYTEA".
Proof. reflexivity. Qed.

End ConvertColumnRules.

(** ** Schema converter: default values *)

Section ConvertDefaultValue.

Lemma lstrip_first_char (chars s : string) (c : ascii) :
  first_char (lstrip chars s) = Some c → char_in c chars = false.
Proof.
  induction s as [|a s IH]; cbn [lstrip]; [discriminate|].
  destruct (char_in a chars) eqn:Ha; [exact IH|].
  cbn. intros [= <-]. exact Ha.
Qed.

Lemma lstrip_fixed (chars s : string) :
  (∀ c, first_char s = Some c → char_in c chars = false) → lstrip chars s = s.
Proof.
  destruct s as [|a s]; [done|]. intros Hfirst. cbn.
  by rewrite (Hfirst a).
Qed.

Lemma rstrip_first_char (chars s : string) (c : ascii) :
  first_char (rstrip chars s) = Some c → first_char s = Some c.
Proof.
  destruct s as [|a s]; cbn [rstrip]; [done|].
  destruct (rstrip chars s); [destruct (char_in a chars)|]; cbn; done.
Qed.

Lemma rstrip_cons (chars s : string) (a : ascii) :
  rstrip chars (String a s) =
    match rstrip chars s with
    | EmptyString => if char_in a chars then EmptyString else String a EmptyString
    | r => String a r
    end.
Proof. reflexivity. Qed.

Lemma rstrip_idempotent (chars s : string) :
  rstrip chars (rstrip chars s) = rstrip chars s.
Proof.
  induction s as [|a s IH]; [done|]. rewrite rstrip_cons.
  destruct (rstrip chars s) as [|b r] eqn:Hr.
  - destruct (char_in a chars) eqn:Ha; [done|]. cbn. by rewrite Ha.
  - by rewrite rstrip_cons, IH.
Qed.

(** Stripping twice is stripping once. *)
Lemma strip_idempotent (chars s : string) :
  strip chars (strip chars s) = strip chars s.
Proof.
  unfold strip.
  rewrite (lstrip_fixed chars (rstrip chars (lstrip chars s))).
  - apply rstrip_idempotent.
  - intros c Hc. apply rstrip_first_char in Hc. by apply lstrip_first_char in Hc.
Qed.

(** Which entry of the table applies to a stripped default: [system_user],
    or none. *)
Lemma first_conversion_stripped (s : string) :
  first_conversion (strip "()" s) default_conversions =
    if String.eqb (lower (strip "()" s)) "system_user" then Some "CURRENT_USER" else None.
Proof.
  pose proof (stripped_never_ends_with_rparen s) as Hlast.
  unfold default_conversions. cbn [first_conversion].
  repeat
    (destruct (String.eqb (lower (strip "()" s)) _) eqn:Heq;
     [apply String.eqb_eq in Heq;
      first [ by (rewrite Heq in Hlast; exfalso; apply Hlast) | done ]
     | try clear Heq ]).
  done.
Qed.

(** X2. A default that is not empty comes back stripped of its leading and
    trailing parentheses, unless what is left reads [system_user] in some
    letter case, which becomes [CURRENT_USER].  None of the entries
    [getdate()], [getutcdate()], [newid()] and [user_name()] is ever applied. *)
Theorem convert_default_value_nonempty (s : string) :
  s ≠ "" →
  _convert_default_value (Some s) =
    Some (if String.eqb (lower (strip "()" s)) "system_user" then "CURRENT_USER"
          else strip "()" s).
Proof.
  intros Hs. unfold _convert_default_value.
  destruct s as [|a s]; [done|]. cbn [truthy_str negb].
  change (default "" (Some (String a s))) with (String a s).
  rewrite first_conversion_stripped.
  by destruct (String.eqb (lower (strip "()" (String a s))) "system_user").
Qed.

Lemma convert_default_value_nonempty_witness :
  _convert_default_value (Some "((System_User))") =
    Some (if String.eqb (lower (strip "()" "((System_User))")) "system_user"
          then "CURRENT_USER" else strip "()" "((System_User))").
Proof.
  apply (convert_default_value_nonempty "((System_User))"). discriminate.
Defined.

(** X3. No translated default starts or ends with a parenthesis: stripping the
    result changes nothing.  An expression such as [(a)+(b)] therefore comes
    back as [a)+(b]. *)
Theorem convert_default_value_stripped (default_value : option string) (r : string) :
  _convert_default_value default_value = Some r →
  strip "()" r = r.
Proof.
  unfold _convert_default_value.
  destruct (negb (truthy_str default_value)); [discriminate|].
  rewrite first_conversion_stripped.
  destruct (String.eqb (lower (strip "()" (default "" default_value))) "system_user");
    intros [= <-].
  - reflexivity.
  - apply strip_idempotent.
Qed.

Lemma convert_default_value_stripped_witness :
  strip "()" "a)+(b" = "a)+(b".
Proof.
  apply (convert_default_value_stripped (Some "(a)+(b)") "a)+(b"). reflexivity.
Defined.

End ConvertDefaultValue.

(** ** Schema converter: tables, views and the log *)

Section ConvertStructure.

Lemma convert_column_fields (column : ColumnDefinition) :
  cc_name (_convert_column column).1 = col_name column ∧
  cc_is_nullable (_convert_column column).1 = col_is_nullable column ∧
  cc_ordinal_position (_convert_column column).1 = col_ordinal_position column ∧
  cc_default_value (_convert_column column).1
  = _convert_default_value (col_default_value column).
Proof.
  unfold _convert_column.
  by destruct (data_type_mapping !! lower (col_data_type column)).
Qed.

(** X4. The converted tables are the tables of the snapshot, under the same keys;
    each keeps its schema and name, and its columns keep their number, order,
    names, nullability and ordinal positions. *)
Theorem convert_tables_preserves_structure (tables : gmap string TableDefinition) :
  dom (_convert_tables tables).1 = dom tables ∧
  ∀ table_key table_info,
    tables !! table_key = Some table_info →
    ∃ converted_table,
      (_convert_tables tables).1 !! table_key = Some converted_table ∧
      ct_schema converted_table = tbl_schema table_info ∧
      ct_name converted_table = tbl_name table_info ∧
      cc_name <$> ct_columns converted_table = col_name <$> tbl_columns table_info ∧
      cc_is_nullable <$> ct_columns converted_table
        = col_is_nullable <$> tbl_columns table_info ∧
      cc_ordinal_position <$> ct_columns converted_table
        = col_ordinal_position <$> tbl_columns table_info.
Proof.
  split.
  - apply set_eq. intros k. rewrite !elem_of_dom, convert_tables_lookup.
    apply fmap_is_Some.
  - intros table_key table_info Hlookup. rewrite convert_tables_lookup, Hlookup.
    eexists. split; [reflexivity|]. cbn.
    repeat split; rewrite <- list_fmap_compose; apply list_fmap_ext;
      intros _ column _; cbn; apply convert_column_fields.
Qed.

Lemma convert_tables_preserves_structure_witness :
  ∃ converted_table,
    (_convert_tables (md_tables snapshot_customer)).1 !! "dbo.Customer"
      = Some converted_table ∧
    cc_name <$> ct_columns converted_table = col_name <$> tbl_columns table_customer.
Proof.
  destruct (convert_tables_preserves_structure (md_tables snapshot_customer))
    as [_ Hstructure].
  destruct (Hstructure "dbo.Customer" table_customer) as (ct & Hct & _ & _ & Hnames & _).
  - reflexivity.
  - exists ct. by split.
Defined.

(** The converted views, key by key: each view keeps its key, schema and
    name, and its body is the rewritten body. *)
Lemma convert_views_lookup (re_sub_ignorecase : string → string → string → string)
    (views : gmap string ViewDefinition) (view_key : string) :
  _convert_views re_sub_ignorecase views !! view_key =
    (λ view_info,
       {| cv_schema := view_schema view_info;
          cv_name := view_name view_info;
          cv_definition :=
            _convert_tsql_to_pgsql re_sub_ignorecase (view_definition view_info) |})
    <$> views !! view_key.
Proof.
  unfold _convert_views.
  apply (map_fold_weak_ind
           (λ (converted : gmap string ConvertedView) (m : gmap string ViewDefinition),
              converted !! view_key =
                (λ view_info,
                   {| cv_schema := view_schema view_info;
                      cv_name := view_name view_info;
                      cv_definition :=
                        _convert_tsql_to_pgsql re_sub_ignorecase
                                               (view_definition view_info) |})
                <$> m !! view_key)).
  - by rewrite !lookup_empty.
  - intros k view_info m converted Hfresh IH.
    destruct (decide (k = view_key)) as [->|Hne].
    + by rewrite !lookup_insert_eq.
    + by rewrite !lookup_insert_ne.
Qed.

(** What [_convert_column]s log for a list of columns. *)
Lemma convert_columns_log_sound (columns : list ColumnDefinition) (r : LogRecord) :
  r ∈ (convert_columns columns).2 →
  ∃ column,
    column ∈ columns ∧
    data_type_mapping !! lower (col_data_type column) = None ∧
    r = unknown_type_warning (lower (col_data_type column)).
Proof.
  induction columns as [|c rest IH]; [by intros ?%elem_of_nil|].
  cbn [convert_columns]. unfold mbind, Logged_bind.
  pose proof (convert_column_log c) as Hlog.
  destruct (_convert_column c) as [converted l1].
  destruct (convert_columns rest) as [converted_rest l2]. cbn [snd mret Logged_ret] in *.
  intros [Hin|[Hin|Hin]%elem_of_app]%elem_of_app; [| |by apply elem_of_nil in Hin].
  - exists c. rewrite Hlog in Hin.
    destruct (data_type_mapping !! lower (col_data_type c)); [by apply elem_of_nil in Hin|].
    apply list_elem_of_singleton in Hin. split; [left|done].
  - destruct (IH Hin) as (column & Hcolumn & Hnone & ->).
    exists column. split; [by right|done].
Qed.

Lemma convert_tables_log_sound (tables : gmap string TableDefinition) (r : LogRecord) :
  r ∈ (_convert_tables tables).2 →
  ∃ table_key table_info column,
    tables !! table_key = Some table_info ∧
    column ∈ tbl_columns table_info ∧
    data_type_mapping !! lower (col_data_type column) = None ∧
    r = unknown_type_warning (lower (col_data_type column)).
Proof.
  unfold _convert_tables.
  apply (map_fold_weak_ind
           (λ (acc : Logged (gmap string ConvertedTable)) (m : gmap string TableDefinition),
              r ∈ acc.2 →
              ∃ table_key table_info column,
                m !! table_key = Some table_info ∧
                column ∈ tbl_columns table_info ∧
                data_type_mapping !! lower (col_data_type column) = None ∧
                r = unknown_type_warning (lower (col_data_type column)))).
  - by intros ?%elem_of_nil.
  - intros k info m [converted_tables log] Hfresh IH. cbn [snd] in IH.
    unfold mbind, Logged_bind.
    pose proof (convert_columns_log_sound (tbl_columns info) r) as Hsound.
    destruct (convert_columns (tbl_columns info)) as [columns log']. cbn [snd] in *.
    intros [Hin|[Hin|Hin]%elem_of_app]%elem_of_app; [| |by apply elem_of_nil in Hin].
    + destruct (IH Hin) as (table_key & table_info & column & Hlookup & Hrest).
      exists table_key, table_info, column. split; [|done].
      rewrite lookup_insert_ne; [done|]. intros ->. congruence.
    + destruct (Hsound Hin) as (column & Hrest).
      exists k, info, column. split; [|done]. by rewrite lookup_insert_eq.
Qed.

(** X5. The log of [convert] holds the warnings for the columns of unknown type,
    and nothing else: a record is in the log exactly when it is the warning of
    such a column of a table of the snapshot. *)
Theorem convert_log_unknown_types {Any : Type}
    (re_sub_ignorecase : string → string → string → string)
    (metadata : SchemaSnapshot Any) (r : LogRecord) :
  r ∈ (convert re_sub_ignorecase metadata).2 ↔
  ∃ table_key table_info column,
    md_tables metadata !! table_key = Some table_info ∧
    column ∈ tbl_columns table_info ∧
    data_type_mapping !! lower (col_data_type column) = None ∧
    r = unknown_type_warning (lower (col_data_type column)).
Proof.
  assert (Hlog : (convert re_sub_ignorecase metadata).2
                 = (_convert_tables (md_tables metadata)).2).
  { unfold convert, mbind, Logged_bind.
    destruct (_convert_tables (md_tables metadata)) as [tables log]. cbn.
    by rewrite (right_id_L [] app). }
  rewrite Hlog. split.
  - apply convert_tables_log_sound.
  - intros (table_key & table_info & column & Hlookup & Hcolumn & Hnone & ->).
    by apply (convert_tables_logs_unknown_type _ table_key table_info).
Qed.

Example convert_log_customer :
  (convert re_sub_nothing snapshot_customer).2
  = [unknown_type_warning "geography"].
Proof. vm_compute. reflexivity. Qed.

End ConvertStructure.

(** ** Data converter: outcome and cells *)

Section ConvertBatchOutcome.

Lemma label_in_filter (cols : list (string * Series)) (label : string) :
  label ∈ cols.*1 → filter (λ c, c.1 = label) cols ≠ [].
Proof.
  intros ([l s] & -> & Hin)%list_elem_of_fmap Hnil.
  by apply (filter_nil_not_elem_of _ _ (l, s) Hnil).
Qed.

(** A turn of the loop on a label of the frame either converts, keeping the
    labels, or raises [AttributeError]. *)
Lemma convert_step_outcome (table_name : string) (df : DataFrame) (label : string) :
  label ∈ columns df →
  (∃ df', convert_step table_name df label = Ok df' ∧ columns df' = columns df) ∨
  convert_step table_name df label = Raise AttributeError.
Proof.
  intros Hin. pose proof (label_in_filter _ _ Hin) as Hfilter.
  unfold convert_step, getitem.
  destruct (filter (λ c, c.1 = label) (labelled df)) as [|[l s] [|c rest]]; [done| |].
  - left. cbn [mbind result_bind]. rewrite convert_column_data_series.
    cbn [mbind result_bind mret result_ret]. eexists. split; [done|].
    by apply setitem_columns.
  - by right.
Qed.

Lemma for_each_convert_step_outcome (table_name : string) (labels : list string)
    (df : DataFrame) :
  labels ⊆ columns df →
  (∃ df', for_each (convert_step table_name) df labels = Ok df') ∨
  for_each (convert_step table_name) df labels = Raise AttributeError.
Proof.
  revert df. induction labels as [|label rest IH]; intros df Hsub.
  - left. by eexists.
  - cbn [for_each].
    destruct (convert_step_outcome table_name df label) as [(df' & -> & Hcols)| ->].
    + apply Hsub. left.
    + cbn [mbind result_bind]. apply IH. rewrite Hcols.
      intros l Hl. apply Hsub. by right.
    + by right.
Qed.




(** In a column of any dtype other than [object] and [bool] (integers,
    floats, timestamps, durations) every cell comes back as it was. *)
Theorem convert_batch_other_cells (data_batch : DataFrame) (table_name : string)
    (i row : nat) (d : Dtype) :
  NoDup (columns data_batch) →
  column_dtype data_batch i = Some d →
  d ≠ DObject → d ≠ DBool →
  ∃ converted_batch,
    convert_batch data_batch table_name = Ok converted_batch ∧
    cell converted_batch i row = cell data_batch i row.
Proof.
  intros Hnodup Hdtype Hobject Hbool. exists (converted_frame data_batch).
  split; [by apply convert_batch_unique|].
  rewrite converted_frame_cell, Hdtype. cbn [mbind option_bind].
  destruct (cell data_batch i row) as [v|]; [|done]. cbn. f_equal.
  unfold converted_value.
  destruct d as [| | | |[tz|]|]; done.
Qed.

Lemma convert_batch_other_cells_witness :
  ∃ converted_batch,
    convert_batch batch_customer "dbo.Customer" = Ok converted_batch ∧
    cell converted_batch 3 1 = cell batch_customer 3 1.
Proof.
  apply (convert_batch_other_cells batch_customer "dbo.Customer" 3 1 (DDatetime64 None)).
  - apply (bool_decide_unpack (NoDup (columns batch_customer))). vm_compute. exact I.
  - reflexivity.
  - discriminate.
  - discriminate.
Defined.

End ConvertBatchOutcome.

(** ** Performance analyzer: indexing, partitioning and failure *)

Section PerformanceAnalyzerFurther.
Context {Any : Type}.

(** A loop that appends to a list what each item contributes. *)
Lemma foldl_append {A B : Type} (f : list B → A → list B) (g : A → list B)
    (items : list A) (acc : list B) :
  (∀ acc item, f acc item = (acc ++ g item)%list) →
  foldl f acc items = (acc ++ (items ≫= g))%list.
Proof.
  intros Hf. revert acc. induction items as [|item rest IH]; intros acc; cbn [foldl].
  - change ([] ≫= g) with (@nil B). by rewrite (right_id_L [] app).
  - rewrite IH, Hf, bind_cons. by rewrite <- (assoc_L app).
Qed.

Lemma analyze_indexing_closed (metadata : SchemaSnapshot Any) :
  _analyze_indexing metadata =
    map_to_list (md_tables metadata) ≫= λ entry,
      if has_primary_key_column entry.2 then []
      else [missing_primary_key_recommendation entry.1].
Proof.
  unfold _analyze_indexing. apply (foldl_append _ _ _ []).
  intros recommendations [table_key table_info]. cbn [fst snd].
  unfold has_primary_key_column.
  destruct (existsb _ (tbl_columns table_info)); cbn [negb]; [|done].
  by rewrite (right_id_L [] app).
Qed.

(** X8. A table is reported as lacking a primary key exactly when none of its
    columns carries a true [is_primary_key] entry; the index list of the
    snapshot plays no part, so a table whose primary key is known from its
    index only is reported all the same. *)
Theorem analyze_indexing_reports (metadata : SchemaSnapshot Any) (r : Recommendation) :
  r ∈ _analyze_indexing metadata ↔
  ∃ table_key table_info,
    md_tables metadata !! table_key = Some table_info ∧
    has_primary_key_column table_info = false ∧
    r = missing_primary_key_recommendation table_key.
Proof.
  rewrite analyze_indexing_closed, list_elem_of_bind. split.
  - intros ([table_key table_info] & Hr & Hentry%elem_of_map_to_list).
    cbn [fst snd] in Hr. exists table_key, table_info.
    destruct (has_primary_key_column table_info); [by apply elem_of_nil in Hr|].
    by apply list_elem_of_singleton in Hr.
  - intros (table_key & table_info & Hlookup & Hpk & ->).
    exists (table_key, table_info). split; [|by apply elem_of_map_to_list].
    cbn [fst snd]. rewrite Hpk. left.
Qed.

Lemma analyze_partitioning_closed (metadata : SchemaSnapshot Any) :
  _analyze_partitioning metadata =
    map_to_list (md_tables metadata) ≫= λ entry,
      match date_columns entry.2 with
      | first :: _ => [partitioning_recommendation entry.1 first]
      | [] => []
      end.
Proof.
  unfold _analyze_partitioning. apply (foldl_append _ _ _ []).
  intros recommendations [table_key table_info]. cbn [fst snd].
  unfold date_columns.
  destruct (filter _ (tbl_columns table_info)); [|done].
  by rewrite (right_id_L [] app).
Qed.

(** X9. A table gets a partitioning recommendation exactly when it has a column
    of type datetime, datetime2 or date (in any letter case), and the
    recommendation names the first such column in column order. *)
Theorem analyze_partitioning_reports (metadata : SchemaSnapshot Any) (r : Recommendation) :
  r ∈ _analyze_partitioning metadata ↔
  ∃ table_key table_info first others,
    md_tables metadata !! table_key = Some table_info ∧
    date_columns table_info = first :: others ∧
    r = partitioning_recommendation table_key first.
Proof.
  rewrite analyze_partitioning_closed, list_elem_of_bind. split.
  - intros ([table_key table_info] & Hr & Hentry%elem_of_map_to_list).
    cbn [fst snd] in Hr.
    destruct (date_columns table_info) as [|first others] eqn:Hdates;
      [by apply elem_of_nil in Hr|].
    apply list_elem_of_singleton in Hr. by exists table_key, table_info, first, others.
  - intros (table_key & table_info & first & others & Hlookup & Hdates & ->).
    exists (table_key, table_info). split; [|by apply elem_of_map_to_list].
    cbn [fst snd]. rewrite Hdates. left.
Qed.

(** *** When the analysis raises *)

Lemma analyze_columns_outcome (table_key : string) (columns : list ColumnDefinition)
    (recommendations : list Recommendation) :
  (Forall comparable columns ∧
   ∃ recommendations', analyze_columns table_key columns recommendations
                       = Ok recommendations') ∨
  (¬ Forall comparable columns ∧
   analyze_columns table_key columns recommendations = Raise TypeError).
Proof.
  revert recommendations. induction columns as [|column rest IH]; intros recommendations.
  - left. split; [constructor|by eexists].
  - cbn [analyze_columns].
    destruct (in_list (lower (col_data_type column)) ["varchar"; "nvarchar"]) eqn:Htype.
    + destruct (col_max_length column) as [n|] eqn:Hlen.
      * assert (Hov : is_oversized_varchar column = Ok (1000 <? n))
          by (unfold is_oversized_varchar; by rewrite Htype, Hlen).
        rewrite Hov. cbn [mbind result_bind].
        destruct (IH (if 1000 <? n
                      then (recommendations
                            ++ [oversized_varchar_recommendation table_key column])%list
                      else recommendations)) as [[Hrest Hok]|[Hrest Hraise]].
        -- left. split; [|exact Hok]. constructor; [|done].
           intros _. rewrite Hlen. by eexists.
        -- right. split; [|exact Hraise]. by intros [_ ?]%Forall_cons.
      * assert (Hov : is_oversized_varchar column = Raise TypeError)
          by (unfold is_oversized_varchar; by rewrite Htype, Hlen).
        rewrite Hov. cbn [mbind result_bind].
        right. split; [|done]. intros [Hcolumn _]%Forall_cons.
        apply in_list_true in Htype. destruct (Hcolumn Htype) as [n Hn]. congruence.
    + assert (Hov : is_oversized_varchar column = Ok false)
        by (unfold is_oversized_varchar; by rewrite Htype).
      rewrite Hov. cbn [mbind result_bind].
      destruct (IH recommendations) as [[Hrest Hok]|[Hrest Hraise]].
      * left. split; [|exact Hok]. constructor; [|done].
        intros Hin. apply in_list_true in Hin. congruence.
      * right. split; [|exact Hraise]. by intros [_ ?]%Forall_cons.
Qed.

Lemma analyze_tables_outcome (tables : list (string * TableDefinition))
    (recommendations : list Recommendation) :
  (Forall (λ entry, Forall comparable (tbl_columns entry.2)) tables ∧
   ∃ recommendations', analyze_tables tables recommendations = Ok recommendations') ∨
  (¬ Forall (λ entry, Forall comparable (tbl_columns entry.2)) tables ∧
   analyze_tables tables recommendations = Raise TypeError).
Proof.
  revert recommendations.
  induction tables as [|[table_key table_info] rest IH]; intros recommendations.
  - left. split; [constructor|by eexists].
  - cbn [analyze_tables].
    destruct (analyze_columns_outcome table_key (tbl_columns table_info) recommendations)
      as [[Htable [recommendations' ->]]|[Htable ->]]; cbn [mbind result_bind].
    + destruct (IH recommendations') as [[Hrest Hok]|[Hrest Hraise]].
      * left. split; [|exact Hok]. by constructor.
      * right. split; [|exact Hraise]. by intros [_ ?]%Forall_cons.
    + right. split; [|done]. by intros [? _]%Forall_cons.
Qed.

(** X10. [analyze_schema] returns a report exactly when every varchar and nvarchar
    column of the snapshot has a max length; when one of them has none, it
    raises [TypeError] and no part of the report is returned. *)
Theorem analyze_schema_outcome (metadata : SchemaSnapshot Any) :
  (snapshot_comparable metadata ∧ ∃ report, analyze_schema metadata = Ok report) ∨
  (¬ snapshot_comparable metadata ∧ analyze_schema metadata = Raise TypeError).
Proof.
  assert (Hiff : snapshot_comparable metadata ↔
                 Forall (λ entry, Forall comparable (tbl_columns entry.2))
                        (map_to_list (md_tables metadata))).
  { rewrite Forall_forall. split.
    - intros Hcmp [table_key table_info] Hin%elem_of_map_to_list.
      by apply (Hcmp table_key).
    - intros Hall table_key table_info Hlookup.
      by apply (Hall (table_key, table_info)), elem_of_map_to_list. }
  unfold analyze_schema, _analyze_data_types.
  destruct (analyze_tables_outcome (map_to_list (md_tables metadata)) [])
    as [[Hall [recommendations ->]]|[Hall ->]]; cbn [mbind result_bind].
  - left. split; [by apply Hiff|by eexists].
  - right. split; [|done]. by rewrite Hiff.
Qed.

End PerformanceAnalyzerFurther.

Section PerformanceAnalyzerFurtherExamples.

Lemma analyze_indexing_reports_witness :
  missing_primary_key_recommendation "dbo.Orders" ∈ _analyze_indexing snapshot_orders.
Proof.
  apply (analyze_indexing_reports snapshot_orders).
  exists "dbo.Orders", table_orders. repeat split.
Defined.

Lemma analyze_partitioning_reports_witness :
  ∃ first others,
    date_columns table_orders = first :: others ∧
    col_name first = "Shipped" ∧
    partitioning_recommendation "dbo.Orders" first ∈ _analyze_partitioning snapshot_orders.
Proof.
  eexists _, _. split; [vm_compute; reflexivity|]. split; [reflexivity|].
  apply (analyze_partitioning_reports snapshot_orders).
  eexists "dbo.Orders", table_orders, _, _. repeat split.
Defined.

Lemma analyze_schema_data_types_sound_witness :
  ∃ table_key table_info column,
    md_tables snapshot_varchar !! table_key = Some table_info ∧
    column ∈ tbl_columns table_info ∧
    oversized column = true ∧
    oversized_varchar_recommendation "dbo.Customer" column_notes_varchar_4000
      = oversized_varchar_recommendation table_key column.
Proof.
  apply (analyze_schema_data_types_sound snapshot_varchar
           {| indexing := _analyze_indexing snapshot_varchar;
              partitioning := _analyze_partitioning snapshot_varchar;
              data_types := [oversized_varchar_recommendation "dbo.Customer"
                                                               column_notes_varchar_4000];
              constraints := [] |}).
  - intros table_key table_info Hlookup.
    unfold snapshot_varchar, snapshot_of_table in Hlookup. cbn [md_tables] in Hlookup.
    apply lookup_singleton_Some in Hlookup as [_ <-].
    repeat constructor; intros Htype; vm_compute; eauto.
    vm_compute in Htype.
    repeat (apply elem_of_cons in Htype as [Htype|Htype]; [discriminate Htype|]).
    by apply elem_of_nil in Htype.
  - vm_compute. reflexivity.
  - left.
Defined.

End PerformanceAnalyzerFurtherExamples.

(** ** Orchestrator: what reaches the loader *)

Section MigrateDataLoads.

Variable config_batch_size : option Z.
Variable dry_run : bool.
Variable extract_data : string → Z → Generator.
Variable load_data : string → DataFrame → result unit.

Lemma run_bind_closed {A B} (P : list Event → Prop) (m : Run A) (f : A → Run B) :
  (∀ l1 l2, P l1 → P l2 → P (l1 ++ l2)%list) →
  P m.1 → (∀ a, P (f a).1) → P (m ≫= f).1.
Proof.
  intros Happ Hm Hf. destruct m as [events [a|e]]; cbn in *; [|done].
  specialize (Hf a). destruct (f a) as [events' r]. cbn in *. by apply Happ.
Qed.

Lemma loads_follow_conversions_app (l1 l2 : list Event) :
  loads_follow_conversions l1 → loads_follow_conversions l2 →
  loads_follow_conversions (l1 ++ l2).
Proof.
  intros H1 H2 table_name data [Hin|Hin]%elem_of_app.
  - destruct (H1 _ _ Hin) as (before & after & data_batch & -> & Hconv).
    exists before, (after ++ l2)%list, data_batch. split; [|done].
    by rewrite <- (assoc_L app).
  - destruct (H2 _ _ Hin) as (before & after & data_batch & -> & Hconv).
    exists (l1 ++ before)%list, after, data_batch. split; [|done].
    by rewrite <- (assoc_L app).
Qed.

Lemma loads_follow_conversions_none (events : list Event) :
  Forall (λ e, ¬ is_load e) events → loads_follow_conversions events.
Proof.
  intros Hnone table_name data Hin. rewrite Forall_forall in Hnone.
  by destruct (Hnone _ Hin).
Qed.

Lemma process_batch_loads (table_name : string) (batch_num : Z) (data_batch : DataFrame) :
  loads_follow_conversions
    (process_batch dry_run load_data table_name batch_num data_batch).1.
Proof.
  unfold process_batch, call_convert_batch.
  destruct (DataConverter.convert_batch data_batch table_name) as [converted|e] eqn:Hconv.
  - destruct dry_run.
    + apply loads_follow_conversions_none. cbn. repeat constructor; by intros [].
    + assert (Hpair : loads_follow_conversions
                        [CallConvertBatch data_batch table_name;
                         CallLoadData table_name converted]).
      { intros t d Hin.
        apply elem_of_cons in Hin as [[=]|Hin].
        apply list_elem_of_singleton in Hin as [= -> ->].
        by exists [], [], data_batch. }
      unfold call_load_data. cbn.
      destruct (load_data table_name converted); cbn; [|exact Hpair].
      apply (loads_follow_conversions_app [_; _] [_]); [exact Hpair|].
      apply loads_follow_conversions_none. repeat constructor. by intros [].
  - apply loads_follow_conversions_none. cbn. repeat constructor. by intros [].
Qed.

Lemma for_batches_loads (table_name : string) (batch_num : Z) (data_generator : Generator) :
  loads_follow_conversions
    (for_batches dry_run load_data table_name batch_num data_generator).1.
Proof.
  revert batch_num. induction data_generator as [|data_batch rest IH|e]; intros batch_num.
  - by intros t d ?%elem_of_nil.
  - cbn [for_batches].
    apply run_bind_closed; [apply loads_follow_conversions_app| |intros _; apply IH].
    apply process_batch_loads.
  - by intros t d ?%elem_of_nil.
Qed.

Lemma for_tables_loads (batch_size : Z) (table_names : list string) :
  loads_follow_conversions
    (for_tables dry_run extract_data load_data batch_size table_names).1.
Proof.
  induction table_names as [|table_name rest IH].
  - by intros t d ?%elem_of_nil.
  - cbn [for_tables].
    apply run_bind_closed; [apply loads_follow_conversions_app| |intros _; apply IH].
    unfold migrate_table.
    apply run_bind_closed; [apply loads_follow_conversions_app| |intros _].
    { apply loads_follow_conversions_none. cbn. repeat constructor. by intros []. }
    apply run_bind_closed; [apply loads_follow_conversions_app| |intros g].
    { apply loads_follow_conversions_none. cbn. repeat constructor. by intros []. }
    apply for_batches_loads.
Qed.

(** X11. Whatever the mode and whatever the extractor and the loader do, the data
    handed to [load_data] is always what [convert_batch] returned for a batch
    of the same table, and the call to the loader comes right after that call
    to the converter: raw batches never reach the target. *)
Theorem migrate_data_loads_converted {Any : Type}
    (source_metadata : SchemaSnapshot Any) (target_schema : ConvertedSchema Any)
    (table_name : string) (data : DataFrame) :
  let run := _migrate_data config_batch_size dry_run extract_data load_data
                           source_metadata target_schema in
  CallLoadData table_name data ∈ run.1 →
  ∃ before after data_batch,
    run.1 = (before ++ CallConvertBatch data_batch table_name
                    :: CallLoadData table_name data :: after)%list ∧
    DataConverter.convert_batch data_batch table_name = Ok data.
Proof.
  intros run. apply for_tables_loads.
Qed.

(** *** A load that fails *)

Lemma load_failure_is_final_bind {A B} (m : Run A) (f : A → Run B) :
  load_failure_is_final load_data m →
  (∀ a, load_failure_is_final load_data (f a)) →
  load_failure_is_final load_data (m ≫= f).
Proof.
  unfold load_failure_is_final.
  intros Hm Hf i table_name data e. destruct m as [events [a|e']]; cbn.
  - specialize (Hf a). destruct (f a) as [events' r]. cbn in *.
    intros Hi Hload.
    destruct (decide (i < length events)%nat) as [Hlt|Hge].
    + rewrite lookup_app_l in Hi by done.
      by destruct (Hm i table_name data e Hi Hload) as [? _].
    + rewrite lookup_app_r in Hi by lia.
      destruct (Hf _ _ _ _ Hi Hload) as [Hr Hlen]. cbn [fst snd] in *.
      split; [done|]. rewrite length_app. lia.
  - intros Hi Hload. destruct (Hm i table_name data e Hi Hload) as [[= ->] Hlen].
    by split.
Qed.

Lemma load_failure_is_final_quiet {A} (r : Run A) :
  Forall (λ e, ¬ is_load e) r.1 → load_failure_is_final load_data r.
Proof.
  intros Hnone i table_name data e Hi _. rewrite Forall_forall in Hnone.
  apply list_elem_of_lookup_2 in Hi. by destruct (Hnone _ Hi).
Qed.

Lemma process_batch_load_failure (table_name : string) (batch_num : Z)
    (data_batch : DataFrame) :
  load_failure_is_final load_data
    (process_batch dry_run load_data table_name batch_num data_batch).
Proof.
  unfold process_batch. apply load_failure_is_final_bind.
  - apply load_failure_is_final_quiet. cbn. repeat constructor. by intros [].
  - intros converted. apply load_failure_is_final_bind.
    + destruct dry_run; cbn [negb].
      * apply load_failure_is_final_quiet. constructor.
      * unfold load_failure_is_final, call_load_data.
        intros [|i] t d e; cbn [fst snd]; [|intros Hi; destruct i; discriminate Hi].
        intros [= -> ->] Hload. by rewrite Hload.
    + intros _. apply load_failure_is_final_quiet. cbn. repeat constructor. by intros [].
Qed.

Lemma for_batches_load_failure (table_name : string) (batch_num : Z)
    (data_generator : Generator) :
  load_failure_is_final load_data
    (for_batches dry_run load_data table_name batch_num data_generator).
Proof.
  revert batch_num. induction data_generator as [|data_batch rest IH|e]; intros batch_num.
  - apply load_failure_is_final_quiet. constructor.
  - cbn [for_batches]. apply load_failure_is_final_bind.
    + apply process_batch_load_failure.
    + intros _. apply IH.
  - apply load_failure_is_final_quiet. constructor.
Qed.

Lemma for_tables_load_failure (batch_size : Z) (table_names : list string) :
  load_failure_is_final load_data
    (for_tables dry_run extract_data load_data batch_size table_names).
Proof.
  induction table_names as [|table_name rest IH].
  - apply load_failure_is_final_quiet. constructor.
  - cbn [for_tables]. apply load_failure_is_final_bind; [|intros _; apply IH].
    unfold migrate_table. apply load_failure_is_final_bind; [|intros _].
    { apply load_failure_is_final_quiet. cbn. repeat constructor. by intros []. }
    apply load_failure_is_final_bind; [|intros g; apply for_batches_load_failure].
    apply load_failure_is_final_quiet. cbn. repeat constructor. by intros [].
Qed.

(** X12. A batch that the loader refuses ends the phase: the refused call is the
    last event of the run, no later batch or table is extracted, converted or
    loaded, and the loader's exception is the outcome. *)
Theorem migrate_data_load_failure_aborts {Any : Type}
    (source_metadata : SchemaSnapshot Any) (target_schema : ConvertedSchema Any)
    (i : nat) (table_name : string) (data : DataFrame) (e : Exn) :
  let run := _migrate_data config_batch_size dry_run extract_data load_data
                           source_metadata target_schema in
  run.1 !! i = Some (CallLoadData table_name data) →
  load_data table_name data = Raise e →
  run.2 = Raise e ∧ length run.1 = S i.
Proof.
  intros run. apply for_tables_load_failure.
Qed.

End MigrateDataLoads.

Section MigrateDataRealRun.

Variable config_batch_size : option Z.
Variable extract_data : string → Z → Generator.
Variable load_data : string → DataFrame → result unit.

Hypothesis load_accepts : ∀ table_name data, load_data table_name data = Ok tt.

Lemma process_batch_real (table_name : string) (batch_num : Z) (data_batch : DataFrame) :
  NoDup (columns data_batch) →
  process_batch false load_data table_name batch_num data_batch
  = (real_batch_events table_name batch_num data_batch, Ok tt).
Proof.
  intros Hnodup. unfold process_batch, call_convert_batch, call_load_data.
  rewrite convert_batch_unique by done. cbn. by rewrite load_accepts.
Qed.

Lemma for_batches_real (table_name : string) (batch_num : Z) (data_generator : Generator) :
  completes data_generator →
  Forall (λ data_batch, NoDup (columns data_batch)) (yielded data_generator) →
  for_batches false load_data table_name batch_num data_generator
  = (real_batches_events table_name batch_num (yielded data_generator), Ok tt).
Proof.
  revert batch_num.
  induction data_generator as [|data_batch rest IH|e]; intros batch_num Hcompletes Hbatches.
  - reflexivity.
  - cbn [yielded] in Hbatches. apply Forall_cons in Hbatches as [Hbatch Hrest].
    cbn [for_batches yielded real_batches_events].
    rewrite process_batch_real by done.
    rewrite (IH (batch_num + 1)) by done. reflexivity.
  - destruct Hcompletes.
Qed.

Lemma for_tables_real (batch_size : Z) (table_names : list string) :
  Forall (well_behaved extract_data batch_size) table_names →
  for_tables false extract_data load_data batch_size table_names
  = (table_names ≫= real_table_events extract_data batch_size, Ok tt).
Proof.
  induction table_names as [|table_name rest IH]; intros Hwell.
  - reflexivity.
  - apply Forall_cons in Hwell as [[Hcompletes Hbatches] Hrest].
    cbn [for_tables]. unfold migrate_table, call_extract_data. cbn.
    rewrite for_batches_real by done. rewrite IH by done. reflexivity.
Qed.


End MigrateDataRealRun.

Section MigrateDataLoadsExamples.

Lemma snapshot_varchar_well_behaved (batch_size : Z) (table_name : string) :
  is_Some (md_tables snapshot_varchar !! table_name) →
  well_behaved extract_customer batch_size table_name.
Proof.
  intros [table_info Hlookup].
  unfold snapshot_varchar, snapshot_of_table in Hlookup. cbn [md_tables] in Hlookup.
  apply lookup_singleton_Some in Hlookup as [<- _].
  split; [exact I|].
  apply (Forall_cons _ batch_customer []). split; [|constructor].
  apply (bool_decide_unpack (NoDup (columns batch_customer))). vm_compute. exact I.
Qed.


Lemma migrate_data_loads_converted_witness :
  ∃ before after data_batch,
    (_migrate_data None false extract_customer load_accepting
                   snapshot_varchar converted_empty).1
    = (before ++ CallConvertBatch data_batch "dbo.Customer"
              :: CallLoadData "dbo.Customer" (converted_frame batch_customer) :: after)%list ∧
    DataConverter.convert_batch data_batch "dbo.Customer"
    = Ok (converted_frame batch_customer).
Proof.
  apply (migrate_data_loads_converted None false extract_customer load_accepting
           snapshot_varchar converted_empty "dbo.Customer"
           (converted_frame batch_customer)).
  vm_compute. by repeat constructor.
Defined.

Lemma migrate_data_load_failure_aborts_witness :
  (_migrate_data None false extract_customer load_refusing
                 snapshot_varchar converted_empty).2
  = Raise (LoadError "constraint violated") ∧
  length (_migrate_data None false extract_customer load_refusing
                        snapshot_varchar converted_empty).1 = 4%nat.
Proof.
  apply (migrate_data_load_failure_aborts None false extract_customer load_refusing
           snapshot_varchar converted_empty 3 "dbo.Customer"
           (converted_frame batch_customer)).
  - vm_compute. reflexivity.
  - reflexivity.
Defined.

End MigrateDataLoadsExamples.

(** ** Compatibility analyzer *)

Section CompatibilityAnalyzerProperties.
Import PyText CompatibilityAnalyzer.
Context {Any : Type}.

Lemma analyze_column_issues (table_key : string) (issues : list DataTypeIssue)
    (column : ColumnDefinition) :
  analyze_column table_key issues column = (issues ++ column_issues table_key column)%list.
Proof.
  unfold analyze_column, column_issues.
  destruct (String.eqb (lower (col_data_type column)) "uniqueidentifier"); [done|].
  destruct (in_list (lower (col_data_type column)) ["text"; "ntext"]); [done|].
  by rewrite (right_id_L [] app).
Qed.

Lemma analyze_data_types_closed (metadata : ExtractedMetadata Any) :
  CompatibilityAnalyzer._analyze_data_types metadata =
    map_to_list (md_tables (em_schema metadata)) ≫= λ entry,
      tbl_columns entry.2 ≫= column_issues entry.1.
Proof.
  unfold CompatibilityAnalyzer._analyze_data_types. apply (foldl_append _ _ _ []).
  intros issues [table_key table_info]. cbn [fst snd].
  apply foldl_append. apply analyze_column_issues.
Qed.

(** X14. The data-type issues are exactly these: one of medium severity for every
    [uniqueidentifier] column, and one of low severity for every [text] or
    [ntext] column, whose message names the type in upper case; type names
    are compared in lower case.  No other column gives an issue. *)
Theorem compat_data_type_issues (metadata : ExtractedMetadata Any) (i : DataTypeIssue) :
  i ∈ CompatibilityAnalyzer._analyze_data_types metadata ↔
  ∃ table_key table_info column,
    md_tables (em_schema metadata) !! table_key = Some table_info ∧
    column ∈ tbl_columns table_info ∧
    ((lower (col_data_type column) = "uniqueidentifier" ∧ i = uuid_issue table_key column) ∨
     (lower (col_data_type column) ∈ ["text"; "ntext"] ∧
      i = deprecated_issue table_key column)).
Proof.
  rewrite analyze_data_types_closed, list_elem_of_bind.
  assert (Hcolumn : ∀ table_key column,
            i ∈ column_issues table_key column ↔
            (lower (col_data_type column) = "uniqueidentifier"
             ∧ i = uuid_issue table_key column) ∨
            (lower (col_data_type column) ∈ ["text"; "ntext"]
             ∧ i = deprecated_issue table_key column)).
  { intros table_key column. unfold column_issues.
    destruct (String.eqb (lower (col_data_type column)) "uniqueidentifier") eqn:Huuid.
    - apply String.eqb_eq in Huuid. rewrite list_elem_of_singleton. split.
      + intros ->. by left.
      + intros [[_ ->]|[Hin _]]; [done|]. rewrite Huuid in Hin. exfalso.
        repeat (apply elem_of_cons in Hin as [Hin|Hin]; [discriminate Hin|]).
        by apply elem_of_nil in Hin.
    - apply String.eqb_neq in Huuid.
      destruct (in_list (lower (col_data_type column)) ["text"; "ntext"]) eqn:Htext.
      + apply in_list_true in Htext. rewrite list_elem_of_singleton. split.
        * intros ->. by right.
        * by intros [[? _]|[_ ->]].
      + apply in_list_false in Htext. split; [by intros ?%elem_of_nil|].
        by intros [[? _]|[? _]]. }
  split.
  - intros ([table_key table_info] & Hi & Hentry%elem_of_map_to_list).
    cbn [fst snd] in Hi. apply list_elem_of_bind in Hi as (column & Hi & Hcol).
    exists table_key, table_info, column. by rewrite <- Hcolumn.
  - intros (table_key & table_info & column & Hlookup & Hcol & Hi).
    exists (table_key, table_info). split; [|by apply elem_of_map_to_list].
    cbn [fst snd]. apply list_elem_of_bind. exists column. by rewrite Hcolumn.
Qed.

Lemma analyze_feature_issues (proc_key definition : string) (issues : list FeatureIssue)
    (entry : string * string) :
  analyze_feature proc_key definition issues entry
  = (issues ++ feature_issues proc_key definition entry)%list.
Proof.
  destruct entry as [feature solution]. unfold analyze_feature, feature_issues. cbn [fst snd].
  destruct (contains (lower feature) (lower definition)); [done|].
  by rewrite (right_id_L [] app).
Qed.

Lemma analyze_features_closed (metadata : ExtractedMetadata Any) :
  _analyze_features metadata =
    map_to_list (em_procedures metadata) ≫= λ entry,
      incompatible_features
        ≫= feature_issues entry.1 (default "" (rt_definition entry.2)).
Proof.
  unfold _analyze_features. apply (foldl_append _ _ _ []).
  intros issues [proc_key proc_info]. cbn [fst snd].
  apply foldl_append. apply analyze_feature_issues.
Qed.

Lemma analyze_features_elem (metadata : ExtractedMetadata Any) (i : FeatureIssue) :
  i ∈ _analyze_features metadata ↔
  ∃ proc_key proc_info feature solution,
    em_procedures metadata !! proc_key = Some proc_info ∧
    (feature, solution) ∈ incompatible_features ∧
    contains (lower feature) (routine_text proc_info) = true ∧
    i = feature_issue proc_key feature solution.
Proof.
  rewrite analyze_features_closed, list_elem_of_bind. split.
  - intros ([proc_key proc_info] & Hi & Hentry%elem_of_map_to_list).
    cbn [fst snd] in Hi.
    apply list_elem_of_bind in Hi as ([feature solution] & Hi & Hfeature).
    unfold feature_issues in Hi. cbn [fst snd] in Hi.
    destruct (contains (lower feature) _) eqn:Hcontains; [|by apply elem_of_nil in Hi].
    apply list_elem_of_singleton in Hi.
    by exists proc_key, proc_info, feature, solution.
  - intros (proc_key & proc_info & feature & solution & Hlookup & Hfeature & Hcontains & ->).
    exists (proc_key, proc_info). split; [|by apply elem_of_map_to_list].
    cbn [fst snd]. apply list_elem_of_bind. exists (feature, solution).
    split; [|done]. unfold feature_issues. cbn [fst snd].
    unfold routine_text in Hcontains. rewrite Hcontains. left.
Qed.

(** X15. A procedure gets a high-severity issue for a feature of the catalogue
    exactly when the feature's name occurs in its definition as a piece of
    text, in any letter case and at any place, inside a longer word included;
    a procedure without a definition gets none. *)
Theorem compat_feature_issues (re_search_ignorecase : string → string → bool)
    (metadata : ExtractedMetadata Any) (i : FeatureIssue) :
  i ∈ issues_features (analyze re_search_ignorecase metadata) ↔
  ∃ proc_key proc_info feature solution,
    em_procedures metadata !! proc_key = Some proc_info ∧
    (feature, solution) ∈ incompatible_features ∧
    contains (lower feature) (routine_text proc_info) = true ∧
    i = feature_issue proc_key feature solution.
Proof. apply analyze_features_elem. Qed.

Lemma contains_tail (c : ascii) (sub s : string) :
  contains (String c sub) s = true → contains sub s = true.
Proof.
  induction s as [|a s IH]; [done|].
  cbn [contains]. intros [Hprefix|Hinside]%orb_true_iff; apply orb_true_iff; right.
  - cbn [String.prefix] in Hprefix.
    destruct (ascii_dec c a); [|done].
    destruct s; cbn [contains]; by rewrite Hprefix.
  - by apply IH.
Qed.

(** X16. Since [pivot] is a piece of [unpivot], every procedure reported for
    UNPIVOT is reported for PIVOT as well. *)
Theorem compat_unpivot_implies_pivot (metadata : ExtractedMetadata Any) (proc_key : string) :
  feature_issue proc_key "UNPIVOT" "Use custom functions or restructure data"
    ∈ _analyze_features metadata →
  feature_issue proc_key "PIVOT" "Use crosstab() function or manual pivoting"
    ∈ _analyze_features metadata.
Proof.
  rewrite !analyze_features_elem.
  intros (k & proc_info & feature & solution & Hlookup & Hfeature & Hcontains & Heq).
  injection Heq as <- <- _ <-.
  exists proc_key, proc_info, "PIVOT", "Use crosstab() function or manual pivoting".
  split; [done|]. split; [by repeat constructor|]. split; [|done].
  change (lower "UNPIVOT") with "unpivot" in Hcontains.
  change (lower "PIVOT") with "pivot".
  by do 2 apply contains_tail in Hcontains.
Qed.

(** *** Views *)

Lemma analyze_view_issues (re_search_ignorecase : string → string → bool)
    (issues : list SyntaxIssue) (entry : string * ViewDefinition) :
  analyze_view re_search_ignorecase issues entry =
    (issues
     ++ ((if contains "[" (view_definition entry.2) && contains "]" (view_definition entry.2)
          then [bracket_issue entry.1] else [])
         ++ (sql_server_functions ≫= λ func,
               if re_search_ignorecase ("\b" +:+ func +:+ "\b") (view_definition entry.2)
               then [function_issue entry.1 func] else [])))%list.
Proof.
  destruct entry as [view_key view_info]. unfold analyze_view. cbn [fst snd].
  rewrite (foldl_append _ (λ func,
             if re_search_ignorecase ("\b" +:+ func +:+ "\b") (view_definition view_info)
             then [function_issue view_key func] else [])).
  - destruct (contains "[" (view_definition view_info)
              && contains "]" (view_definition view_info)).
    + by rewrite <- (assoc_L app).
    + done.
  - intros acc func. unfold analyze_function.
    destruct (re_search_ignorecase _ _); [done|]. by rewrite (right_id_L [] app).
Qed.

(** X17. The syntax issues are exactly these: one of low severity for every view
    whose body has an opening and a closing bracket somewhere, in whatever
    order, and one of medium severity for every view and every name among
    ISNULL, LEN, DATEPART and DATEDIFF that [re.search] finds in the body as a
    whole word. *)
Theorem compat_syntax_issues (re_search_ignorecase : string → string → bool)
    (metadata : ExtractedMetadata Any) (i : SyntaxIssue) :
  i ∈ _analyze_syntax re_search_ignorecase metadata ↔
  ∃ view_key view_info,
    md_views (em_schema metadata) !! view_key = Some view_info ∧
    ((contains "[" (view_definition view_info) = true ∧
      contains "]" (view_definition view_info) = true ∧
      i = bracket_issue view_key) ∨
     (∃ func,
        func ∈ sql_server_functions ∧
        re_search_ignorecase ("\b" +:+ func +:+ "\b") (view_definition view_info) = true ∧
        i = function_issue view_key func)).
Proof.
  unfold _analyze_syntax.
  rewrite (foldl_append _ _ _ [] (analyze_view_issues re_search_ignorecase)).
  cbn [app]. rewrite list_elem_of_bind. split.
  - intros ([view_key view_info] & Hi & Hentry%elem_of_map_to_list).
    cbn [fst snd] in Hi. exists view_key, view_info. split; [done|].
    apply elem_of_app in Hi as [Hi|Hi].
    + left. destruct (contains "[" _) eqn:Hopen; [|by apply elem_of_nil in Hi].
      destruct (contains "]" _) eqn:Hclose; [|by apply elem_of_nil in Hi].
      by apply list_elem_of_singleton in Hi.
    + right. apply list_elem_of_bind in Hi as (func & Hi & Hfunc). exists func.
      destruct (re_search_ignorecase _ _) eqn:Hfound; [|by apply elem_of_nil in Hi].
      by apply list_elem_of_singleton in Hi.
  - intros (view_key & view_info & Hlookup & Hcase).
    exists (view_key, view_info). split; [|by apply elem_of_map_to_list].
    cbn [fst snd]. apply elem_of_app.
    destruct Hcase as [(Hopen & Hclose & ->)|(func & Hfunc & Hfound & ->)].
    + left. rewrite Hopen, Hclose. left.
    + right. apply list_elem_of_bind. exists func. split; [|done].
      rewrite Hfound. left.
Qed.

End CompatibilityAnalyzerProperties.

Section CompatibilityAnalyzerExamples.
Import PyText CompatibilityAnalyzer.

Lemma compat_unpivot_implies_pivot_witness :
  feature_issue "dbo.Rotate" "PIVOT" "Use crosstab() function or manual pivoting"
    ∈ _analyze_features
        (extracted_of_procedure "dbo.Rotate" "SELECT * FROM t UnPivot (v FOR k IN (a, b)) u").
Proof.
  apply (compat_unpivot_implies_pivot
           (extracted_of_procedure "dbo.Rotate"
                                   "SELECT * FROM t UnPivot (v FOR k IN (a, b)) u")
           "dbo.Rotate").
  vm_compute. by repeat constructor.
Defined.

(** Brackets in the wrong order count as bracket identifiers. *)
Example compat_syntax_reversed_brackets :
  _analyze_syntax (λ _ _, false)
    (extracted_of_view "dbo.V" (mkView "dbo" "V" "SELECT '] and [' AS label"))
  = [bracket_issue "dbo.V"].
Proof. vm_compute. reflexivity. Qed.

(** The analysis of a table with a [UniqueIdentifier] and an [NText] column. *)
Example compat_data_types_documents :
  CompatibilityAnalyzer._analyze_data_types (extracted_of_table "dbo.Documents" table_documents)
  = [mkDataTypeIssue "data_type_conversion" "medium" "dbo.Documents" "DocumentId"
       "UNIQUEIDENTIFIER will be converted to UUID" "Verify UUID extension is enabled";
     mkDataTypeIssue "deprecated_type" "low" "dbo.Documents" "Body"
       "NTEXT is deprecated in SQL Server" "Will be converted to TEXT"].
Proof. vm_compute. reflexivity. Qed.

(** The specification's example: a routine whose body contains MERGE yields
    one high-severity issue naming the feature and its remedy. *)
Example compat_features_merge :
  _analyze_features
    (extracted_of_procedure "dbo.Sync" "merge into t using s on t.id = s.id")
  = [feature_issue "dbo.Sync" "MERGE" "Use INSERT...ON CONFLICT or separate statements"].
Proof. vm_compute. reflexivity. Qed.

(** The name is looked for as text, not as a word: a procedure that mentions
    a [precursor] is reported for CURSOR. *)
Example compat_features_precursor :
  _analyze_features (extracted_of_procedure "dbo.Load" "SELECT precursor FROM reactions")
  = [feature_issue "dbo.Load" "CURSOR" "Limited cursor support, consider alternatives"].
Proof. vm_compute. reflexivity. Qed.

End CompatibilityAnalyzerExamples.

(** ** Audit trail *)

Section MigrationLoggerProperties.
Import PerformanceAdvice MigrationLogger.
Context {Any : Type}.

Lemma convert_tables_fmap (tables : gmap string TableDefinition) :
  (_convert_tables tables).1 =
    (λ table_info,
       {| ct_schema := tbl_schema table_info;
          ct_name := tbl_name table_info;
          ct_columns := (λ column, (_convert_column column).1) <$> tbl_columns table_info |})
    <$> tables.
Proof. apply map_eq. intros k. by rewrite convert_tables_lookup, lookup_fmap. Qed.

Lemma convert_views_fmap (re_sub_ignorecase : string → string → string → string)
    (views : gmap string ViewDefinition) :
  _convert_views re_sub_ignorecase views =
    (λ view_info,
       {| cv_schema := view_schema view_info;
          cv_name := view_name view_info;
          cv_definition :=
            _convert_tsql_to_pgsql re_sub_ignorecase (view_definition view_info) |})
    <$> views.
Proof. apply map_eq. intros k. by rewrite convert_views_lookup, lookup_fmap. Qed.

Lemma convert_indexes_fmap (indexes : gmap string IndexDefinition) :
  _convert_indexes indexes = converted_index <$> secondary_indexes indexes.
Proof.
  apply map_eq. intros k. unfold secondary_indexes.
  rewrite convert_indexes_lookup, lookup_fmap, map_lookup_filter.
  destruct (indexes !! k) as [index_info|]; [|done]. cbn.
  destruct (idx_is_primary_key index_info) eqn:Hpk.
  - by rewrite option_guard_False by (cbn; congruence).
  - by rewrite option_guard_True by done.
Qed.

(** X18. The summary that the audit trail keeps of a converted schema counts as
    many tables and as many views as the snapshot has, and as many indexes as
    the snapshot has indexes that do not back a primary key. *)
Theorem summarize_converted_schema
    (re_sub_ignorecase : string → string → string → string)
    (metadata : SchemaSnapshot Any) :
  _summarize_data (DataConverted (convert re_sub_ignorecase metadata).1) =
    SummaryCounts (size (md_tables metadata)) (size (md_views metadata))
                  (size (secondary_indexes (md_indexes metadata))).
Proof.
  unfold convert, mbind, Logged_bind.
  pose proof (convert_tables_fmap (md_tables metadata)) as Htables.
  destruct (_convert_tables (md_tables metadata)) as [tables log]. cbn in *.
  rewrite Htables, convert_views_fmap, convert_indexes_fmap.
  by rewrite !map_size_fmap.
Qed.

(** *** The trail in memory and on file *)

Variable write_file : list AuditEntry → result unit.

Lemma write_audit_log_effect (st : LoggerState) :
  match _write_audit_log write_file st with
  | (st', Ok _) => audit_data st' = audit_data st ∧ audit_file st' = Some (audit_data st)
  | (st', Raise _) => st' = st
  end.
Proof.
  unfold _write_audit_log. by destruct (write_file (audit_data st)).
Qed.

Lemma write_appended (entry : AuditEntry) (st : LoggerState) :
  match _write_audit_log write_file (append_entry entry st) with
  | (st', Ok _) =>
      audit_data st' = (audit_data st ++ [entry])%list ∧
      audit_file st' = Some (audit_data st ++ [entry])%list
  | (st', Raise _) =>
      audit_data st' = (audit_data st ++ [entry])%list ∧
      audit_file st' = audit_file st
  end.
Proof.
  pose proof (write_audit_log_effect (append_entry entry st)) as Heff.
  destruct (_write_audit_log write_file (append_entry entry st)) as [st' [[]|e]].
  - exact Heff.
  - by subst st'.
Qed.

(** Every call adds exactly one entry at the end of the trail in memory,
    whether it returns or raises.  When it returns, the file holds the whole
    trail; when it raises, the file is as before and lacks the new entry. *)
Lemma perform_appends (call : LoggerCall Any) (st : LoggerState) :
  ∃ entry,
    audit_data (perform write_file call st).1 = (audit_data st ++ [entry])%list ∧
    match (perform write_file call st).2 with
    | Ok _ => audit_file (perform write_file call st).1
              = Some (audit_data st ++ [entry])%list
    | Raise _ => audit_file (perform write_file call st).1 = audit_file st
    end.
Proof.
  destruct call as [now phase status data|now phase error|now recommendations];
    cbn [perform]; unfold log_phase, log_error, log_recommendations.
  - eexists. pose proof (write_appended
      (PhaseEntry now phase status
                  (if data_truthy data then _summarize_data <$> data else None)) st) as Heff.
    destruct (_write_audit_log write_file _) as [st' [[]|e]]; exact Heff.
  - eexists. pose proof (write_appended (ErrorEntry now phase "error" error) st) as Heff.
    destruct (_write_audit_log write_file _) as [st' [[]|e]]; exact Heff.
  - eexists. pose proof (write_appended
      (RecommendationsEntry now "recommendations" recommendations) st) as Heff.
    destruct (_write_audit_log write_file _) as [st' [[]|e]]; exact Heff.
Qed.


End MigrationLoggerProperties.

(** ** Loader: transactions *)

Section LoaderProperties.
Import PostgreSQLLoader.

Variable db : Database.

Lemma for_items_statements {A} (message : string → string) (ddl : A → string)
    (items : list (string * A)) (st : LoaderState) :
  for_items (λ key item,
               info (message key);; call (DbExecute (ddl item)) (db_execute db (ddl item)))
            items st
  = statements_step db ((λ entry, (message entry.1, ddl entry.2)) <$> items) st.
Proof.
  unfold statements_step.
  induction items as [|[key item] rest IH]; [done|].
  cbn [for_items fmap list_fmap run_statements fst snd].
  unfold mbind, Db_bind, info, call in *. rewrite IH.
  destruct (db_execute db (ddl item)) as [[]|e]; [|done].
  by destruct (run_statements db _).
Qed.

Lemma run_statements_app (s1 s2 : list (string * string)) :
  run_statements db (s1 ++ s2) =
    match run_statements db s1 with
    | (events, Ok _) =>
        ((events ++ (run_statements db s2).1)%list, (run_statements db s2).2)
    | (events, Raise e) => (events, Raise e)
    end.
Proof.
  induction s1 as [|[message ddl] rest IH]; cbn [app run_statements].
  - by destruct (run_statements db s2).
  - destruct (db_execute db ddl) as [[]|e]; [|done]. rewrite IH.
    by destruct (run_statements db rest) as [events [[]|e]].
Qed.

(** The events of a run of statements are a prefix of the events of a run in
    which nothing fails, and all of them when nothing fails. *)
Lemma run_statements_prefix (statements : list (string * string)) :
  match run_statements db statements with
  | (events, Ok _) => events = statement_events statements
  | (events, Raise _) =>
      events `prefix_of` statement_events statements ∧
      Forall (λ e, e ≠ DbRollback ∧ e ≠ DbCommit) events
  end.
Proof.
  induction statements as [|[message ddl] rest IH]; [done|].
  cbn [run_statements]. unfold statement_events. rewrite bind_cons. cbn [fst snd].
  destruct (db_execute db ddl) as [[]|e].
  - destruct (run_statements db rest) as [events [[]|e]].
    + by rewrite IH.
    + destruct IH as [Hprefix Hall]. split.
      * by do 2 apply prefix_cons.
      * by repeat constructor.
  - split.
    + exists (rest ≫= λ statement,
                [DbLog (mkLogRecord INFO statement.1); DbExecute statement.2]). done.
    + by repeat constructor.
Qed.

(** A transaction of the loader, in one expression. *)
Lemma transaction_closed (statements : list (string * string)) (st : LoaderState) :
  try_except
    (statements_step db statements;; call DbCommit (db_commit db))
    (λ e, call DbRollback (db_rollback db);; raise e) st
  = match run_statements db statements with
    | (events, Ok _) =>
        match db_commit db with
        | Ok _ => ((events ++ [DbCommit])%list, st, Ok tt)
        | Raise e =>
            ((events ++ [DbCommit; DbRollback])%list, st, Raise (after_rollback db e))
        end
    | (events, Raise e) =>
        ((events ++ [DbRollback])%list, st, Raise (after_rollback db e))
    end.
Proof.
  unfold try_except, mbind, Db_bind, call, raise, after_rollback, statements_step.
  destruct (run_statements db statements) as [events [[]|e]]; cbn.
  - destruct (db_commit db) as [[]|e]; [done|].
    destruct (db_rollback db) as [[]|e']; cbn; by rewrite <- (assoc_L app).
  - by destruct (db_rollback db) as [[]|e'].
Qed.

Lemma statement_events_no_rollback (statements : list (string * string)) :
  DbRollback ∉ transaction_events statements.
Proof.
  unfold transaction_events, statement_events.
  intros [Hin|Hin]%elem_of_app.
  - apply list_elem_of_bind in Hin as (statement & Hin & _).
    apply elem_of_cons in Hin as [Hin|Hin]; [discriminate Hin|].
    apply list_elem_of_singleton in Hin. discriminate Hin.
  - apply list_elem_of_singleton in Hin. discriminate Hin.
Qed.

Lemma transaction_has_outcome (statements : list (string * string)) (st : LoaderState) :
  transaction_outcome db statements st (transaction db statements st).
Proof.
  unfold transaction, transaction_outcome, connect_events.
  unfold mbind at 1. unfold Db_bind at 1. unfold connect.
  destruct (connection st) eqn:Hconn.
  - rewrite transaction_closed. cbn [app].
    pose proof (run_statements_prefix statements) as Hrun.
    pose proof (statement_events_no_rollback statements) as Hnone.
    destruct (run_statements db statements) as [events [[]|e]].
    + subst events. destruct (db_commit db) as [[]|e].
      * done.
      * right. exists (transaction_events statements). split; [|done].
        unfold transaction_events. by rewrite <- (assoc_L app).
    + destruct Hrun as [[rest Hrest] Hall]. right. exists events.
      split; [done|]. split.
      * exists (rest ++ [DbCommit])%list. unfold transaction_events.
        by rewrite Hrest, <- (assoc_L app).
      * intros Hin. rewrite Forall_forall in Hall. by destruct (Hall _ Hin) as [? _].
  - destruct (db_connect db) as [[]|e] eqn:Hconnect.
    + rewrite transaction_closed.
      pose proof (run_statements_prefix statements) as Hrun.
      pose proof (statement_events_no_rollback statements) as Hnone.
      destruct (run_statements db statements) as [events [[]|e]].
      * subst events. destruct (db_commit db) as [[]|e].
        -- done.
        -- right. exists (transaction_events statements). split; [|done].
           unfold transaction_events. cbn. by rewrite <- (assoc_L app).
      * destruct Hrun as [[rest Hrest] Hall]. right. exists events.
        split; [done|]. split.
        -- exists (rest ++ [DbCommit])%list. unfold transaction_events.
           by rewrite Hrest, <- (assoc_L app).
        -- intros Hin. rewrite Forall_forall in Hall. by destruct (Hall _ Hin) as [? _].
    + by left.
Qed.

Lemma Db_bind_ext {A B} (m1 m2 : Db A) (f g : A → Db B) (st : LoaderState) :
  (∀ st, m1 st = m2 st) → (∀ a st, f a st = g a st) → (m1 ≫= f) st = (m2 ≫= g) st.
Proof.
  intros Hm Hf. unfold mbind, Db_bind. rewrite Hm.
  destruct (m2 st) as [[events st'] [a|e]]; [|done]. by rewrite Hf.
Qed.

Lemma try_except_ext {A} (body1 body2 : Db A) (handler : Exn → Db A) (st : LoaderState) :
  (∀ st, body1 st = body2 st) → try_except body1 handler st = try_except body2 handler st.
Proof. intros Hbody. unfold try_except. by rewrite Hbody. Qed.

Lemma statements_step_app {B} (s1 s2 : list (string * string)) (k : unit → Db B)
    (st : LoaderState) :
  (statements_step db s1 ≫= λ _, statements_step db s2 ≫= k) st
  = (statements_step db (s1 ++ s2) ≫= k) st.
Proof.
  unfold mbind, Db_bind, statements_step. rewrite run_statements_app.
  destruct (run_statements db s1) as [events1 [[]|e]]; cbn [fst snd]; [|done].
  destruct (run_statements db s2) as [events2 [[]|e]]; cbn [fst snd]; [|done].
  destruct (k () st) as [[events3 st3] r]. by rewrite (assoc_L app).
Qed.

Lemma create_schema_is_transaction {Any : Type} (schema_metadata : ConvertedSchema Any)
    (st : LoaderState) :
  create_schema db schema_metadata st =
    transaction db (statements_of_tables (cs_tables schema_metadata)
                    ++ statements_of_views (cs_views schema_metadata)) st.
Proof.
  unfold create_schema, transaction. apply Db_bind_ext; [done|]. intros _ st0.
  apply try_except_ext. intros st1.
  rewrite <- statements_step_app.
  apply Db_bind_ext.
  - intros st2.
    apply (for_items_statements (λ key, "Creating table: " +:+ key) _generate_table_ddl).
  - intros _ st2. apply Db_bind_ext; [|done]. intros st3.
    apply (for_items_statements (λ key, "Creating view: " +:+ key) _generate_view_ddl).
Qed.

Lemma create_indexes_constraints_is_transaction {Any : Type}
    (schema_metadata : ConvertedSchema Any) (st : LoaderState) :
  create_indexes_constraints db schema_metadata st =
    transaction db (statements_of_indexes (cs_indexes schema_metadata)) st.
Proof.
  unfold create_indexes_constraints, transaction. apply Db_bind_ext; [done|]. intros _ st0.
  apply try_except_ext. intros st1.
  apply Db_bind_ext; [|done]. intros st2.
  apply (for_items_statements (λ key, "Creating index: " +:+ key) _generate_index_ddl).
Qed.



End LoaderProperties.

Section LoaderExamples.
Import PostgreSQLLoader.

(** A database that refuses views: the tables are created, the view is
    tried, and everything is rolled back. *)
Example create_schema_refused_view :
  let outcome := create_schema db_without_views
                   (convert re_sub_nothing snapshot_customer).1 init in
  outcome.2 = Raise (LoadError "syntax error") ∧
  last (outcome.1).1 = Some DbRollback ∧
  DbCommit ∉ (outcome.1).1.
Proof.
  vm_compute. split; [done|]. split; [done|].
  intros Hin. repeat (apply elem_of_cons in Hin as [Hin|Hin]; [discriminate Hin|]).
  by apply elem_of_nil in Hin.
Qed.


End LoaderExamples.

(** ** Orchestrator: the six phases *)

Section MigratePhasesProperties.
Import PerformanceAdvice MigrationLogger MigrationPhases.

Context {Any : Type}.
Variable config_batch_size : option Z.
Variable components : Components Any.

Lemma steps_bind_events {A B} (m : Steps (Any:=Any) A) (f : A → Steps B) :
  (m ≫= f).1 = (m.1 ++ match m.2 with Ok a => (f a).1 | Raise _ => [] end)%list.
Proof.
  destruct m as [events [a|e]]; cbn.
  - by destruct (f a).
  - by rewrite (right_id_L [] app).
Qed.

Lemma steps_bind_result {A B} (m : Steps (Any:=Any) A) (f : A → Steps B) :
  (m ≫= f).2 = match m.2 with Ok a => (f a).2 | Raise e => Raise e end.
Proof. destruct m as [events [a|e]]; cbn; [|done]. by destruct (f a). Qed.

Lemma steps_bind_forall {A B} (P : PhaseEvent Any → Prop)
    (m : Steps A) (f : A → Steps B) :
  Forall P m.1 → (∀ a, Forall P (f a).1) → Forall P (m ≫= f).1.
Proof.
  intros Hm Hf. rewrite steps_bind_events. apply Forall_app. split; [done|].
  destruct m.2; [apply Hf|constructor].
Qed.

Lemma try_except_events {A} (body : Steps (Any:=Any) A) (handler : Exn → Steps A) :
  (try_except body handler).1
  = (body.1 ++ match body.2 with Ok _ => [] | Raise e => (handler e).1 end)%list.
Proof.
  destruct body as [events [a|e]]; cbn.
  - by rewrite (right_id_L [] app).
  - by destruct (handler e).
Qed.

Lemma try_except_result {A} (body : Steps (Any:=Any) A) (handler : Exn → Steps A) :
  (try_except body handler).2
  = match body.2 with Ok a => Ok a | Raise e => (handler e).2 end.
Proof. destruct body as [events [a|e]]; cbn; [done|]. by destruct (handler e). Qed.

(** What [migrate] adds to the body of its [try] block. *)
Lemma migrate_events (dry_run : bool) :
  (migrate config_batch_size dry_run components).1
  = (EvLog (mkLogRecord INFO "Starting migration process")
     :: (phases config_batch_size dry_run components).1
     ++ match (phases config_batch_size dry_run components).2 with
        | Ok _ => []
        | Raise e => [EvAuditError "migration_failed" e]
        end)%list.
Proof.
  unfold migrate. rewrite steps_bind_events. cbn [info fst snd app].
  rewrite try_except_events. f_equal. f_equal.
  destruct (phases _ _ _).2 as [|e]; [done|].
  rewrite steps_bind_events. cbn.
  by destruct (log_error components "migration_failed" e).
Qed.

Lemma migrate_result (dry_run : bool) :
  (migrate config_batch_size dry_run components).2
  = match (phases config_batch_size dry_run components).2 with
    | Ok a => Ok a
    | Raise e => Raise (after_log_error components e)
    end.
Proof.
  unfold migrate. rewrite steps_bind_result. cbn [info fst snd].
  rewrite try_except_result.
  destruct (phases _ _ _).2 as [|e]; [done|].
  rewrite steps_bind_result. unfold after_log_error. cbn.
  by destruct (log_error components "migration_failed" e).
Qed.

Lemma call_convert_forall (P : PhaseEvent Any → Prop)
    (re_sub : string → string → string → string) (metadata : SchemaSnapshot Any) :
  (∀ record, P (EvLog record)) → Forall P (call_convert re_sub metadata).1.
Proof.
  intros Hlog. unfold call_convert. destruct (convert re_sub metadata) as [cs log]. cbn.
  apply Forall_fmap, Forall_forall. intros record _. apply Hlog.
Qed.

(** The body of the [try] block writes no error entry. *)
Lemma phases_no_audit_error (dry_run : bool) :
  Forall (λ event, ¬ is_audit_error event) (phases config_batch_size dry_run components).1.
Proof.
  unfold phases.
  repeat first
    [ apply steps_bind_forall; [|intros ?]
    | by apply call_convert_forall; intros ? []
    | by (cbn; repeat constructor; intros [])
    | by (destruct dry_run; cbn; repeat constructor; intros [])
    | by (apply Forall_fmap, Forall_forall; intros ? _ []) ].
  all: destruct dry_run; cbn [negb];
    repeat first
      [ apply steps_bind_forall; [|intros ?]
      | by (cbn; repeat constructor; intros []) ].
Qed.

(** In a dry run the body of the [try] block changes nothing on the target. *)
Lemma phases_dry_run :
  Forall (λ event, ¬ touches_target event) (phases config_batch_size true components).1.
Proof.
  unfold phases. cbn [negb].
  repeat first
    [ apply steps_bind_forall; [|intros ?]
    | by apply call_convert_forall; intros ? []
    | by (cbn; repeat constructor; intros []) ].
  unfold call_migrate_data. cbn [fst].
  apply Forall_fmap. unfold _migrate_data.
  eapply Forall_impl; [apply for_tables_dry_no_load|]. by intros event Hload.
Qed.

(** X22. A dry run never changes the target database: it calls neither
    [create_schema] nor [create_indexes_constraints] nor [load_data], whatever
    the extractor returns and whichever call fails. *)
Theorem migrate_dry_run_leaves_target :
  Forall (λ event, ¬ touches_target event) (migrate config_batch_size true components).1.
Proof.
  rewrite migrate_events. constructor; [by intros []|].
  apply Forall_app. split; [apply phases_dry_run|].
  destruct (phases _ _ _).2; repeat constructor. by intros [].
Qed.

Lemma phases_ends_with_recommendations (dry_run : bool) :
  (phases config_batch_size dry_run components).2 = Ok tt →
  ∃ events recommendations,
    (phases config_batch_size dry_run components).1
    = (events ++ [EvAuditRecommendations recommendations])%list.
Proof.
  unfold phases.
  repeat match goal with
  | |- (_ ≫= _).2 = Ok tt → ∃ events recommendations, (?m ≫= ?f).1 = _ =>
      rewrite (steps_bind_result m f), (steps_bind_events m f);
      let a := fresh "a" in
      destruct m.2 as [a|?]; [|discriminate];
      let Htail := fresh "Htail" in
      let events := fresh "events" in
      let recommendations := fresh "recommendations" in
      intros Htail;
      cut (∃ events recommendations,
             (f a).1 = (events ++ [EvAuditRecommendations recommendations])%list);
      [ intros (events & recommendations & ->);
        exists (m.1 ++ events)%list, recommendations; by rewrite (assoc_L app)
      | revert Htail; cbv beta ]
  end.
  intros _. cbn. by eexists [], _.
Qed.

(** X23. [migrate] writes an error entry to the audit trail exactly when it
    raises, and then as the last thing it does: a migration that returns has
    logged its recommendations last and no error; one that raises has logged
    ['migration_failed'] once, with the text of the exception that stopped the
    phases, and raises that exception again unless writing the entry fails. *)
Theorem migrate_audits_failure (dry_run : bool) :
  let run := migrate config_batch_size dry_run components in
  match run.2 with
  | Ok _ =>
      Forall (λ event, ¬ is_audit_error event) run.1 ∧
      ∃ events recommendations,
        run.1 = (events ++ [EvAuditRecommendations recommendations])%list
  | Raise e =>
      ∃ events e0,
        run.1 = (events ++ [EvAuditError "migration_failed" e0])%list ∧
        Forall (λ event, ¬ is_audit_error event) events ∧
        (phases config_batch_size dry_run components).2 = Raise e0 ∧
        e = after_log_error components e0
  end.
Proof.
  intros run. unfold run. rewrite migrate_result, migrate_events.
  pose proof (phases_no_audit_error dry_run) as Hnone.
  pose proof (phases_ends_with_recommendations dry_run) as Hlast.
  destruct (phases _ _ _).2 as [[]|e].
  - split.
    + constructor; [by intros []|]. by rewrite (right_id_L [] app).
    + destruct (Hlast eq_refl) as (events & recommendations & ->).
      eexists (_ :: events), recommendations. by rewrite (right_id_L [] app).
  - eexists (_ :: _), e. split; [done|]. split; [|done].
    constructor; [by intros []|done].
Qed.

Lemma split_after_prefix {A} (l1 l2 before after : list A) (x : A) :
  (l1 ++ l2)%list = (before ++ x :: after)%list → x ∉ l1 →
  ∃ before', before = (l1 ++ before')%list ∧ l2 = (before' ++ x :: after)%list.
Proof.
  revert before. induction l1 as [|y l1 IH]; intros before Heq Hnotin.
  - by exists before.
  - destruct before as [|z before]; injection Heq as -> Heq.
    + destruct Hnotin. by left.
    + destruct (IH before Heq) as (before' & -> & ->).
      * intros Hin. apply Hnotin. by right.
      * by exists before'.
Qed.

Lemma split_before_suffix {A} (l2 l3 before after : list A) (x : A) :
  (l2 ++ l3)%list = (before ++ x :: after)%list → x ∉ l3 →
  ∃ after', l2 = (before ++ x :: after')%list.
Proof.
  revert l2. induction before as [|z before IH]; intros l2 Heq Hnotin.
  - destruct l2 as [|y l2]; cbn in Heq.
    + destruct Hnotin. rewrite Heq. by left.
    + injection Heq as -> _. by exists l2.
  - destruct l2 as [|y l2]; cbn in Heq.
    + destruct Hnotin. rewrite Heq. right. apply elem_of_app. right. by left.
    + injection Heq as -> Heq. destruct (IH l2 Heq Hnotin) as (after' & ->).
      by exists after'.
Qed.

Lemma phases_real_shape :
  let events := (phases config_batch_size false components).1 in
  Forall (λ event, ¬ is_load_event event) events ∨
  ∃ prefix data rest converted_schema,
    events = (prefix ++ (EvData <$> data) ++ rest)%list ∧
    EvCreateSchema converted_schema ∈ prefix ∧
    create_schema components converted_schema = Ok tt ∧
    Forall (λ event, ¬ is_create_indexes event) prefix ∧
    Forall (λ event, ¬ is_load_event event) prefix ∧
    Forall (λ event, ¬ is_load_event event) rest.
Proof.
  cbv zeta. unfold phases. cbn [negb].
  rewrite !steps_bind_events. cbn [call info fst snd].
  destruct (extract_metadata components) as [metadata|e]; [|left; solve_forall].
  rewrite !steps_bind_events. cbn [call info fst snd].
  destruct (log_phase components "metadata_extraction" _ _) as [[]|e];
    [|left; solve_forall].
  unfold call_convert.
  destruct (convert (re_sub_ignorecase components) metadata) as [converted_schema log].
  cbn [fst snd].
  assert (Hlog : Forall (λ event : PhaseEvent Any, ¬ is_load_event event) (EvLog <$> log)).
  { apply Forall_fmap, Forall_forall. by intros record _ []. }
  assert (Hlog' : Forall (λ event : PhaseEvent Any, ¬ is_create_indexes event)
                         (EvLog <$> log)).
  { apply Forall_fmap, Forall_forall. by intros record _ []. }
  rewrite !steps_bind_events. cbn [call info fst snd].
  destruct (log_phase components "schema_conversion" _ _) as [[]|e];
    [|left; solve_forall].
  rewrite ?steps_bind_events, ?steps_bind_result. cbn [call info fst snd].
  destruct (create_schema components converted_schema) as [[]|e] eqn:Hcreate;
    [|left; solve_forall].
  rewrite ?steps_bind_events, ?steps_bind_result. cbn [call info fst snd].
  destruct (log_phase components "schema_creation" _ _) as [[]|e];
    [|left; solve_forall].
  rewrite ?steps_bind_events, ?steps_bind_result. cbn [call info fst snd].
  unfold call_migrate_data. cbn [fst snd].
  set (run := _migrate_data config_batch_size false (extract_data components)
                (load_data components) metadata converted_schema).
  right.
  match goal with
  | |- ∃ _ _ _ _, (?a ++ ?b ++ ?c ++ ?d ++ ?e ++ ?f ++ ?g ++ ?h ++ (EvData <$> ?data) ++ ?r)%list = _ ∧ _ =>
      exists (a ++ b ++ c ++ d ++ e ++ f ++ g ++ h)%list, data, r, converted_schema
  end.
  split; [by rewrite <- !(assoc_L app)|].
  split.
  { do 6 (apply elem_of_app; right). apply elem_of_app. left.
    apply elem_of_app. right. apply elem_of_app. left. by left. }
  split; [done|].
  split; [solve_forall|].
  split; [solve_forall|].
  destruct run.2; [|solve_forall].
  destruct (create_indexes_constraints components converted_schema) as [[]|e];
    [|solve_forall].
  destruct (log_phase components "indexes_constraints" _ _) as [[]|e]; solve_forall.
Qed.

(** X24. Data is loaded only in a real run, only after [create_schema] has
    returned, and before any index is created: whatever the components do,
    every call to [load_data] that [migrate] makes comes after a call to
    [create_schema] that did not raise, and no call to
    [create_indexes_constraints] comes before it. *)
Theorem migrate_loads_after_schema (dry_run : bool)
    (before after : list (PhaseEvent Any)) (table_name : string) (data : DataFrame) :
  (migrate config_batch_size dry_run components).1
  = (before ++ EvData (CallLoadData table_name data) :: after)%list →
  dry_run = false ∧
  (∃ converted_schema,
     EvCreateSchema converted_schema ∈ before ∧
     create_schema components converted_schema = Ok tt) ∧
  Forall (λ event, ¬ is_create_indexes event) before.
Proof.
  intros Hevents. rewrite migrate_events in Hevents.
  set (tail := match (phases config_batch_size dry_run components).2 with
               | Ok _ => []
               | Raise e => [EvAuditError "migration_failed" e]
               end) in Hevents.
  assert (Htail : Forall (λ event : PhaseEvent Any, ¬ is_load_event event) tail).
  { unfold tail. destruct (phases _ _ _).2; solve_forall. }
  assert (Hnone : Forall (λ event : PhaseEvent Any, ¬ is_load_event event)
                    (phases config_batch_size dry_run components).1 → False).
  { intros Hnone.
    assert (Hall : Forall (λ event : PhaseEvent Any, ¬ is_load_event event)
                     (before ++ EvData (CallLoadData table_name data) :: after)).
    { rewrite <- Hevents. solve_forall. }
    apply Forall_app in Hall as [_ Hall]. apply Forall_cons in Hall as [Hload _].
    by destruct Hload. }
  destruct dry_run.
  { destruct Hnone. eapply Forall_impl; [apply phases_dry_run|].
    intros event Htarget Hload. apply Htarget. by destruct event. }
  split; [done|].
  destruct phases_real_shape as [Hshape|Hshape]; [by destruct Hnone|].
  destruct Hshape as (prefix & events & rest & converted_schema
                      & Hphases & Hin & Hcreate & Hindexes & Hprefix & Hrest).
  rewrite Hphases in Hevents.
  rewrite <- (assoc_L app), app_comm_cons, <- (assoc_L app) in Hevents.
  apply split_after_prefix in Hevents as (before' & -> & Hevents).
  2:{ intros Hin'. apply elem_of_cons in Hin' as [[=]|Hin'].
      rewrite Forall_forall in Hprefix. by destruct (Hprefix _ Hin'). }
  apply split_before_suffix in Hevents as (after' & Hevents).
  2:{ intros [Hin'|Hin']%elem_of_app.
      - rewrite Forall_forall in Hrest. by destruct (Hrest _ Hin').
      - rewrite Forall_forall in Htail. by destruct (Htail _ Hin'). }
  split.
  - exists converted_schema. split; [|done]. apply elem_of_app. left. by right.
  - apply Forall_app_2.
    + apply Forall_cons_2; [by intros []|done].
    + assert (Hdata : Forall (λ event : PhaseEvent Any, ¬ is_create_indexes event)
                        (EvData <$> events)).
      { apply Forall_fmap, Forall_forall. by intros event _ []. }
      rewrite Hevents in Hdata. by apply Forall_app in Hdata as [Hdata _].
Qed.

End MigratePhasesProperties.

Section MigratePhasesExamples.
Import PerformanceAdvice MigrationLogger MigrationPhases.

(** A real run over a table [Customer] of one batch: the batch is loaded
    after the schema was created. *)
Lemma migrate_loads_after_schema_witness :
  let components := components_accepting snapshot_varchar extract_customer in
  let events := (migrate None false components).1 in
  false = false ∧
  (∃ converted_schema,
     EvCreateSchema converted_schema ∈ take 13 events ∧
     create_schema components converted_schema = Ok tt) ∧
  Forall (λ event, ¬ is_create_indexes event) (take 13 events).
Proof.
  intros components events.
  apply (migrate_loads_after_schema None components false
           (take 13 events) (drop 14 events)
           "dbo.Customer" (converted_frame batch_customer)).
  vm_compute. reflexivity.
Defined.

(** The same run when the extractor fails on the first read: the migration
    raises the extractor's exception after the error entry. *)
Example migrate_extraction_failure :
  let run := migrate None false (components_accepting snapshot_varchar extract_failing) in
  run.2 = Raise (ExtractionError "connection lost") ∧
  last run.1 = Some (EvAuditError "migration_failed" (ExtractionError "connection lost")).
Proof. vm_compute. by split. Qed.

End MigratePhasesExamples.

(** ** Extractor *)

Section ExtractorProperties.
Import CompatibilityAnalyzer SqlServerExtractor.

Lemma extract_tables_snoc (rows : list TableRow) (row : TableRow) :
  _extract_tables (rows ++ [row]) = extract_table_row (_extract_tables rows) row.
Proof. unfold _extract_tables. by rewrite foldl_app. Qed.

(** X25. The entry of a key holds one column for each fetched row of that key, in
    the order of the rows, under the schema and the name of the first of
    them; a key without rows has no entry.  Rows of two tables whose schema
    and name give the same dotted key end up in one entry. *)
Theorem extract_tables_lookup (rows : list TableRow) (table_key : string) :
  _extract_tables rows !! table_key = table_of_rows (rows_of_table table_key rows).
Proof.
  induction rows as [|row rows IH] using rev_ind; [done|].
  rewrite extract_tables_snoc. unfold rows_of_table in *. rewrite filter_app.
  unfold extract_table_row.
  destruct (decide (schema_table row = table_key)) as [<-|Hne].
  - rewrite filter_cons_True by done. rewrite filter_nil.
    rewrite lookup_alter_eq. rewrite IH.
    destruct (filter _ rows) as [|first group]; cbn [table_of_rows].
    + by rewrite lookup_insert_eq.
    + rewrite IH. cbn. unfold append_column. cbn. by rewrite fmap_app.
  - rewrite filter_cons_False by done. rewrite filter_nil.
    rewrite (right_id_L [] app), lookup_alter_ne by done.
    destruct (_extract_tables rows !! schema_table row); [done|].
    by rewrite lookup_insert_ne.
Qed.

Lemma extract_indexes_snoc (rows : list IndexRow) (row : IndexRow) :
  _extract_indexes (rows ++ [row]) = extract_index_row (_extract_indexes rows) row.
Proof. unfold _extract_indexes. by rewrite foldl_app. Qed.

(** X26. The entry of an index holds one column for each fetched row of its key
    [table.index], in the order of the rows; the key leaves out the schema,
    so that indexes of the same name on tables of the same name in two
    schemas share one entry, with the columns of both. *)
Theorem extract_indexes_lookup (rows : list IndexRow) (key : string) :
  _extract_indexes rows !! key = index_of_rows (rows_of_index key rows).
Proof.
  induction rows as [|row rows IH] using rev_ind; [done|].
  rewrite extract_indexes_snoc. unfold rows_of_index in *. rewrite filter_app.
  unfold extract_index_row.
  destruct (decide (index_key row = key)) as [<-|Hne].
  - rewrite filter_cons_True by done. rewrite filter_nil.
    rewrite lookup_alter_eq. rewrite IH.
    destruct (filter _ rows) as [|first group]; cbn [index_of_rows].
    + by rewrite lookup_insert_eq.
    + rewrite IH. cbn. unfold append_index_column. cbn. by rewrite fmap_app.
  - rewrite filter_cons_False by done. rewrite filter_nil.
    rewrite (right_id_L [] app), lookup_alter_ne by done.
    destruct (_extract_indexes rows !! index_key row); [done|].
    by rewrite lookup_insert_ne.
Qed.

Lemma extract_tables_columns (rows : list TableRow) (table_key : string)
    (table_info : TableDefinition) :
  _extract_tables rows !! table_key = Some table_info →
  Forall (λ column, col_is_primary_key column = None) (tbl_columns table_info).
Proof.
  revert table_key table_info.
  induction rows as [|row rows IH] using rev_ind; intros table_key table_info; [done|].
  rewrite extract_tables_snoc. unfold extract_table_row.
  destruct (decide (schema_table row = table_key)) as [<-|Hne].
  - rewrite lookup_alter_eq.
    destruct (_extract_tables rows !! schema_table row) as [existing|] eqn:Hlookup.
    + rewrite Hlookup. intros [= <-]. cbn. apply Forall_app_2; [by eapply IH|].
      by repeat constructor.
    + rewrite lookup_insert_eq. intros [= <-]. cbn. by repeat constructor.
  - rewrite lookup_alter_ne by done.
    destruct (_extract_tables rows !! schema_table row).
    + apply IH.
    + rewrite lookup_insert_ne by done. apply IH.
Qed.

Lemma extract_tables_no_primary_key (rows : list TableRow) (table_key : string)
    (table_info : TableDefinition) :
  _extract_tables rows !! table_key = Some table_info →
  has_primary_key_column table_info = false.
Proof.
  intros Hcolumns%extract_tables_columns. unfold has_primary_key_column.
  apply not_true_is_false. intros (column & Hin & Hpk)%existsb_exists.
  rewrite Forall_forall in Hcolumns. apply list_elem_of_In in Hin.
  rewrite (Hcolumns _ Hin) in Hpk. discriminate Hpk.
Qed.

Lemma extract_metadata_parts {Any} (pyodbc_connect : result Connection)
    (self_connection self_connection' : option Connection)
    (metadata : ExtractedMetadata Any) :
  extract_metadata pyodbc_connect self_connection = (self_connection', Ok metadata) →
  ∃ table_rows view_rows index_rows,
    metadata = {| em_schema :=
                    {| md_tables := _extract_tables table_rows;
                       md_views := _extract_views view_rows;
                       md_indexes := _extract_indexes index_rows;
                       md_constraints := ∅ |};
                  em_triggers := ∅; em_procedures := ∅; em_functions := ∅ |}.
Proof.
  unfold extract_metadata. destruct (connect _ _) as [st [conn|e]]; [|by intros [=]].
  cbn. destruct (cursor conn) as [cur|e]; [|by intros [=]].
  cbn. destruct (fetch_tables cur) as [table_rows|e]; [|by intros [=]].
  cbn. destruct (fetch_views cur) as [view_rows|e]; [|by intros [=]].
  cbn. destruct (fetch_indexes cur) as [index_rows|e]; [|by intros [=]].
  cbn. intros [= _ <-]. by exists table_rows, view_rows, index_rows.
Qed.

(** X27. Whatever the database holds, the analysis of extracted metadata reports
    every table as lacking a primary key, once each, and finds no
    incompatible feature: the extractor records no [is_primary_key] entry
    for a column and returns no stored procedure. *)
Theorem extracted_metadata_analysis {Any} (pyodbc_connect : result Connection)
    (self_connection self_connection' : option Connection)
    (metadata : ExtractedMetadata Any) :
  extract_metadata pyodbc_connect self_connection = (self_connection', Ok metadata) →
  _analyze_indexing (em_schema metadata)
  = missing_primary_key_recommendation <$> (map_to_list (md_tables (em_schema metadata))).*1 ∧
  _analyze_features metadata = [] ∧
  md_constraints (em_schema metadata) = ∅.
Proof.
  intros (table_rows & view_rows & index_rows & ->)%extract_metadata_parts.
  cbn [em_schema md_tables md_constraints]. split; [|done].
  rewrite analyze_indexing_closed. cbn [md_tables].
  assert (Hall : Forall (λ entry : string * TableDefinition,
                           has_primary_key_column entry.2 = false)
                        (map_to_list (_extract_tables table_rows))).
  { apply Forall_forall. intros [table_key table_info] Hin%elem_of_map_to_list.
    by eapply extract_tables_no_primary_key. }
  induction Hall as [|entry entries Hentry _ IH]; [done|].
  rewrite bind_cons, Hentry, IH. done.
Qed.

Lemma batch_count_done (total_rows batch_size offset : Z) :
  0 < batch_size → total_rows ≤ offset → batch_count (total_rows - offset) batch_size = 0%nat.
Proof.
  intros Hpos Hdone. unfold batch_count.
  assert ((total_rows - offset + batch_size - 1) / batch_size ≤ 0); [|lia].
  assert ((total_rows - offset + batch_size - 1) / batch_size < 1); [|lia].
  apply Z.div_lt_upper_bound; lia.
Qed.

Lemma batch_count_more (total_rows batch_size offset : Z) :
  0 < batch_size → offset < total_rows →
  batch_count (total_rows - offset) batch_size
  = S (batch_count (total_rows - (offset + batch_size)) batch_size).
Proof.
  intros Hpos Hmore. unfold batch_count.
  replace (total_rows - offset + batch_size - 1)
    with ((total_rows - (offset + batch_size) + batch_size - 1) + 1 * batch_size) by lia.
  rewrite Z.div_add by lia.
  assert (0 ≤ (total_rows - (offset + batch_size) + batch_size - 1) / batch_size); [|lia].
  apply Z.div_pos; lia.
Qed.

(** The loop from any offset, when the batch size is positive. *)
Lemma extract_batches_from (fuel : nat) (conn : Connection) (table : string)
    (batch_size total_rows offset : Z) :
  0 < batch_size →
  (batch_count (total_rows - offset) batch_size ≤ fuel)%nat →
  extract_batches fuel conn table batch_size total_rows offset
  = Some (batches_at conn table batch_size total_rows
            ((λ i, offset + Z.of_nat i * batch_size)
               <$> seq 0 (batch_count (total_rows - offset) batch_size))).
Proof.
  intros Hpos. revert offset. induction fuel as [|fuel IH]; intros offset Hfuel.
  - destruct (Z.ltb_spec offset total_rows) as [Hmore|Hdone].
    + rewrite batch_count_more in Hfuel by done. lia.
    + cbn. apply Z.ltb_ge in Hdone as Hdone'. rewrite Hdone'.
      by rewrite batch_count_done.
  - cbn [extract_batches].
    destruct (Z.ltb_spec offset total_rows) as [Hmore|Hdone].
    + rewrite batch_count_more in * by done.
      cbn [seq fmap list_fmap batches_at foldr].
      replace (offset + Z.of_nat 0 * batch_size) with offset by lia.
      destruct (read_sql_query conn _) as [batch_df|e]; [|done].
      rewrite IH by lia. cbn [mbind option_bind].
      rewrite <- (fmap_S_seq 0), <- list_fmap_compose.
      rewrite (list_fmap_ext ((λ i : nat, offset + Z.of_nat i * batch_size) ∘ S)
                 (λ i : nat, offset + batch_size + Z.of_nat i * batch_size)
                 (seq 0 _)); [done|].
      intros _ i _. cbn [compose]. lia.
    + by rewrite batch_count_done.
Qed.

(** X28. With a positive batch size the generator of [extract_data] comes to an
    end: it reads one batch at each multiple of the batch size below the
    number of rows, that is, the number of rows divided by the batch size and
    rounded up, in increasing order, and stops after the last or at the first
    read that raises. *)
Theorem extract_data_batches (fuel : nat) (pyodbc_connect : result Connection)
    (self_connection self_connection' : option Connection) (conn : Connection)
    (table : string) (batch_size total_rows : Z) :
  0 < batch_size →
  connect pyodbc_connect self_connection = (self_connection', Ok conn) →
  read_count conn (count_query table) = Ok total_rows →
  (batch_count total_rows batch_size ≤ fuel)%nat →
  extract_data fuel pyodbc_connect self_connection table batch_size
  = (self_connection',
     Some (batches_at conn table batch_size total_rows
             (batch_offsets total_rows batch_size))).
Proof.
  intros Hpos Hconnect Hcount Hfuel. unfold extract_data.
  rewrite Hconnect, Hcount. f_equal.
  rewrite extract_batches_from; [|done|by rewrite Z.sub_0_r].
  rewrite Z.sub_0_r. unfold batch_offsets.
  by rewrite (list_fmap_ext (λ i : nat, 0 + Z.of_nat i * batch_size)
                (λ i : nat, Z.of_nat i * batch_size) (seq 0 _)).
Qed.

Lemma extract_batches_never_ends (fuel : nat) (conn : Connection) (table : string)
    (batch_size total_rows offset : Z) (batches : Batches) :
  batch_size ≤ 0 → offset < total_rows →
  extract_batches fuel conn table batch_size total_rows offset = Some batches →
  ¬ completes (generator batches).
Proof.
  intros Hsize. revert offset batches.
  induction fuel as [|fuel IH]; intros offset batches Hmore; cbn [extract_batches];
    (destruct (Z.ltb_spec offset total_rows) as [_|?]; [|lia]); [by intros [=]|].
  destruct (read_sql_query conn _) as [batch_df|e]; [|by intros [= <-] []].
  destruct (extract_batches fuel conn table batch_size total_rows (offset + batch_size))
    as [rest|] eqn:Hrest; [|by intros [=]].
  intros [= <-]. cbn. eapply IH; [|done]. lia.
Qed.

(** X29. With a batch size of zero or below, the generator of [extract_data] ends
    without an exception for an empty table only: on a table with rows it
    raises or goes on yielding batches for ever. *)
Theorem extract_data_nonpositive_batch_size (fuel : nat)
    (pyodbc_connect : result Connection)
    (self_connection self_connection' : option Connection)
    (table : string) (batch_size : Z) (batches : Batches) :
  batch_size ≤ 0 →
  extract_data fuel pyodbc_connect self_connection table batch_size
  = (self_connection', Some batches) →
  completes (generator batches) →
  ∃ conn total_rows,
    connect pyodbc_connect self_connection = (self_connection', Ok conn) ∧
    read_count conn (count_query table) = Ok total_rows ∧
    total_rows ≤ 0 ∧
    batches = BatchesStop.
Proof.
  intros Hsize. unfold extract_data.
  destruct (connect pyodbc_connect self_connection) as [st [conn|e]];
    [|by intros [= _ <-] []].
  destruct (read_count conn (count_query table)) as [total_rows|e] eqn:Hcount;
    [|by intros [= _ <-] []].
  intros [= -> Hbatches] Hcompletes. exists conn, total_rows.
  destruct (Z.ltb_spec 0 total_rows) as [Hmore|Hdone].
  - by destruct (extract_batches_never_ends _ _ _ _ _ _ _ Hsize Hmore Hbatches).
  - split; [done|]. split; [done|]. split; [done|].
    apply Z.ltb_ge in Hdone.
    destruct fuel; cbn [extract_batches] in Hbatches; rewrite Hdone in Hbatches;
      by injection Hbatches.
Qed.
End ExtractorProperties.

Section ExtractorExamples.
Import CompatibilityAnalyzer SqlServerExtractor.

Example extract_tables_customer_order :
  _extract_tables rows_customer_order !! "dbo.Customer"
  = Some (mkTable "dbo" "Customer"
            [mkColumn "Id" "int" None (Some 10) (Some 0) false None 1 None;
             mkColumn "Name" "nvarchar" (Some 50) None None true None 2 None]).
Proof. vm_compute. reflexivity. Qed.

(** A table [b.c] of a schema [a] and a table [c] of a schema [a.b] share
    the key [a.b.c]. *)
Example extract_tables_dotted_names :
  _extract_tables
    [mkTableRow "a" "b.c" "Id" "int" None None None "NO" None 1;
     mkTableRow "a.b" "c" "Code" "char" (Some 3) None None "NO" None 1]
  = {["a.b.c" :=
        mkTable "a" "b.c"
          [mkColumn "Id" "int" None None None false None 1 None;
           mkColumn "Code" "char" (Some 3) None None false None 1 None]]}.
Proof. vm_compute. reflexivity. Qed.

Lemma extracted_metadata_analysis_witness :
  _analyze_indexing (em_schema metadata_customer)
  = missing_primary_key_recommendation
      <$> (map_to_list (md_tables (em_schema metadata_customer))).*1 ∧
  _analyze_features metadata_customer = [] ∧
  md_constraints (em_schema metadata_customer) = ∅.
Proof.
  apply (extracted_metadata_analysis (Ok connection_customer) None (Some connection_customer)).
  reflexivity.
Defined.

(** The table [Customer] has a primary key index, and is reported all the
    same. *)
Example extracted_customer_reported :
  idx_is_primary_key <$> md_indexes (em_schema metadata_customer) !! "Customer.PK_Customer"
  = Some true ∧
  missing_primary_key_recommendation "dbo.Customer"
  ∈ _analyze_indexing (em_schema metadata_customer).
Proof. split; [vm_compute; reflexivity|]. vm_compute. by repeat constructor. Qed.

Lemma extract_data_batches_witness :
  extract_data 3 (Ok connection_customer) None "dbo.Customer" 2
  = (Some connection_customer,
     Some (batches_at connection_customer "dbo.Customer" 2 5 (batch_offsets 5 2))).
Proof.
  apply (extract_data_batches 3 (Ok connection_customer) None (Some connection_customer)
           connection_customer "dbo.Customer" 2 5).
  - lia.
  - reflexivity.
  - reflexivity.
  - vm_compute. lia.
Defined.

(** Five rows in batches of two: three batches, at the offsets 0, 2 and 4,
    of which the last is announced as five rows out of five. *)
Example extract_data_customer_offsets :
  batch_offsets 5 2 = [0; 2; 4] ∧
  (extract_data 3 (Ok connection_customer) None "dbo.Customer" 2).2
  = Some (BatchesYield batch_customer
            (mkLogRecord DEBUG "Extracted 2/5 rows from dbo.Customer")
            (BatchesYield batch_customer
               (mkLogRecord DEBUG "Extracted 4/5 rows from dbo.Customer")
               (BatchesYield batch_customer
                  (mkLogRecord DEBUG "Extracted 5/5 rows from dbo.Customer")
                  BatchesStop))).
Proof. split; vm_compute; reflexivity. Qed.

Lemma extract_data_nonpositive_batch_size_witness :
  ∃ conn total_rows,
    connect (Ok connection_empty) None = (Some connection_empty, Ok conn) ∧
    read_count conn (count_query "dbo.Customer") = Ok total_rows ∧
    total_rows ≤ 0 ∧
    BatchesStop = BatchesStop.
Proof.
  apply (extract_data_nonpositive_batch_size 0 (Ok connection_empty) None
           (Some connection_empty) "dbo.Customer" 0 BatchesStop).
  - lia.
  - reflexivity.
  - exact I.
Defined.

(** With a batch size of zero the loop over a table of five rows is never
    left, however long it runs. *)
Example extract_data_zero_batch_size (fuel : nat) :
  (extract_data fuel (Ok connection_customer) None "dbo.Customer" 0).2 = None.
Proof.
  unfold extract_data. cbn [connect connection_customer read_count snd].
  induction fuel as [|fuel IH]; [done|].
  cbn [extract_batches]. change (0 <? 5) with true. cbn iota.
  cbn [read_sql_query]. change (0 + 0) with 0. by rewrite IH.
Qed.

End ExtractorExamples.

(** ** Configuration *)

Section ConfigLoaderProperties.
Import ConfigLoader.

Lemma key_is_true (name : string) (key : YamlKey) :
  key_is name key = true ↔ key = KeyStr name.
Proof.
  destruct key as [s|n|b|]; cbn [key_is]; [|by split; intros [=]..].
  rewrite String.eqb_eq. split; [by intros ->|by intros [= ->]].
Qed.

Lemma has_key_existsb (name : string) (items : list (YamlKey * Yaml)) :
  existsb (λ item, key_is name item.1) items = true ↔ has_key name items.
Proof.
  rewrite existsb_exists. unfold has_key. split.
  - intros ([key value] & Hin%list_elem_of_In & Hkey%key_is_true).
    cbn [fst] in Hkey. subst key. by exists value.
  - intros (value & Hin%list_elem_of_In). exists (KeyStr name, value).
    split; [done|]. by apply key_is_true.
Qed.

Lemma getitem_has_key (items : list (YamlKey * Yaml)) (name : string) (value : Yaml) :
  getitem (YamlMap items) name = Passed value → has_key name items.
Proof.
  cbn. destruct (find _ items) as [[key value']|] eqn:Hfind; [|by intros [=]].
  intros _. apply find_some in Hfind as [Hin%list_elem_of_In Hkey%key_is_true].
  cbn [fst] in Hkey. subst key. by exists value'.
Qed.

Lemma require_map (message : string) (items : list (YamlKey * Yaml)) (names : list string) :
  require message (Passed (YamlMap items)) names = Passed tt ↔
  ∀ name, name ∈ names → has_key name items.
Proof.
  induction names as [|name names IH]; cbn [require].
  - split; [|done]. by intros _ name ?%elem_of_nil.
  - cbn. destruct (existsb _ items) eqn:Hpresent; cbn [negb].
    + rewrite IH. apply has_key_existsb in Hpresent. split.
      * intros Hrest name' [->|Hin]%elem_of_cons; [done|by apply Hrest].
      * intros Hall name' Hin. apply Hall. by right.
    + split; [by intros [=]|]. intros Hall.
      assert (Hkey : has_key name items) by (apply Hall; left).
      apply has_key_existsb in Hkey. congruence.
Qed.

(** X30. A configuration whose sections [source] and [target] are dictionaries
    passes the validation exactly when each has its four required keys;
    what stands under the keys is not looked at. *)
Theorem validate_config_sections (items source target : list (YamlKey * Yaml)) :
  getitem (YamlMap items) "source" = Passed (YamlMap source) →
  getitem (YamlMap items) "target" = Passed (YamlMap target) →
  _validate_config (YamlMap items) = Passed tt ↔
  (∀ field, field ∈ source_required → has_key field source) ∧
  (∀ field, field ∈ target_required → has_key field target).
Proof.
  intros Hsource Htarget. unfold _validate_config.
  assert (Hsections : require "Required configuration section missing: "
                        (Passed (YamlMap items)) required_sections = Passed tt).
  { apply require_map. intros name Hin.
    apply elem_of_cons in Hin as [->|Hin]; [by eapply getitem_has_key|].
    apply list_elem_of_singleton in Hin as ->. by eapply getitem_has_key. }
  rewrite Hsections, Hsource, Htarget. cbn [mbind checked_bind].
  rewrite <- (require_map "Required source field missing: " source source_required).
  rewrite <- (require_map "Required target field missing: " target target_required).
  destruct (require _ (Passed (YamlMap source)) source_required) as [[]|e];
    cbn [mbind checked_bind].
  - split; [by intros ->|by intros [_ ->]].
  - split; [by intros [=]|by intros [[=] _]].
Qed.
End ConfigLoaderProperties.

Section ConfigLoaderExamples.
Import ConfigLoader.

Lemma validate_config_sections_witness :
  _validate_config config_null_fields = Passed tt ↔
  (∀ field, field ∈ source_required → has_key field source_null_fields) ∧
  (∀ field, field ∈ target_required → has_key field target_null_fields).
Proof.
  apply (validate_config_sections
           [(KeyStr "source", YamlMap source_null_fields);
            (KeyStr "target", YamlMap target_null_fields)]
           source_null_fields target_null_fields); reflexivity.
Defined.

(** Null fields pass. *)
Example validate_config_null_fields :
  _validate_config config_null_fields = Passed tt.
Proof. vm_compute. reflexivity. Qed.

(** A section that is a text passes when the text mentions the field names:
    [in] is then the test for a part of the text. *)
Example validate_config_text_sections :
  _validate_config config_text_sections = Passed tt.
Proof. vm_compute. reflexivity. Qed.

(** An empty file, which [yaml.safe_load] reads as [None], is refused with a
    [TypeError], not with the [ValueError] of a missing section. *)
Example validate_config_empty_file :
  _validate_config YamlNull = Failed ConfigTypeError.
Proof. reflexivity. Qed.

(** The first missing item is the one reported. *)
Example validate_config_first_missing :
  _validate_config (YamlMap [(KeyStr "target", YamlMap [])])
  = Failed (ValueError "Required configuration section missing: source").
Proof. vm_compute. reflexivity. Qed.

End ConfigLoaderExamples.
